(** * Azure resource identifiers: [azure/mgmt/core/tools.py]

    A shallow embedding of the resource-id parser, composer and validators of
    [azure.mgmt.core.tools], together with the part of Python's [re] module
    that the three compiled patterns of the file rely on.

    Modelling conventions.
    - A Python [str] is the [string] of the bytes of its UTF-8 encoding. A
      character is a first byte and the continuation bytes (of the form
      [10xxxxxx]) that follow it; an ASCII character is one byte. The
      characters the three patterns name are ASCII, so a class is asked
      about the first byte of a character, and a slash or a line feed in the
      text is always a character of its own.
    - The [(?i)] flag folds the two cases of the ASCII letters and, as
      Python does for [str] patterns, lets [s] match U+017F, [i] match
      U+0131 and U+0130, and [k] match U+212A.
    - [str.lower] is applied by the source to an identifier and to what
      [resource_id] builds from its parse, to compare them. The two texts
      hold the same fields, so they can differ in the spelling of the
      keywords only, and the comparison is the comparison up to the case of
      the ASCII letters: [Str.lower] folds these.
    - A Python [dict] with string keys is a [gmap string value]; [None] is a
      value of its own ([VNone]), as in the source, where [groupdict] maps the
      groups that took no part in the match to [None].
    - An exception is a constructor of the result type. *)

From Stdlib Require Import Ascii.
From stdpp Require Import gmap strings pretty list fin_maps.

(** ** Python values *)

Inductive value : Type :=
| VNone
| VStr (s : string)
| VInt (n : nat)
| VBool (b : bool).

Global Instance value_eq_dec : EqDecision value.
Proof. solve_decision. Defined.

(** [str(v)], as [str.format] renders a field. *)
Definition py_str (v : value) : string :=
  match v with
  | VNone => "None"
  | VStr s => s
  | VInt n => pretty n
  | VBool true => "True"
  | VBool false => "False"
  end.

(** Truthiness, as used by [or], [and], [not] and [if]. *)
Definition truthy (v : value) : bool :=
  match v with
  | VNone => false
  | VStr s => negb (bool_decide (s = ""))
  | VInt n => negb (bool_decide (n = 0))
  | VBool b => b
  end.

(** [a or b] *)
Definition py_or (a b : value) : value := if truthy a then a else b.

(** What can interrupt a call: a [KeyError] (dictionary subscription or
    [str.format] on a missing key), a [TypeError], or the loop bound of the
    model being reached. *)
Inductive error : Type :=
| KeyError (key : string)
| TypeError
| OutOfFuel.

Inductive result (A : Type) : Type :=
| Ok (a : A)
| Err (e : error).
Arguments Ok {A} a.
Arguments Err {A} e.

Global Instance result_ret : MRet result := fun _ a => Ok a.
Global Instance result_bind : MBind result := fun _ _ f x =>
  match x with
  | Ok a => f a
  | Err e => Err e
  end.

(** [d[key]] *)
Definition getitem (d : gmap string value) (key : string) : result value :=
  match d !! key with
  | Some v => Ok v
  | None => Err (KeyError key)
  end.

(** [d.get(key)] *)
Definition dict_get (d : gmap string value) (key : string) : value :=
  default VNone (d !! key).

(** ** Strings *)

Module Str.

Definition LF : ascii := "010"%char.

(** The bytes of ASCII characters. *)
Definition is_ascii_byte (c : ascii) : bool := nat_of_ascii c <? 128.

(** The continuation bytes of UTF-8, [10xxxxxx]. *)
Definition is_cont (c : ascii) : bool :=
  let n := nat_of_ascii c in (128 <=? n) && (n <? 192).

Definition is_upper (c : ascii) : bool :=
  let n := nat_of_ascii c in (65 <=? n) && (n <=? 90).

Definition lower_ascii (c : ascii) : ascii :=
  if is_upper c then ascii_of_nat (nat_of_ascii c + 32) else c.

(** [s.lower()] *)
Fixpoint lower (s : string) : string :=
  match s with
  | "" => ""
  | String c s' => String (lower_ascii c) (lower s')
  end.

(** [s[:n]] *)
Fixpoint take (n : nat) (s : string) : string :=
  match n, s with
  | S n', String c s' => String c (take n' s')
  | _, _ => ""
  end.

(** [sep.join(l)] *)
Fixpoint join (sep : string) (l : list string) : string :=
  match l with
  | [] => ""
  | [x] => x
  | x :: l' => x +:+ sep +:+ join sep l'
  end.

(** [''.join(l)] *)
Fixpoint concat (l : list string) : string :=
  match l with
  | [] => ""
  | x :: l' => x +:+ concat l'
  end.

(** [s.split(sep)] for a one-character separator. *)
Fixpoint split (sep : ascii) (s : string) : list string :=
  match s with
  | "" => [""]
  | String c s' =>
      if Ascii.eqb c sep then "" :: split sep s'
      else match split sep s' with
           | [] => [String c ""]
           | x :: l => String c x :: l
           end
  end.

Fixpoint forallb (p : ascii → bool) (s : string) : bool :=
  match s with
  | "" => true
  | String c s' => p c && forallb p s'
  end.

(** [n * c] *)
Fixpoint replicate (n : nat) (c : ascii) : string :=
  match n with
  | 0 => ""
  | S n' => String c (replicate n' c)
  end.

(** [s.isascii()] *)
Definition is_ascii (s : string) : bool := forallb is_ascii_byte s.

(** The number of bytes of [s] that do not continue a character. *)
Fixpoint starts (s : string) : nat :=
  match s with
  | "" => 0
  | String c s' => (if is_cont c then 0 else 1) + starts s'
  end.

(** [len(s)]: the number of characters. The first byte of a text starts
    a character, whatever it is. *)
Definition len (s : string) : nat :=
  match s with
  | "" => 0
  | String _ s' => S (starts s')
  end.

(** [s[len(p):]] when [s.startswith(p)] *)
Fixpoint strip_prefix (p s : string) : option string :=
  match p with
  | "" => Some s
  | String a p' =>
      match s with
      | String c s' => if Ascii.eqb a c then strip_prefix p' s' else None
      | "" => None
      end
  end.

End Str.

(** ** The fragment of [re] used by the module

    Greedy backtracking matching in continuation-passing style: every
    construct tries its alternatives in the order [sre] does and commits to
    the first one under which the rest of the pattern matches. The literal
    texts of the patterns are ASCII, and a character class is given by what
    it says of the first byte of a character. *)

Module Re.

Inductive regex : Type :=
| Eps
| Lit (text : string)                              (* literal text *)
| Rep (cls : ascii → bool) (lo : nat) (hi : option nat)  (* [cls]{lo,hi}, greedy *)
| Cat (r1 r2 : regex)
| Opt (r : regex)                                  (* (r)?, greedy *)
| Named (name : string) (r : regex)                (* (?P<name>r) *)
| Bol                                              (* ^ *)
| Eol.                                             (* $ *)

Definition plus (cls : ascii → bool) : regex := Rep cls 1 None.
Definition star (cls : ascii → bool) : regex := Rep cls 0 None.
Definition cat (l : list regex) : regex := foldr Cat Eps l.

(** A compiled pattern: the [(?i)] flag and the expression. *)
Record pattern : Type := Pattern { ignorecase : bool; body : regex }.

Fixpoint group_names (r : regex) : list string :=
  match r with
  | Named n r' => n :: group_names r'
  | Cat r1 r2 => group_names r1 ++ group_names r2
  | Opt r' => group_names r'
  | _ => []
  end.

(** The characters outside ASCII that [(?i)] folds to an ASCII letter, in
    UTF-8: U+017F (long s), U+0131 (dotless i), U+0130 (I with a dot above)
    and U+212A (the Kelvin sign). *)
Definition folded_letters : list (string * ascii) :=
  [ (String "197" (String "191" ""), "s");
    (String "196" (String "177" ""), "i");
    (String "196" (String "176" ""), "i");
    (String "226" (String "132" (String "170" "")), "k") ]%char.

Fixpoint fold_letter (letters : list (string * ascii)) (s : string)
    : option (ascii * string) :=
  match letters with
  | [] => None
  | (v, a) :: letters' =>
      match Str.strip_prefix v s with
      | Some s' => Some (a, s')
      | None => fold_letter letters' s
      end
  end.

(** The character at the head of [s], folded for [(?i)], and the text
    after it: one of the four letters above, or else a byte with its ASCII
    case folded. *)
Definition fold_head (s : string) : option (ascii * string) :=
  match fold_letter folded_letters s with
  | Some r => Some r
  | None =>
      match s with
      | String c s' => Some (Str.lower_ascii c, s')
      | "" => None
      end
  end.

(** Match one character of a literal at the head of [s]. *)
Definition lit_char (ic : bool) (a : ascii) (s : string) : option string :=
  if ic then
    match fold_head s with
    | Some (c, s') => if Ascii.eqb (Str.lower_ascii a) c then Some s' else None
    | None => None
    end
  else
    match s with
    | String c s' => if Ascii.eqb a c then Some s' else None
    | "" => None
    end.

(** Match literal text at the head of [s]; the rest of [s] on success. *)
Fixpoint lit_match (ic : bool) (text s : string) : option string :=
  match text with
  | "" => Some s
  | String a text' =>
      match lit_char ic a s with
      | Some s' => lit_match ic text' s'
      | None => None
      end
  end.

Definition hi_allows (hi : option nat) : bool :=
  match hi with Some 0 => false | _ => true end.

Section Matcher.
Context {R : Type}.
Variable ic : bool.
Variable subject : string.

(** Greedy bounded repetition of a character class: take one more
    character when possible, and fall back to stopping here. [mid] tells
    that a character has just been taken: the continuation bytes at the
    head of [s] belong to it, and are passed over with it. *)
Fixpoint rep_match (cls : ascii → bool) (mid : bool) (lo : nat) (hi : option nat)
    (s : string) (k : string → option R) : option R :=
  let stop := match lo with 0 => k s | S _ => None end in
  match s with
  | String c s' =>
      if mid && Str.is_cont c then rep_match cls true lo hi s' k
      else if cls c && hi_allows hi then
        match rep_match cls true (pred lo) (pred <$> hi) s' k with
        | Some r => Some r
        | None => stop
        end
      else stop
  | "" => stop
  end.

(** [s] is the text still to be read; the text a group has read is the
    head of [s] up to where the group's expression stopped. *)
Fixpoint rmatch (r : regex) (s : string) (caps : gmap string string)
    (k : string → gmap string string → option R) : option R :=
  match r with
  | Eps => k s caps
  | Lit text =>
      match lit_match ic text s with
      | Some s' => k s' caps
      | None => None
      end
  | Rep cls lo hi => rep_match cls false lo hi s (fun s' => k s' caps)
  | Cat r1 r2 => rmatch r1 s caps (fun s' caps' => rmatch r2 s' caps' k)
  | Opt r' =>
      match rmatch r' s caps k with
      | Some x => Some x
      | None => k s caps
      end
  | Named n r' =>
      rmatch r' s caps (fun s' caps' =>
        k s' (<[n := Str.take (String.length s - String.length s') s]> caps'))
  | Bol => if String.length s =? String.length subject then k s caps else None
  | Eol =>
      if bool_decide (s = "" ∨ s = String Str.LF "") then k s caps else None
  end.
End Matcher.

(** A match object: the captured groups and the text after the match. *)
Record match_obj : Type := MatchObj { groups : gmap string string; rest : string }.

(** Try the pattern at the position of [subject] where [s] starts. *)
Definition match_at (p : pattern) (subject s : string) : option match_obj :=
  rmatch (ignorecase p) subject (body p) s ∅ (fun s' caps => Some (MatchObj caps s')).

(** [p.match(subject)] *)
Definition re_match (p : pattern) (subject : string) : option match_obj :=
  match_at p subject subject.

(** [m.groupdict()], as its items in group order. *)
Definition groupdict (p : pattern) (m : match_obj) : list (string * value) :=
  (fun n => (n, from_option VStr VNone (groups m !! n))) <$> group_names (body p).

(** [p.finditer(subject)]: scan left to right; after a match the scan
    resumes where the match ended ([skip] counts the bytes of the current
    match still to be passed over). The scan tries every byte of the text
    where Python tries every character: the pattern it is used with starts
    with a slash, and matches at no other byte. *)
Fixpoint finditer_go (p : pattern) (subject s : string) (skip : nat)
    : list match_obj :=
  match skip with
  | S n =>
      match s with
      | "" => []
      | String _ s' => finditer_go p subject s' n
      end
  | 0 =>
      match match_at p subject s with
      | Some m =>
          m :: match s with
               | "" => []
               | String _ s' =>
                   finditer_go p subject s'
                     (pred (String.length s - String.length (rest m)))
               end
      | None =>
          match s with
          | "" => []
          | String _ s' => finditer_go p subject s' 0
          end
      end
  end.

Definition finditer (p : pattern) (subject : string) : list match_obj :=
  finditer_go p subject subject 0.

End Re.

(** ** The module [azure.mgmt.core.tools] *)

Definition not_slash (c : ascii) : bool := negb (Ascii.eqb c "/").

(** [.] without [re.DOTALL]: any character but a line feed. *)
Definition dot (c : ascii) : bool := negb (Ascii.eqb c Str.LF).

(** The class of [_ARMNAME_RE]. *)
Definition armname_char (c : ascii) : bool :=
  negb (bool_decide (c ∈ ["<"; ">"; "%"; "&"; ":"; "?"; "/"]%char)).

Definition _ARMID_RE : Re.pattern :=
  Re.Pattern true (Re.cat
    [ Re.Lit "/subscriptions/"; Re.Named "subscription" (Re.plus not_slash);
      Re.Opt (Re.cat
        [ Re.Lit "/resourceGroups/"; Re.Named "resource_group" (Re.plus not_slash) ]);
      Re.Opt (Re.cat
        [ Re.Lit "/providers/"; Re.Named "namespace" (Re.plus not_slash);
          Re.Lit "/"; Re.Named "type" (Re.star not_slash);
          Re.Lit "/"; Re.Named "name" (Re.plus not_slash);
          Re.Named "children" (Re.star dot) ]) ]).

Definition _CHILDREN_RE : Re.pattern :=
  Re.Pattern true (Re.cat
    [ Re.Opt (Re.cat
        [ Re.Lit "/providers/"; Re.Named "child_namespace" (Re.plus not_slash) ]);
      Re.Lit "/"; Re.Named "child_type" (Re.star not_slash);
      Re.Lit "/"; Re.Named "child_name" (Re.plus not_slash) ]).

Definition _ARMNAME_RE : Re.pattern :=
  Re.Pattern false (Re.cat [ Re.Bol; Re.Rep armname_char 1 (Some 260); Re.Eol ]).

(** [str.format] of the one field [key], looked up in the keyword
    arguments. *)
Definition fmt (kwargs : gmap string value) (key : string) : result string :=
  v ← getitem kwargs key; Ok (py_str v).

(** [result.update(items)] *)
Definition dict_update (d : gmap string value) (items : list (string * value))
    : gmap string value :=
  foldl (fun d kv => <[kv.1 := kv.2]> d) d items.

(** [{key: value for key, value in d.items() if value is not None}] *)
Definition drop_none (d : gmap string value) : gmap string value :=
  filter (fun kv => kv.2 ≠ VNone) d.

Definition as_str (v : value) : result string :=
  match v with
  | VStr s => Ok s
  | _ => Err TypeError
  end.

(** The loop [for index in range(1, last_child_num)] of
    [_get_parents_from_parts], over the indices still to be visited. *)
Fixpoint parents_loop (indices : list nat) (kwargs : gmap string value)
    (parent_builder : list string) : result (gmap string value * list string) :=
  match indices with
  | [] => Ok (kwargs, parent_builder)
  | index :: indices' =>
      let child_namespace := dict_get kwargs ("child_namespace_" +:+ pretty index) in
      let parent_builder :=
        if bool_decide (child_namespace ≠ VNone)
        then parent_builder ++ ["providers/" +:+ py_str child_namespace +:+ "/"]
        else parent_builder in
      let kwargs :=
        <["child_parent_" +:+ pretty index := VStr (Str.concat parent_builder)]> kwargs in
      child_type ← fmt kwargs ("child_type_" +:+ pretty index);
      child_name ← fmt kwargs ("child_name_" +:+ pretty index);
      parents_loop indices' kwargs
        (parent_builder ++ [child_type +:+ "/" +:+ child_name +:+ "/"])
  end.

Definition _get_parents_from_parts (kwargs : gmap string value)
    : result (gmap string value) :=
  last_child_num ← getitem kwargs "last_child_num";
  '(kwargs, parent_builder) ←
    match last_child_num with
    | VNone => Ok (kwargs, [])
    | VInt n =>
        type ← fmt kwargs "type";
        name ← fmt kwargs "name";
        '(kwargs, parent_builder) ←
          parents_loop (seq 1 (n - 1)) kwargs [type +:+ "/" +:+ name +:+ "/"];
        let child_namespace := dict_get kwargs ("child_namespace_" +:+ pretty n) in
        let parent_builder :=
          if bool_decide (child_namespace ≠ VNone)
          then parent_builder ++ ["providers/" +:+ py_str child_namespace +:+ "/"]
          else parent_builder in
        Ok (<["child_parent_" +:+ pretty n := VStr (Str.concat parent_builder)]> kwargs,
            parent_builder)
    | _ => Err TypeError
    end;
  name ← getitem kwargs "name";
  Ok (<["resource_parent" :=
          if truthy name then VStr (Str.concat parent_builder) else VNone]> kwargs).

Definition _populate_alternate_kwargs (kwargs : gmap string value)
    : result (gmap string value) :=
  resource_namespace ← getitem kwargs "namespace";
  last_child_num ← getitem kwargs "last_child_num";
  resource_type ←
    (let child_type := dict_get kwargs ("child_type_" +:+ py_str last_child_num) in
     if truthy child_type then Ok child_type else getitem kwargs "type");
  last_child_num ← getitem kwargs "last_child_num";
  resource_name ←
    (let child_name := dict_get kwargs ("child_name_" +:+ py_str last_child_num) in
     if truthy child_name then Ok child_name else getitem kwargs "name");
  kwargs ← _get_parents_from_parts kwargs;
  Ok (<["resource_name" := resource_name]>
      (<["resource_type" := resource_type]>
       (<["resource_namespace" := resource_namespace]> kwargs))).

(** The items one child match adds: [key + "_%d" % (count + 1)] for every
    group of the child pattern. *)
Definition child_items (count : nat) (child : Re.match_obj) : list (string * value) :=
  (fun kv => (kv.1 +:+ "_" +:+ pretty (count + 1), kv.2)) <$> Re.groupdict _CHILDREN_RE child.

(** [for count, child in enumerate(children)]: the dictionary and the last
    value of [count] ([None] when the loop body never ran). *)
Fixpoint for_children (children : list Re.match_obj) (index : nat)
    (st : gmap string value * option nat) : gmap string value * option nat :=
  match children with
  | [] => st
  | child :: children' =>
      for_children children' (S index)
        (dict_update st.1 (child_items index child), Some index)
  end.

Definition parse_resource_id (rid : string) : result (gmap string value) :=
  if bool_decide (rid = "") then Ok ∅ else
  final_result ←
    match Re.re_match _ARMID_RE rid with
    | Some m =>
        let result : gmap string value := list_to_map (Re.groupdict _ARMID_RE m) in
        children_text ← getitem result "children";
        children_text ← as_str (py_or children_text (VStr ""));
        let children := Re.finditer _CHILDREN_RE children_text in
        let '(result, count) := for_children children 0 (result, None) in
        let result :=
          <["last_child_num" :=
              match count with Some c => VInt (c + 1) | None => VNone end]> result in
        _populate_alternate_kwargs result
    | None => Ok {["name" := VStr rid]}
    end;
  Ok (drop_none final_result).

(** The [while True] loop of [resource_id]. It is left through the
    [KeyError] of a missing child key only, which the enclosing [try]
    swallows: the value is [rid_builder] at that point. *)
Fixpoint resource_id_children (kwargs : gmap string value) (fuel count : nat)
    (rid_builder : list string) : result (list string) :=
  match fuel with
  | 0 => Err OutOfFuel
  | S fuel' =>
      let rid_builder :=
        match fmt kwargs ("child_namespace_" +:+ pretty count) with
        | Ok ns => rid_builder ++ ["providers/" +:+ ns]
        | Err _ => rid_builder
        end in
      match fmt kwargs ("child_type_" +:+ pretty count),
            fmt kwargs ("child_name_" +:+ pretty count) with
      | Ok child_type, Ok child_name =>
          resource_id_children kwargs fuel' (S count)
            (rid_builder ++ [child_type +:+ "/" +:+ child_name])
      | _, _ => Ok rid_builder
      end
  end.

Definition resource_id (kwargs : gmap string value) : result string :=
  let kwargs := drop_none kwargs in
  subscription ← fmt kwargs "subscription";
  let rid_builder := ["/subscriptions/" +:+ subscription] in
  rid_builder ←
    (let rid_builder :=
       match fmt kwargs "resource_group" with
       | Ok resource_group => rid_builder ++ ["resourceGroups/" +:+ resource_group]
       | Err _ => rid_builder
       end in
     match fmt kwargs "namespace" with
     | Ok namespace =>
         let rid_builder := rid_builder ++ ["providers/" +:+ namespace] in
         match fmt kwargs "type", fmt kwargs "name" with
         | Ok type, Ok name =>
             resource_id_children kwargs (S (size kwargs)) 1
               (rid_builder ++ [type +:+ "/" +:+ name])
         | _, _ => Ok rid_builder
         end
     | Err _ => Ok rid_builder
     end);
  Ok (Str.join "/" rid_builder).

(** What a validator call does: it returns a value, raises an instance of
    the caller's exception type, or lets an error of the call pass. *)
Inductive outcome (T : Type) : Type :=
| Returns (v : value)
| Raises (exception_type : T)
| Uncaught (e : error).
Arguments Returns {T} v.
Arguments Raises {T} exception_type.
Arguments Uncaught {T} e.

Section Validators.
Context {T : Type}.

Definition is_valid_resource_id (rid : string) (exception_type : option T)
    : outcome T :=
  let attempt : result value :=
    if truthy (VStr rid) then
      parts ← parse_resource_id rid;
      built ← resource_id parts;
      Ok (VBool (bool_decide (Str.lower built = Str.lower rid)))
    else Ok (VStr rid) in
  let finish (is_valid : value) : outcome T :=
    match exception_type with
    | Some t => if negb (truthy is_valid) then Raises t else Returns is_valid
    | None => Returns is_valid
    end in
  match attempt with
  | Ok is_valid => finish is_valid
  | Err (KeyError _) => finish (VBool false)
  | Err e => Uncaught e
  end.

Definition is_valid_resource_name (rname : string) (exception_type : option T)
    : outcome T :=
  match Re.re_match _ARMNAME_RE rname with
  | Some _ => Returns (VBool true)
  | None =>
      match exception_type with
      | Some t => Raises t
      | None => Returns (VBool false)
      end
  end.
End Validators.

(** ** What the patterns match, read off without backtracking

    Every repetition of the two identifier patterns is followed either by a
    character outside its class or by text that always matches, so the
    greedy choice is the only one: a run is the longest head of the text
    inside the class. *)

Fixpoint take_while (p : ascii → bool) (s : string) : string :=
  match s with
  | String c s' => if p c then String c (take_while p s') else ""
  | "" => ""
  end.

Fixpoint drop_while (p : ascii → bool) (s : string) : string :=
  match s with
  | String c s' => if p c then drop_while p s' else s
  | "" => ""
  end.

(** A non-empty run of [p] at the head of [s], and what follows it. *)
Definition run1 (p : ascii → bool) (s : string) : option (string * string) :=
  if bool_decide (take_while p s = "") then None
  else Some (take_while p s, drop_while p s).

(** The root resource of an identifier:
    [/providers/{namespace}/{type}/{name}{children}]. *)
Record provider : Type := Provider {
  p_namespace : string;
  p_type : string;
  p_name : string;
  p_children : string
}.

(** What [_ARMID_RE] reads at the head of a text. *)
Record root_view : Type := RootView {
  v_subscription : string;
  v_resource_group : option string;
  v_provider : option provider;
  v_rest : string
}.

Definition resource_group_view (s : string) : option (string * string) :=
  s ← Re.lit_match true "/resourceGroups/" s; run1 not_slash s.

Definition provider_view (s : string) : option (provider * string) :=
  s ← Re.lit_match true "/providers/" s;
  '(namespace, s) ← run1 not_slash s;
  s ← Re.lit_match true "/" s;
  let type := take_while not_slash s in
  s ← Re.lit_match true "/" (drop_while not_slash s);
  '(name, s) ← run1 not_slash s;
  Some (Provider namespace type name (take_while dot s), drop_while dot s).

Definition armid_view (s : string) : option root_view :=
  s ← Re.lit_match true "/subscriptions/" s;
  '(subscription, s) ← run1 not_slash s;
  let '(resource_group, s) :=
    match resource_group_view s with
    | Some (g, s') => (Some g, s')
    | None => (None, s)
    end in
  Some match provider_view s with
       | Some (p, s') => RootView subscription resource_group (Some p) s'
       | None => RootView subscription resource_group None s
       end.

(** The groups of a root match, set in the order the groups close. *)
Definition root_groups (v : root_view) : gmap string string :=
  let caps : gmap string string := <["subscription" := v_subscription v]> ∅ in
  let caps :=
    match v_resource_group v with
    | Some g => <["resource_group" := g]> caps
    | None => caps
    end in
  match v_provider v with
  | Some p =>
      <["children" := p_children p]>
        (<["name" := p_name p]>
          (<["type" := p_type p]> (<["namespace" := p_namespace p]> caps)))
  | None => caps
  end.

(** One child segment: [/providers/{child_namespace}] if any, then
    [/{child_type}/{child_name}]. *)
Record child : Type := Child {
  c_namespace : option string;
  c_type : string;
  c_name : string
}.

Definition child_tail_view (s : string) : option (string * string * string) :=
  s ← Re.lit_match true "/" s;
  let type := take_while not_slash s in
  s ← Re.lit_match true "/" (drop_while not_slash s);
  '(name, s) ← run1 not_slash s;
  Some (type, name, s).

(** What [_CHILDREN_RE] reads at the head of a text. *)
Definition child_view (s : string) : option (child * string) :=
  let with_namespace :=
    s ← Re.lit_match true "/providers/" s;
    '(namespace, s) ← run1 not_slash s;
    '(type, name, s) ← child_tail_view s;
    Some (Child (Some namespace) type name, s) in
  match with_namespace with
  | Some r => Some r
  | None =>
      '(type, name, s) ← child_tail_view s;
      Some (Child None type name, s)
  end.

Definition child_groups (c : child) : gmap string string :=
  let caps : gmap string string :=
    match c_namespace c with
    | Some ns => <["child_namespace" := ns]> ∅
    | None => ∅
    end in
  <["child_name" := c_name c]> (<["child_type" := c_type c]> caps).

Definition opt_value (o : option string) : value := from_option VStr VNone o.

(** [groupdict()] of a root match and of a child match. *)
Definition root_items (v : root_view) : list (string * value) :=
  [ ("subscription", VStr (v_subscription v));
    ("resource_group", opt_value (v_resource_group v));
    ("namespace", opt_value (p_namespace <$> v_provider v));
    ("type", opt_value (p_type <$> v_provider v));
    ("name", opt_value (p_name <$> v_provider v));
    ("children", opt_value (p_children <$> v_provider v)) ].

Definition child_dict_items (c : child) : list (string * value) :=
  [ ("child_namespace", opt_value (c_namespace c));
    ("child_type", VStr (c_type c));
    ("child_name", VStr (c_name c)) ].

Definition child_obj (r : child * string) : Re.match_obj :=
  Re.MatchObj (child_groups r.1) r.2.

(** The scan of [finditer], with [child_view] in place of the matcher. *)
Fixpoint scan_children (s : string) (skip : nat) : list (child * string) :=
  match skip with
  | S n =>
      match s with
      | "" => []
      | String _ s' => scan_children s' n
      end
  | 0 =>
      match child_view s with
      | Some r =>
          r :: match s with
               | "" => []
               | String _ s' =>
                   scan_children s' (pred (String.length s - String.length r.2))
               end
      | None =>
          match s with
          | "" => []
          | String _ s' => scan_children s' 0
          end
      end
  end.

(** The text handed to [_CHILDREN_RE.finditer]. *)
Definition children_text (v : root_view) : string :=
  default "" (p_children <$> v_provider v).

(** What [parse_resource_id] computes once the root pattern has matched,
    before the [None] entries are dropped. *)
Definition parsed (v : root_view) : result (gmap string value) :=
  let children := child_obj <$> scan_children (children_text v) 0 in
  let st := for_children children 0 (list_to_map (root_items v), None) in
  _populate_alternate_kwargs
    (<["last_child_num" :=
        match st.2 with Some c => VInt (c + 1) | None => VNone end]> st.1).

(** [k] is one of the keys [child_namespace_j], [child_type_j],
    [child_name_j]. *)
Definition is_child_key (k : string) (j : nat) : Prop :=
  k = "child_namespace_" +:+ pretty j ∨ k = "child_type_" +:+ pretty j ∨
  k = "child_name_" +:+ pretty j.

(** *** The parent paths, as the levels of the identifier spell them *)

(** [providers/{child_namespace_i}/], when level [i] has a namespace. *)
Definition provider_segment (kwargs : gmap string value) (i : nat) : string :=
  match dict_get kwargs ("child_namespace_" +:+ pretty i) with
  | VNone => ""
  | v => "providers/" +:+ py_str v +:+ "/"
  end.

(** [{child_type_i}/{child_name_i}/] *)
Definition child_segment (kwargs : gmap string value) (i : nat) : string :=
  py_str (dict_get kwargs ("child_type_" +:+ pretty i)) +:+ "/" +:+
  py_str (dict_get kwargs ("child_name_" +:+ pretty i)) +:+ "/".

(** [{type}/{name}/] *)
Definition root_segment (kwargs : gmap string value) : string :=
  py_str (dict_get kwargs "type") +:+ "/" +:+ py_str (dict_get kwargs "name") +:+ "/".

(** The segments of the levels [a], [a+1], ..., [a+len-1]. *)
Fixpoint levels (kwargs : gmap string value) (a len : nat) : string :=
  match len with
  | 0 => ""
  | S len' =>
      provider_segment kwargs a +:+ child_segment kwargs a +:+ levels kwargs (S a) len'
  end.

(** The accumulator once the levels [1..i] have been appended to it. *)
Definition accumulated (kwargs : gmap string value) (i : nat) : string :=
  root_segment kwargs +:+ levels kwargs 1 i.

(** The parent recorded for level [i]: everything above it, and its own
    provider segment. *)
Definition recorded_parent (kwargs : gmap string value) (i : nat) : string :=
  accumulated kwargs (pred i) +:+ provider_segment kwargs i.

(** The dictionary handed to [_populate_alternate_kwargs] by
    [parse_resource_id]: the root keys are there, and the keys of every
    child level below the last. *)
Definition populate_ready (kwargs : gmap string value) (n : nat) : Prop :=
  is_Some (kwargs !! "namespace") ∧ is_Some (kwargs !! "type") ∧
  is_Some (kwargs !! "name") ∧
  kwargs !! "last_child_num" = Some (match n with 0 => VNone | S _ => VInt n end) ∧
  ∀ i, 1 ≤ i < n →
    is_Some (kwargs !! ("child_type_" +:+ pretty i)) ∧
    is_Some (kwargs !! ("child_name_" +:+ pretty i)).

Definition parent_key (k : string) (n : nat) : Prop :=
  k = "resource_parent" ∨ ∃ i, 1 ≤ i ≤ n ∧ k = "child_parent_" +:+ pretty i.

(** [last_child_num], as [parse_resource_id] stores it for [n] children. *)
Definition last_child_value (n : nat) : value :=
  match n with 0 => VNone | S _ => VInt n end.

(** The children [_CHILDREN_RE.finditer] finds in the text of the root
    match. *)
Definition found_children (v : root_view) : list (child * string) :=
  scan_children (children_text v) 0.

(** The dictionary of [parse_resource_id] when [_populate_alternate_kwargs]
    is called. *)
Definition collected (v : root_view) : gmap string value :=
  let st :=
    for_children (child_obj <$> found_children v) 0
      (list_to_map (root_items v), None) in
  <["last_child_num" :=
      match st.2 with Some c => VInt (c + 1) | None => VNone end]> st.1.

(** The mapping [parse_resource_id] returns. *)
Definition parse_result (rid : string) : gmap string value :=
  match parse_resource_id rid with
  | Ok m => m
  | Err _ => ∅
  end.

(** *** [resource_id] *)

(** A keyword argument that is given and is not [None]. *)
Definition present (kwargs : gmap string value) (key : string) : bool :=
  bool_decide (dict_get kwargs key ≠ VNone).

Definition field (kwargs : gmap string value) (key : string) : string :=
  py_str (dict_get kwargs key).

(** [/subscriptions/{subscription}] and the resource group, if any. *)
Definition id_head (kwargs : gmap string value) : string :=
  "/subscriptions/" +:+ field kwargs "subscription" +:+
  (if present kwargs "resource_group"
   then "/resourceGroups/" +:+ field kwargs "resource_group" else "").

(** [/{type}/{name}] of the root resource. *)
Definition id_root (kwargs : gmap string value) : string :=
  "/" +:+ field kwargs "type" +:+ "/" +:+ field kwargs "name".

(** [/providers/{child_namespace_i}], when level [i] has a namespace. *)
Definition id_child_provider (kwargs : gmap string value) (i : nat) : string :=
  if present kwargs ("child_namespace_" +:+ pretty i)
  then "/providers/" +:+ field kwargs ("child_namespace_" +:+ pretty i) else "".

Definition id_child (kwargs : gmap string value) (i : nat) : string :=
  id_child_provider kwargs i +:+
  "/" +:+ field kwargs ("child_type_" +:+ pretty i) +:+
  "/" +:+ field kwargs ("child_name_" +:+ pretty i).

(** The child levels [a], ..., [a+n-1]. *)
Fixpoint id_children (kwargs : gmap string value) (a n : nat) : string :=
  match n with
  | 0 => ""
  | S n' => id_child kwargs a +:+ id_children kwargs (S a) n'
  end.

(** Level [i] has both its type and its name. *)
Definition complete (kwargs : gmap string value) (i : nat) : bool :=
  present kwargs ("child_type_" +:+ pretty i) &&
  present kwargs ("child_name_" +:+ pretty i).

(** The identifier [parse_resource_id] and [resource_id] give back for
    [rid], when they give one. *)
Definition rebuilt (rid : string) : result string :=
  parts ← parse_resource_id rid; resource_id parts.

(** *** The canonical text of a parsed identifier *)

Definition render_child (c : child) : string :=
  match c_namespace c with
  | Some ns => "/providers/" +:+ ns
  | None => ""
  end +:+ "/" +:+ c_type c +:+ "/" +:+ c_name c.

Fixpoint render_children (cs : list child) : string :=
  match cs with
  | [] => ""
  | c :: cs' => render_child c +:+ render_children cs'
  end.

(** What [resource_id] builds from the parts of a root match and the
    children found in it. *)
Definition canonical (v : root_view) (cs : list child) : string :=
  "/subscriptions/" +:+ v_subscription v +:+
  match v_resource_group v with
  | Some g => "/resourceGroups/" +:+ g
  | None => ""
  end +:+
  match v_provider v with
  | Some p =>
      "/providers/" +:+ p_namespace p +:+ "/" +:+ p_type p +:+ "/" +:+ p_name p +:+
      render_children cs
  | None => ""
  end.

(** The keys [resource_id] reads. *)
Definition input_key (k : string) : Prop :=
  k ∈ ["subscription"; "resource_group"; "namespace"; "type"; "name"] ∨
  ∃ j, is_child_key k j.

(** *** Well-formed identifiers

    The grammar of the two patterns, read on the segments between the
    slashes: [/subscriptions/{subscription}], then
    [/resourceGroups/{resource_group}] if any, then
    [/providers/{namespace}/{type}/{name}] and the child segments if any.
    The keywords are compared without case; [subscription],
    [resource_group], [namespace], [name] and the child names are not
    empty; the child segments hold no line feed, at which the [children]
    group of the root pattern stops. *)

Definition same_word (a b : string) : bool :=
  bool_decide (Str.lower a = Str.lower b).

Definition nonempty (s : string) : bool := negb (bool_decide (s = "")).

(** The text of the segments [l], each after a slash. *)
Fixpoint path (l : list string) : string :=
  match l with
  | [] => ""
  | s :: l' => "/" +:+ s +:+ path l'
  end.

Fixpoint child_segments_ok (l : list string) : bool :=
  match l with
  | [] => true
  | ty :: nm :: l' =>
      nonempty nm && Str.forallb dot ty && Str.forallb dot nm && child_segments_ok l'
  | [_] => false
  end.

Definition provider_segments_ok (l : list string) : bool :=
  match l with
  | [] => true
  | kw :: ns :: ty :: nm :: children =>
      same_word kw "providers" && nonempty ns && nonempty nm &&
      child_segments_ok children
  | _ => false
  end.

Definition well_formed (x : string) : bool :=
  match Str.split "/" x with
  | "" :: kw :: subscription :: rest =>
      same_word kw "subscriptions" && nonempty subscription &&
      match rest with
      | kw' :: g :: rest' =>
          if same_word kw' "resourceGroups"
          then nonempty g && provider_segments_ok rest'
          else provider_segments_ok rest
      | _ => provider_segments_ok rest
      end
  | _ => false
  end.

(** The children the child pattern finds in well-formed child segments: a
    pair whose type is the keyword [providers] is read as the namespace of
    the pair after it, if there is one. *)
Fixpoint group_children (l : list string) : list child :=
  match l with
  | kw :: ns :: tl =>
      match tl with
      | ty :: nm :: l' =>
          if same_word kw "providers"
          then Child (Some ns) ty nm :: group_children l'
          else Child None kw ns :: group_children tl
      | _ => [Child None kw ns]
      end
  | _ => []
  end.

(** The parts of a well-formed identifier. *)
Record parts : Type := Parts {
  w_subscriptions : string;           (* the keyword, as spelled *)
  w_subscription : string;
  w_resource_group : option (string * string);   (* keyword and name *)
  w_provider : option (string * string * string * string);
                                      (* keyword, namespace, type, name *)
  w_children : list string            (* the child segments *)
}.

Definition parts_segments (w : parts) : list string :=
  [w_subscriptions w; w_subscription w] ++
  match w_resource_group w with Some (kw, g) => [kw; g] | None => [] end ++
  match w_provider w with
  | Some (kw, ns, ty, nm) => [kw; ns; ty; nm] ++ w_children w
  | None => []
  end.

Definition parts_ok (w : parts) : Prop :=
  Forall (fun s => Str.forallb not_slash s = true) (parts_segments w) ∧
  same_word (w_subscriptions w) "subscriptions" = true ∧
  nonempty (w_subscription w) = true ∧
  match w_resource_group w with
  | Some (kw, g) => same_word kw "resourceGroups" = true ∧ nonempty g = true
  | None => True
  end ∧
  match w_provider w with
  | Some (kw, ns, ty, nm) =>
      same_word kw "providers" = true ∧ nonempty ns = true ∧ nonempty nm = true ∧
      child_segments_ok (w_children w) = true
  | None => w_children w = []
  end.

Definition parts_view (w : parts) : root_view :=
  RootView (w_subscription w) (snd <$> w_resource_group w)
    (match w_provider w with
     | Some (kw, ns, ty, nm) => Some (Provider ns ty nm (path (w_children w)))
     | None => None
     end) "".

(** *** Parsing the recomposed identifier *)

(** The segments [resource_id] writes for the children. *)
Fixpoint flatten_children (cs : list child) : list string :=
  match cs with
  | [] => []
  | c :: cs' =>
      match c_namespace c with
      | Some ns => ["providers"; ns; c_type c; c_name c]
      | None => [c_type c; c_name c]
      end ++ flatten_children cs'
  end.

(** The parts [resource_id] writes for well-formed parts. *)
Definition canonical_parts (w : parts) : parts :=
  Parts "subscriptions" (w_subscription w)
    (match w_resource_group w with
     | Some (_, g) => Some ("resourceGroups", g)
     | None => None
     end)
    (match w_provider w with
     | Some (_, ns, ty, nm) => Some ("providers", ns, ty, nm)
     | None => None
     end)
    (flatten_children (group_children (w_children w))).


(** *** The text the root pattern matches *)

(** Empty, or starting with a slash. *)
Definition slash_start (s : string) : Prop := s = "" ∨ ∃ t, s = String "/" t.

(** The names [_ARMNAME_RE] accepts: one to 260 characters outside
    [<>%&:?/], and possibly one line feed after them. *)
Definition arm_name (rname : string) : Prop :=
  ∃ b, (rname = b ∨ rname = b +:+ String Str.LF "") ∧
       Str.forallb armname_char b = true ∧ 1 ≤ Str.len b ≤ 260.

(** A string or [None]. *)
Definition str_or_none (x : value) : Prop := x = VNone ∨ ∃ s, x = VStr s.

(** *** The child levels *)

(** The number of child levels a parse records. *)
Definition child_count (m : gmap string value) : nat :=
  match m !! "last_child_num" with
  | Some (VInt n) => n
  | _ => 0
  end.

(** What the child pattern captures. *)
Definition child_fields_ok (c : child) : Prop :=
  match c_namespace c with
  | Some ns => ns ≠ "" ∧ Str.forallb not_slash ns = true
  | None => True
  end ∧
  Str.forallb not_slash (c_type c) = true ∧
  c_name c ≠ "" ∧ Str.forallb not_slash (c_name c) = true.

(** *** What the groups capture *)

(** A name between two slashes: not empty, and without a slash. *)
Definition segment_name (s : string) : Prop :=
  s ≠ "" ∧ Str.forallb not_slash s = true.

(** What the root pattern captures. *)
Definition root_fields_ok (v : root_view) : Prop :=
  segment_name (v_subscription v) ∧
  match v_resource_group v with Some g => segment_name g | None => True end ∧
  match v_provider v with
  | Some p =>
      segment_name (p_namespace p) ∧ Str.forallb not_slash (p_type p) = true ∧
      segment_name (p_name p) ∧ Str.forallb dot (p_children p) = true
  | None => True
  end.

(** The texts at the head of which the root pattern matches: the keyword
    [/subscriptions/] in any case, and a character that is not a slash. *)
Definition subscription_prefix (rid : string) : Prop :=
  ∃ kw c rest,
    rid = kw +:+ String c rest ∧ Str.lower kw = "/subscriptions/" ∧ c ≠ "/"%char.

(** *** The recomposed identifier *)

(** Every character of what the child pattern captures is in [q]. *)
Definition child_all (q : ascii → bool) (c : child) : Prop :=
  match c_namespace c with
  | Some ns => Str.forallb q ns = true
  | None => True
  end ∧
  Str.forallb q (c_type c) = true ∧ Str.forallb q (c_name c) = true.

(** No line feed in what the child pattern captures. *)
Definition child_dot (c : child) : Prop := child_all dot c.

(** The parts [resource_id] writes for a root match and its children. *)
Definition view_parts (v : root_view) (cs : list child) : parts :=
  Parts "subscriptions" (v_subscription v)
    (match v_resource_group v with
     | Some g => Some ("resourceGroups", g)
     | None => None
     end)
    (match v_provider v with
     | Some p => Some ("providers", p_namespace p, p_type p, p_name p)
     | None => None
     end)
    (match v_provider v with
     | Some _ => flatten_children cs
     | None => []
     end).

(** ** From the parts to the identifier and back *)

(** The keyword arguments of a root resource. *)
Definition root_kwargs (subscription : string) (resource_group : option string)
    (namespace type name : string) : gmap string value :=
  list_to_map
    [ ("subscription", VStr subscription);
      ("resource_group", opt_value resource_group);
      ("namespace", VStr namespace); ("type", VStr type); ("name", VStr name) ].

Definition root_parts (subscription : string) (resource_group : option string)
    (namespace type name : string) : parts :=
  Parts "subscriptions" subscription
    (match resource_group with
     | Some g => Some ("resourceGroups", g)
     | None => None
     end)
    (Some ("providers", namespace, type, name)) [].

(** ** Classes of characters and texts *)

(** A class that holds every character outside ASCII is asked about the
    continuation bytes as well, and holds them. *)
Class ContClosed (cls : ascii → bool) : Prop :=
  cont_closed : ∀ c, Str.is_cont c = true → cls c = true.

(** The literal texts of the patterns are ASCII. *)
Class AsciiText (text : string) : Prop :=
  ascii_text : Str.is_ascii text = true.

Global Hint Extern 0 (AsciiText _) => reflexivity : typeclass_instances.

(** ** Facts on strings *)

Lemma app_cons c s t : String c s +:+ t = String c (s +:+ t).
Proof. reflexivity. Qed.

Lemma app_nil_l s : "" +:+ s = s.
Proof. reflexivity. Qed.

Lemma app_nil_r s : s +:+ "" = s.
Proof. induction s as [|c s IH]; [done|]. by rewrite app_cons, IH. Qed.

Lemma app_assoc s1 s2 s3 : (s1 +:+ s2) +:+ s3 = s1 +:+ s2 +:+ s3.
Proof. induction s1 as [|c s1 IH]; [done|]. by rewrite !app_cons, IH. Qed.

Lemma length_app s t : String.length (s +:+ t) = String.length s + String.length t.
Proof. induction s as [|c s IH]; [done|]. rewrite app_cons. simpl. by rewrite IH. Qed.

Lemma take_app_length s t : Str.take (String.length s) (s +:+ t) = s.
Proof. induction s as [|c s IH]; [by destruct t|]. rewrite app_cons. simpl. by rewrite IH. Qed.

Lemma take_consumed s t :
  Str.take (String.length (s +:+ t) - String.length t) (s +:+ t) = s.
Proof.
  rewrite length_app.
  replace (String.length s + String.length t - String.length t)
    with (String.length s) by lia.
  apply take_app_length.
Qed.

Lemma lower_app s t : Str.lower (s +:+ t) = Str.lower s +:+ Str.lower t.
Proof. induction s as [|c s IH]; [done|]. rewrite app_cons. simpl. by rewrite IH, app_cons. Qed.

Lemma take_drop_while p s : take_while p s +:+ drop_while p s = s.
Proof.
  induction s as [|c s IH]; [done|]. simpl.
  destruct (p c); [|done]. by rewrite app_cons, IH.
Qed.

Lemma forallb_take_while p s : Str.forallb p (take_while p s) = true.
Proof.
  induction s as [|c s IH]; [done|]. simpl.
  destruct (p c) eqn:E; [|done]. simpl. by rewrite E.
Qed.

(** The text after a run starts outside the class, if it starts at all. *)
Lemma drop_while_head p s c t : drop_while p s = String c t → p c = false.
Proof.
  induction s as [|a s IH]; [done|]. simpl.
  destruct (p a) eqn:E; [done|]. by intros [= <- _].
Qed.

Lemma take_while_app p s c t :
  Str.forallb p s = true → p c = false →
  take_while p (s +:+ String c t) = s.
Proof.
  intros Hs Hc. induction s as [|a s IH]; simpl in *.
  - by rewrite Hc.
  - apply andb_prop in Hs as [Ha Hs]. by rewrite Ha, IH.
Qed.

Lemma drop_while_app p s c t :
  Str.forallb p s = true → p c = false →
  drop_while p (s +:+ String c t) = String c t.
Proof.
  intros Hs Hc. induction s as [|a s IH]; simpl in *.
  - by rewrite Hc.
  - apply andb_prop in Hs as [Ha Hs]. by rewrite Ha, IH.
Qed.

Lemma take_while_all p s : Str.forallb p s = true → take_while p s = s.
Proof.
  induction s as [|a s IH]; [done|]. simpl.
  intros [Ha Hs]%andb_prop. by rewrite Ha, IH.
Qed.

Lemma drop_while_all p s : Str.forallb p s = true → drop_while p s = "".
Proof.
  induction s as [|a s IH]; [done|]. simpl.
  intros [Ha Hs]%andb_prop. by rewrite Ha, IH.
Qed.

Lemma forallb_app p s t :
  Str.forallb p (s +:+ t) = Str.forallb p s && Str.forallb p t.
Proof.
  induction s as [|a s IH]; [done|]. rewrite app_cons. simpl.
  by rewrite IH, andb_assoc.
Qed.

(** ** Facts on the matcher *)

Global Instance not_slash_cont_closed : ContClosed not_slash.
Proof. intros c. by destruct c as [[] [] [] [] [] [] [] []]. Qed.

Global Instance dot_cont_closed : ContClosed dot.
Proof. intros c. by destruct c as [[] [] [] [] [] [] [] []]. Qed.

Global Instance armname_char_cont_closed : ContClosed armname_char.
Proof. intros c. by destruct c as [[] [] [] [] [] [] [] []]. Qed.

Section rep_match.
Context {R : Type}.
Implicit Types (k : string → option R) (cls : ascii → bool).

(** The run is too short for the lower bound. *)
Lemma rep_match_short cls lo s k :
  take_while cls s = "" → Re.rep_match cls false (S lo) None s k = None.
Proof.
  destruct s as [|c s]; [done|]. cbn [take_while Re.rep_match andb].
  by destruct (cls c).
Qed.

(** The longest run is tried first. *)
Lemma rep_match_greedy cls `{!ContClosed cls} s k r : ∀ mid lo,
  lo = 0 ∨ (lo = 1 ∧ mid = false ∧ take_while cls s ≠ "") →
  k (drop_while cls s) = Some r →
  Re.rep_match cls mid lo None s k = Some r.
Proof.
  induction s as [|c s IH]; intros mid lo Hlo Hk.
  - cbn [Re.rep_match]. destruct Hlo as [->|(_ & _ & ?)]; done.
  - cbn [Re.rep_match]. cbn [drop_while] in Hk.
    destruct (mid && Str.is_cont c) eqn:Hmid.
    + apply andb_prop in Hmid as [-> Hc]. rewrite cont_closed in Hk by done.
      apply IH; [|done]. destruct Hlo as [->|(_ & ? & _)]; [by left|done].
    + cbn [take_while] in Hlo.
      destruct (cls c) eqn:Hc;
        cbn [andb Re.hi_allows fmap option_fmap option_map].
      * rewrite (IH true (pred lo)); [done| |done].
        left. destruct Hlo as [->|(-> & _)]; done.
      * destruct Hlo as [->|(_ & _ & ?)]; done.
Qed.

(** When what follows cannot start inside the class, only the longest run
    is left. *)
Lemma rep_match_longest cls `{!ContClosed cls} s k :
  (∀ c t, cls c = true → k (String c t) = None) →
  ∀ mid lo, lo = 0 ∨ (lo = 1 ∧ mid = false) →
  Re.rep_match cls mid lo None s k =
    if decide (lo ≤ String.length (take_while cls s))
    then k (drop_while cls s) else None.
Proof.
  intros Hk. induction s as [|c s IH]; intros mid lo Hlo.
  - cbn [Re.rep_match take_while drop_while String.length].
    destruct lo; destruct (decide _); done || lia.
  - cbn [Re.rep_match take_while drop_while].
    destruct (mid && Str.is_cont c) eqn:Hmid.
    + apply andb_prop in Hmid as [-> Hc].
      destruct Hlo as [->|(_ & ?)]; [|done].
      rewrite cont_closed by done. rewrite IH by (by left).
      by rewrite !decide_True by lia.
    + destruct (cls c) eqn:Hc;
        cbn [andb Re.hi_allows fmap option_fmap option_map String.length].
      * rewrite IH by (left; destruct Hlo as [->|(-> & _)]; done).
        rewrite decide_True by (destruct Hlo as [->|(-> & _)]; cbn; lia).
        rewrite decide_True by (destruct Hlo as [->|(-> & _)]; lia).
        destruct (k (drop_while cls s)); [done|].
        destruct lo; [by rewrite Hk|done].
      * destruct lo; destruct (decide _); done || lia.
Qed.

(** A bounded repetition matches when the rest of the pattern matches
    after some admissible number of characters of the class. What follows
    cannot start with a continuation byte. *)
Lemma rep_match_bounded cls `{!ContClosed cls} k :
  (∀ c t, Str.is_cont c = true → k (String c t) = None) →
  ∀ s mid lo hi,
    is_Some (Re.rep_match cls mid lo (Some hi) s k) ↔
    ∃ b rest,
      s = b +:+ rest ∧ Str.forallb cls b = true ∧
      lo ≤ (if mid then Str.starts b else Str.len b) ≤ hi ∧ is_Some (k rest).
Proof.
  intros Hk.
  assert (∀ b, b ≠ "" → Str.starts b ≤ Str.len b) as Hlen.
  { intros [|c b] _; [done|]. cbn. destruct (Str.is_cont c); lia. }
  induction s as [|c s IH]; intros mid lo hi.
  - cbn [Re.rep_match]. split.
    + intros H. exists "", "". destruct lo; [|by destruct H].
      split_and!; try done; destruct mid; cbn; lia.
    + intros ([|? ?] & rest & Hs & _ & [Hlo _] & Hrest); [|done].
      destruct rest; [|done]. destruct mid; cbn in Hlo; by replace lo with 0 by lia.
  - cbn [Re.rep_match]. destruct (mid && Str.is_cont c) eqn:Hmid.
    + apply andb_prop in Hmid as [-> Hc]. rewrite IH. split.
      * intros (b & rest & -> & Hb & Hn & Hrest). exists (String c b), rest.
        cbn [Str.forallb Str.starts]. rewrite Hc, cont_closed, Hb by done.
        split_and!; try done; cbn; lia.
      * intros ([|c' b] & rest & Hs & Hb & Hn & Hrest).
        { rewrite app_nil_l in Hs. subst rest. rewrite Hk in Hrest by done.
          by destruct Hrest. }
        rewrite app_cons in Hs. injection Hs as <- ->.
        cbn [Str.forallb Str.starts] in Hb, Hn. rewrite Hc in Hn.
        apply andb_prop in Hb as [_ Hb]. exists b, rest.
        split_and!; try done; cbn in Hn; lia.
    + assert ((if mid then Str.starts (String c "") else 1) = 1) as Hone.
      { destruct mid; [|done]. cbn in *. by rewrite Hmid. }
      assert (∀ b, (if mid then Str.starts (String c b) else Str.len (String c b))
                   = S (Str.starts b)) as Hcount.
      { intros b. destruct mid; [|done]. cbn in *. by rewrite Hmid. }
      set (stop := match lo with 0 => k (String c s) | S _ => None end).
      assert (is_Some stop ↔ lo = 0 ∧ is_Some (k (String c s))) as Hstop.
      { subst stop. destruct lo; [by intuition|].
        split; [by intros [? ?]|by intros [? _]]. }
      assert ((∃ b rest, String c s = b +:+ rest ∧ Str.forallb cls b = true ∧
                 lo ≤ (if mid then Str.starts b else Str.len b) ≤ hi ∧
                 is_Some (k rest)) ↔
              (lo = 0 ∧ is_Some (k (String c s))) ∨
              (cls c = true ∧ 1 ≤ hi ∧
               ∃ b rest, s = b +:+ rest ∧ Str.forallb cls b = true ∧
                 pred lo ≤ Str.starts b ≤ pred hi ∧ is_Some (k rest))) as Hsplit.
      { split.
        - intros ([|c' b] & rest & Hs & Hb & Hn & Hrest).
          + left. rewrite app_nil_l in Hs. subst rest.
            split; [|done]. destruct mid; cbn in Hn; lia.
          + right. rewrite app_cons in Hs. injection Hs as <- ->.
            rewrite Hcount in Hn. cbn [Str.forallb] in Hb.
            apply andb_prop in Hb as [Hc Hb]. split; [done|]. split; [lia|].
            exists b, rest. split_and!; try done; lia.
        - intros [[-> Hrest]|(Hc & Hhi & b & rest & -> & Hb & Hn & Hrest)].
          + exists "", (String c s). split_and!; try done; destruct mid; cbn; lia.
          + exists (String c b), rest. rewrite Hcount. cbn [Str.forallb].
            rewrite Hc, Hb. split_and!; try done; lia. }
      rewrite Hsplit. clear Hsplit.
      destruct (cls c) eqn:Hc; cbn [andb].
      * destruct hi as [|hi]; cbn [Re.hi_allows fmap option_fmap option_map pred].
        -- rewrite Hstop. split; [by left|]. intros [?|(_ & ? & _)]; [done|lia].
        -- specialize (IH true (pred lo) hi). cbn [pred].
           destruct (Re.rep_match cls true (pred lo) (Some hi) s k) as [r|].
           ++ split; [intros _|by eauto]. right. split; [done|]. split; [lia|].
              apply IH. by eauto.
           ++ rewrite Hstop. split; [by left|].
              intros [?|(_ & _ & H)]; [done|]. apply IH in H. by destruct H.
      * rewrite Hstop. split; [by left|]. by intros [?|(? & _)].
Qed.
End rep_match.

Lemma take_run p s :
  Str.take (String.length s - String.length (drop_while p s)) s = take_while p s.
Proof.
  rewrite <-(take_drop_while p s) at 1 3. apply take_consumed.
Qed.

Lemma lower_ascii_slash c : Str.lower_ascii c = "/"%char → c = "/"%char.
Proof.
  destruct c as [[] [] [] [] [] [] [] []]; vm_compute; congruence.
Qed.

(** *** Literal text *)

Lemma strip_prefix_spec p : ∀ s t, Str.strip_prefix p s = Some t ↔ s = p +:+ t.
Proof.
  induction p as [|a p IH]; intros s t; cbn [Str.strip_prefix].
  - rewrite app_nil_l. split; [by intros [= ->]|by intros ->].
  - destruct s as [|c s]; [by rewrite app_cons|].
    rewrite app_cons. destruct (Ascii.eqb_spec a c) as [->|Hac].
    + rewrite IH. split; [by intros ->|by intros [= ->]].
    + split; [done|]. by intros [= ? _].
Qed.

Lemma lower_ascii_byte c :
  Str.is_ascii_byte (Str.lower_ascii c) = Str.is_ascii_byte c.
Proof. by destruct c as [[] [] [] [] [] [] [] []]. Qed.

(** An ASCII byte at the head of the text is a character, and is folded
    as such. *)
Lemma fold_head_ascii c s :
  Str.is_ascii_byte c = true → Re.fold_head (String c s) = Some (Str.lower_ascii c, s).
Proof. by destruct c as [[] [] [] [] [] [] [] []]. Qed.

(** The four letters are recognised whatever follows them, and fold to an
    ASCII letter that is not a slash. *)
Lemma fold_letter_spec s c s' :
  Re.fold_letter Re.folded_letters s = Some (c, s') →
  ∃ v, s = v +:+ s' ∧ Str.is_ascii_byte c = true ∧ c ≠ "/"%char ∧
       (∃ c0 v0, v = String c0 v0 ∧ Str.is_ascii_byte c0 = false) ∧
       ∀ t, Re.fold_head (v +:+ t) = Some (c, t).
Proof.
  cbn [Re.fold_letter Re.folded_letters].
  repeat match goal with
         | |- context [Str.strip_prefix ?v s] =>
             let E := fresh "E" in
             destruct (Str.strip_prefix v s) eqn:E;
               [apply strip_prefix_spec in E; intros [= <- <-];
                exists v; split_and!; [done|done|done|by eexists _, _|done]|clear E]
         end.
  done.
Qed.

Lemma fold_head_split s c s' :
  Re.fold_head s = Some (c, s') →
  ∃ v, s = v +:+ s' ∧ v ≠ "" ∧
       (Str.is_ascii_byte c = true → ∀ t, Re.fold_head (v +:+ t) = Some (c, t)).
Proof.
  unfold Re.fold_head at 1.
  destruct (Re.fold_letter Re.folded_letters s) as [[c1 s1]|] eqn:E.
  - intros [= <- <-]. apply fold_letter_spec in E as (v & -> & _ & _ & Hv & Hfix).
    exists v. split_and!; [done| |done]. by destruct Hv as (? & ? & -> & _).
  - destruct s as [|c0 s0]; [done|]. intros [= <- <-].
    exists (String c0 ""). split_and!; [done..|].
    rewrite lower_ascii_byte. intros Hc t. by apply fold_head_ascii.
Qed.

(** One character of a literal: at an ASCII byte of the text the two are
    compared up to case. *)
Lemma lit_char_ascii a c s :
  Str.is_ascii_byte c = true →
  Re.lit_char true a (String c s) =
    if Ascii.eqb (Str.lower_ascii a) (Str.lower_ascii c) then Some s else None.
Proof. intros Hc. unfold Re.lit_char. by rewrite fold_head_ascii. Qed.

Lemma lit_char_consumed ic a s s' :
  Re.lit_char ic a s = Some s' → ∃ v, s = v +:+ s' ∧ v ≠ "".
Proof.
  unfold Re.lit_char. destruct ic.
  - destruct (Re.fold_head s) as [[c s1]|] eqn:E; [|done].
    destruct (Ascii.eqb _ c); [|done]. intros [= <-].
    apply fold_head_split in E as (v & -> & Hv & _). by exists v.
  - destruct s as [|c s]; [done|]. destruct (Ascii.eqb a c); [|done].
    intros [= <-]. by exists (String c "").
Qed.

Lemma lit_char_split ic a s s' :
  Str.is_ascii_byte a = true → Re.lit_char ic a s = Some s' →
  ∃ v, s = v +:+ s' ∧ ∀ t, Re.lit_char ic a (v +:+ t) = Some t.
Proof.
  intros Ha. unfold Re.lit_char. destruct ic.
  - destruct (Re.fold_head s) as [[c s1]|] eqn:E; [|done].
    destruct (Ascii.eqb_spec (Str.lower_ascii a) c) as [<-|]; [|done].
    intros [= <-]. apply fold_head_split in E as (v & -> & _ & Hfix).
    exists v. split; [done|]. intros t.
    rewrite Hfix by (by rewrite lower_ascii_byte). by rewrite Ascii.eqb_refl.
  - destruct s as [|c s]; [done|]. destruct (Ascii.eqb_spec a c) as [->|]; [|done].
    intros [= <-]. exists (String c ""). split; [done|]. intros t.
    rewrite app_cons, app_nil_l. by rewrite Ascii.eqb_refl.
Qed.

(** A slash of the pattern matches a slash, and nothing else. *)
Lemma lit_char_slash s :
  Re.lit_char true "/" s = match s with String "/" s' => Some s' | _ => None end.
Proof.
  unfold Re.lit_char, Re.fold_head.
  destruct (Re.fold_letter Re.folded_letters s) as [[c s1]|] eqn:E.
  - apply fold_letter_spec in E as (v & -> & _ & Hc & (c0 & v0 & -> & Hc0) & _).
    destruct (Ascii.eqb_spec (Str.lower_ascii "/") c) as [<-|_]; [done|].
    rewrite app_cons. by destruct c0 as [[] [] [] [] [] [] [] []].
  - destruct s as [|c s]; [done|].
    destruct (Ascii.eqb_spec (Str.lower_ascii "/") (Str.lower_ascii c)) as [E'|E'].
    + symmetry in E'. apply lower_ascii_slash in E' as ->. done.
    + destruct (Ascii.ascii_dec c "/") as [->|Hc]; [done|].
      destruct c as [[] [] [] [] [] [] [] []]; done.
Qed.

Lemma lit_match_slash s :
  Re.lit_match true "/" s =
    match s with String "/" s' => Some s' | _ => None end.
Proof.
  cbn [Re.lit_match]. rewrite lit_char_slash.
  destruct s as [|c s]; [done|]. by destruct c as [[] [] [] [] [] [] [] []].
Qed.

Lemma lit_match_slash_reject c t :
  not_slash c = true → Re.lit_match true "/" (String c t) = None.
Proof.
  rewrite lit_match_slash. unfold not_slash.
  destruct (Ascii.eqb_spec c "/") as [->|Hc]; [done|]. intros _.
  destruct c as [[] [] [] [] [] [] [] []]; done.
Qed.

Section rmatch.
Context {R : Type}.
Variables (ic : bool) (subject : string).
Implicit Types (k : string → gmap string string → option R).
Implicit Types (caps : gmap string string) (cls : ascii → bool).

Lemma rmatch_cat_nil s caps k :
  Re.rmatch ic subject (Re.cat []) s caps k = k s caps.
Proof. reflexivity. Qed.

Lemma rmatch_cat_cons r rs s caps k :
  Re.rmatch ic subject (Re.cat (r :: rs)) s caps k =
    Re.rmatch ic subject r s caps
      (fun s' caps' => Re.rmatch ic subject (Re.cat rs) s' caps' k).
Proof. reflexivity. Qed.

Lemma rmatch_lit text s caps k :
  Re.rmatch ic subject (Re.Lit text) s caps k =
    match Re.lit_match ic text s with
    | Some s' => k s' caps
    | None => None
    end.
Proof. reflexivity. Qed.

Lemma rmatch_opt r s caps k :
  Re.rmatch ic subject (Re.Opt r) s caps k =
    match Re.rmatch ic subject r s caps k with
    | Some x => Some x
    | None => k s caps
    end.
Proof. reflexivity. Qed.

(** A named run followed by text that cannot start inside the class. *)
Lemma rmatch_named_plus_longest n cls `{!ContClosed cls} s caps k :
  (∀ c t caps', cls c = true → k (String c t) caps' = None) →
  Re.rmatch ic subject (Re.Named n (Re.plus cls)) s caps k =
    match run1 cls s with
    | Some (r, s') => k s' (<[n := r]> caps)
    | None => None
    end.
Proof.
  intros Hk. cbn [Re.rmatch Re.plus]. rewrite rep_match_longest.
  - unfold run1. rewrite take_run. case_bool_decide as Hrun.
    + rewrite decide_False; [done|]. rewrite Hrun. simpl. lia.
    + rewrite decide_True; [done|].
      destruct (take_while cls s); [done|simpl; lia].
  - done.
  - intros c t Hc. apply Hk, Hc.
  - by right.
Qed.

Lemma rmatch_named_star_longest n cls `{!ContClosed cls} s caps k :
  (∀ c t caps', cls c = true → k (String c t) caps' = None) →
  Re.rmatch ic subject (Re.Named n (Re.star cls)) s caps k =
    k (drop_while cls s) (<[n := take_while cls s]> caps).
Proof.
  intros Hk. cbn [Re.rmatch Re.star]. rewrite rep_match_longest.
  - rewrite take_run. rewrite decide_True; [done|lia].
  - done.
  - intros c t Hc. apply Hk, Hc.
  - by left.
Qed.

(** A named run followed by text that matches whatever comes. *)
Lemma rmatch_named_plus_total n cls `{!ContClosed cls} s caps k :
  (∀ s' caps', is_Some (k s' caps')) →
  Re.rmatch ic subject (Re.Named n (Re.plus cls)) s caps k =
    match run1 cls s with
    | Some (r, s') => k s' (<[n := r]> caps)
    | None => None
    end.
Proof.
  intros Hk. cbn [Re.rmatch Re.plus]. unfold run1. case_bool_decide as Hrun.
  - by apply rep_match_short.
  - destruct (Hk (drop_while cls s) (<[n := take_while cls s]> caps)) as [r Hr].
    rewrite Hr. apply rep_match_greedy; [done|by right|].
    by rewrite take_run.
Qed.

Lemma rmatch_named_star_total n cls `{!ContClosed cls} s caps k :
  (∀ s' caps', is_Some (k s' caps')) →
  Re.rmatch ic subject (Re.Named n (Re.star cls)) s caps k =
    k (drop_while cls s) (<[n := take_while cls s]> caps).
Proof.
  intros Hk. cbn [Re.rmatch Re.star].
  destruct (Hk (drop_while cls s) (<[n := take_while cls s]> caps)) as [r Hr].
  rewrite Hr. apply rep_match_greedy; [done|by left|]. by rewrite take_run.
Qed.
End rmatch.

(** The optional provider group of the root pattern. *)
Lemma rmatch_provider_group {R} subject s caps
    (k : string → gmap string string → option R) :
  (∀ s' caps', is_Some (k s' caps')) →
  Re.rmatch true subject
    (Re.Opt (Re.cat
      [ Re.Lit "/providers/"; Re.Named "namespace" (Re.plus not_slash);
        Re.Lit "/"; Re.Named "type" (Re.star not_slash);
        Re.Lit "/"; Re.Named "name" (Re.plus not_slash);
        Re.Named "children" (Re.star dot) ])) s caps k =
    match provider_view s with
    | Some (p, s') =>
        k s' (<["children" := p_children p]>
               (<["name" := p_name p]>
                 (<["type" := p_type p]> (<["namespace" := p_namespace p]> caps))))
    | None => k s caps
    end.
Proof.
  intros Hk. rewrite rmatch_opt, rmatch_cat_cons, rmatch_lit.
  unfold provider_view.
  destruct (Re.lit_match true "/providers/" s) as [s1|]; [|done].
  cbn [mbind option_bind].
  rewrite rmatch_cat_cons, (rmatch_named_plus_longest _ _ _ not_slash); last first.
  { intros c t caps' Hc. by rewrite rmatch_cat_cons, rmatch_lit, lit_match_slash_reject. }
  destruct (run1 not_slash s1) as [[ns s2]|]; [|done].
  cbn [mbind option_bind].
  rewrite rmatch_cat_cons, rmatch_lit.
  destruct (Re.lit_match true "/" s2) as [s3|]; [|done].
  cbn [mbind option_bind].
  rewrite rmatch_cat_cons, (rmatch_named_star_longest _ _ _ not_slash); last first.
  { intros c t caps' Hc. by rewrite rmatch_cat_cons, rmatch_lit, lit_match_slash_reject. }
  rewrite rmatch_cat_cons, rmatch_lit.
  destruct (Re.lit_match true "/" (drop_while not_slash s3)) as [s4|]; [|done].
  cbn [mbind option_bind].
  rewrite rmatch_cat_cons, (rmatch_named_plus_total _ _ _ not_slash); last first.
  { intros s' caps'. rewrite rmatch_cat_cons, (rmatch_named_star_total _ _ _ dot); [|done].
    rewrite rmatch_cat_nil. apply Hk. }
  destruct (run1 not_slash s4) as [[nm s5]|]; [|done].
  cbn [mbind option_bind].
  rewrite rmatch_cat_cons, (rmatch_named_star_total _ _ _ dot); [|done].
  rewrite rmatch_cat_nil. cbn [p_children p_name p_type p_namespace].
  by destruct (Hk (drop_while dot s5)
    (<["children":=take_while dot s5]>
      (<["name":=nm]> (<["type":=take_while not_slash s3]> (<["namespace":=ns]> caps)))))
    as [x ->].
Qed.

(** The optional resource group of the root pattern. *)
Lemma rmatch_resource_group {R} subject s caps
    (k : string → gmap string string → option R) :
  (∀ s' caps', is_Some (k s' caps')) →
  Re.rmatch true subject
    (Re.Opt (Re.cat
      [ Re.Lit "/resourceGroups/";
        Re.Named "resource_group" (Re.plus not_slash) ])) s caps k =
    match resource_group_view s with
    | Some (g, s') => k s' (<["resource_group" := g]> caps)
    | None => k s caps
    end.
Proof.
  intros Hk. rewrite rmatch_opt, rmatch_cat_cons, rmatch_lit.
  unfold resource_group_view.
  destruct (Re.lit_match true "/resourceGroups/" s) as [s1|]; [|done].
  cbn [mbind option_bind].
  rewrite rmatch_cat_cons, (rmatch_named_plus_total _ _ _ not_slash);
    [|intros; by rewrite rmatch_cat_nil].
  destruct (run1 not_slash s1) as [[g s2]|]; [|done].
  rewrite rmatch_cat_nil. by destruct (Hk s2 (<["resource_group":=g]> caps)) as [x ->].
Qed.

(** [_ARMID_RE.match] reads exactly what [armid_view] reads. *)
Lemma armid_match_view s :
  Re.re_match _ARMID_RE s =
    (fun v => Re.MatchObj (root_groups v) (v_rest v)) <$> armid_view s.
Proof.
  unfold Re.re_match, Re.match_at, _ARMID_RE, armid_view.
  cbn [Re.body Re.ignorecase].
  rewrite rmatch_cat_cons, rmatch_lit.
  destruct (Re.lit_match true "/subscriptions/" s) as [s1|]; [|done].
  cbn [mbind option_bind].
  assert (∀ s' caps', is_Some (Re.rmatch true s
    (Re.cat [Re.Opt (Re.cat
      [ Re.Lit "/providers/"; Re.Named "namespace" (Re.plus not_slash);
        Re.Lit "/"; Re.Named "type" (Re.star not_slash);
        Re.Lit "/"; Re.Named "name" (Re.plus not_slash);
        Re.Named "children" (Re.star dot) ])]) s' caps'
      (fun s' caps => Some (Re.MatchObj caps s')))) as Hprov.
  { intros s' caps'. rewrite rmatch_cat_cons, rmatch_provider_group.
    - destruct (provider_view s') as [[p s'']|]; by rewrite rmatch_cat_nil.
    - intros. by rewrite rmatch_cat_nil. }
  rewrite rmatch_cat_cons, (rmatch_named_plus_total _ _ _ not_slash); last first.
  { intros s' caps'. rewrite rmatch_cat_cons, rmatch_resource_group; [|done].
    destruct (resource_group_view s') as [[g s'']|]; apply Hprov. }
  destruct (run1 not_slash s1) as [[sub s2]|]; [|done].
  cbn [mbind option_bind].
  rewrite rmatch_cat_cons, rmatch_resource_group; [|done].
  unfold root_groups.
  destruct (resource_group_view s2) as [[g s3]|].
  - rewrite rmatch_cat_cons, rmatch_provider_group; [|intros; by rewrite rmatch_cat_nil].
    destruct (provider_view s3) as [[p s4]|]; by rewrite rmatch_cat_nil.
  - rewrite rmatch_cat_cons, rmatch_provider_group; [|intros; by rewrite rmatch_cat_nil].
    destruct (provider_view s2) as [[p s4]|]; by rewrite rmatch_cat_nil.
Qed.

(** The mandatory part of the child pattern. *)
Lemma rmatch_child_tail subject s caps :
  Re.rmatch true subject
    (Re.cat [ Re.Lit "/"; Re.Named "child_type" (Re.star not_slash);
              Re.Lit "/"; Re.Named "child_name" (Re.plus not_slash) ]) s caps
    (fun s' caps' => Some (Re.MatchObj caps' s')) =
    (fun r : string * string * string =>
       Re.MatchObj (<["child_name" := r.1.2]> (<["child_type" := r.1.1]> caps)) r.2)
    <$> child_tail_view s.
Proof.
  unfold child_tail_view. rewrite rmatch_cat_cons, rmatch_lit.
  destruct (Re.lit_match true "/" s) as [s1|]; [|done].
  cbn [mbind option_bind].
  rewrite rmatch_cat_cons, (rmatch_named_star_longest _ _ _ not_slash); last first.
  { intros c t caps' Hc. by rewrite rmatch_cat_cons, rmatch_lit, lit_match_slash_reject. }
  rewrite rmatch_cat_cons, rmatch_lit.
  destruct (Re.lit_match true "/" (drop_while not_slash s1)) as [s2|]; [|done].
  cbn [mbind option_bind].
  rewrite rmatch_cat_cons, (rmatch_named_plus_total _ _ _ not_slash);
    [|intros; by rewrite rmatch_cat_nil].
  destruct (run1 not_slash s2) as [[nm s3]|]; [|done].
  by rewrite rmatch_cat_nil.
Qed.

(** [_CHILDREN_RE], tried at one position, reads exactly what [child_view]
    reads. *)
Lemma child_match_view subject s :
  Re.match_at _CHILDREN_RE subject s =
    (fun r : child * string => Re.MatchObj (child_groups r.1) r.2) <$> child_view s.
Proof.
  unfold Re.match_at, _CHILDREN_RE, child_view.
  cbn [Re.body Re.ignorecase].
  rewrite rmatch_cat_cons, rmatch_opt, rmatch_cat_cons, rmatch_lit.
  destruct (Re.lit_match true "/providers/" s) as [s1|].
  - cbn [mbind option_bind].
    rewrite rmatch_cat_cons, (rmatch_named_plus_longest _ _ _ not_slash); last first.
    { intros c t caps' Hc.
      by rewrite rmatch_cat_nil, rmatch_cat_cons, rmatch_lit, lit_match_slash_reject. }
    destruct (run1 not_slash s1) as [[ns s2]|].
    + cbn [mbind option_bind]. rewrite rmatch_cat_nil, !rmatch_child_tail.
      destruct (child_tail_view s2) as [[[ty nm] s3]|]; [done|].
      cbn [fmap option_fmap option_map mbind option_bind].
      by destruct (child_tail_view s) as [[[ty nm] s3]|].
    + cbn [mbind option_bind]. rewrite rmatch_child_tail.
      by destruct (child_tail_view s) as [[[ty nm] s3]|].
  - cbn [mbind option_bind]. rewrite rmatch_child_tail.
    by destruct (child_tail_view s) as [[[ty nm] s3]|].
Qed.

(** Keys of the dictionary differ when their texts or their indices do. *)
Ltac key_neq :=
  solve [ done | intros ?; simplify_eq; done || lia ].

Lemma groupdict_root v r :
  Re.groupdict _ARMID_RE (Re.MatchObj (root_groups v) r) = root_items v.
Proof.
  destruct v as [sub [g|] [[ns ty nm ch]|] s]; reflexivity.
Qed.

Lemma groupdict_child c r :
  Re.groupdict _CHILDREN_RE (Re.MatchObj (child_groups c) r) = child_dict_items c.
Proof.
  destruct c as [[ns|] ty nm]; reflexivity.
Qed.

Lemma finditer_go_view subject s skip :
  Re.finditer_go _CHILDREN_RE subject s skip = child_obj <$> scan_children s skip.
Proof.
  revert skip. induction s as [|c s IH]; intros [|n];
    cbn [Re.finditer_go scan_children]; rewrite ?child_match_view; try done;
    destruct (child_view _) as [r|];
    cbn [fmap option_fmap option_map list_fmap]; by rewrite ?IH.
Qed.

Lemma finditer_view s :
  Re.finditer _CHILDREN_RE s = child_obj <$> scan_children s 0.
Proof. apply finditer_go_view. Qed.

Lemma drop_none_singleton k s :
  drop_none {[k := VStr s]} = {[k := VStr s]}.
Proof. unfold drop_none. by rewrite map_filter_singleton_True. Qed.

Lemma getitem_root_children v :
  getitem (list_to_map (root_items v)) "children" =
    Ok (opt_value (p_children <$> v_provider v)).
Proof. reflexivity. Qed.

Lemma children_text_as_str o :
  as_str (py_or (opt_value o) (VStr "")) = Ok (default "" o).
Proof.
  destruct o as [s|]; [|done]. unfold py_or. simpl.
  case_bool_decide; by subst.
Qed.

Lemma parse_resource_id_unfold rid :
  parse_resource_id rid =
    if bool_decide (rid = "") then Ok ∅
    else match armid_view rid with
         | Some v => m ← parsed v; Ok (drop_none m)
         | None => Ok {["name" := VStr rid]}
         end.
Proof.
  unfold parse_resource_id. case_bool_decide; [done|].
  rewrite armid_match_view. destruct (armid_view rid) as [v|];
    cbn [fmap option_fmap option_map].
  - rewrite groupdict_root, getitem_root_children.
    cbn [mbind result_bind]. rewrite children_text_as_str.
    cbn [mbind result_bind]. rewrite finditer_view.
    unfold parsed, children_text.
    by destruct (for_children _ _ _) as [result count].
  - cbn [mbind result_bind]. by rewrite drop_none_singleton.
Qed.

(** The three entries one child match adds. *)
Lemma dict_update_child d index r :
  dict_update d (child_items index (child_obj r)) =
    <["child_name_" +:+ pretty (S index) := VStr (c_name r.1)]>
      (<["child_type_" +:+ pretty (S index) := VStr (c_type r.1)]>
        (<["child_namespace_" +:+ pretty (S index) := opt_value (c_namespace r.1)]> d)).
Proof.
  unfold child_items, child_obj. rewrite groupdict_child.
  replace (index + 1) with (S index) by lia. reflexivity.
Qed.

Lemma for_children_lookup_other rs index st k :
  (∀ j, index < j ≤ index + length rs → ¬ is_child_key k j) →
  (for_children (child_obj <$> rs) index st).1 !! k = st.1 !! k.
Proof.
  revert index st. induction rs as [|r rs IH]; intros index st Hk; [done|].
  cbn [fmap list_fmap for_children]. rewrite IH.
  - cbn [fst]. rewrite dict_update_child.
    assert (¬ is_child_key k (S index)) as Hk'.
    { apply Hk. simpl. lia. }
    unfold is_child_key in Hk'.
    rewrite !lookup_insert_ne by (intros <-; apply Hk'; auto). done.
  - intros j Hj. apply Hk. simpl. lia.
Qed.

Lemma is_child_key_inj k i j : is_child_key k i → is_child_key k j → i = j.
Proof.
  unfold is_child_key. intros [-> | [-> | ->]] [H | [H | H]]; by simplify_eq.
Qed.

Lemma for_children_lookup rs index st i r :
  rs !! i = Some r →
  let d := (for_children (child_obj <$> rs) index st).1 in
  d !! ("child_namespace_" +:+ pretty (S (index + i))) = Some (opt_value (c_namespace r.1)) ∧
  d !! ("child_type_" +:+ pretty (S (index + i))) = Some (VStr (c_type r.1)) ∧
  d !! ("child_name_" +:+ pretty (S (index + i))) = Some (VStr (c_name r.1)).
Proof.
  revert index st i. induction rs as [|r' rs IH]; intros index st i Hi; [done|].
  cbn [fmap list_fmap for_children]. destruct i as [|i].
  - injection Hi as ->. rewrite Nat.add_0_r.
    rewrite !for_children_lookup_other.
    + cbn [fst]. rewrite dict_update_child.
      rewrite lookup_insert_ne, lookup_insert_ne, lookup_insert_eq by key_neq.
      rewrite lookup_insert_ne, lookup_insert_eq by key_neq.
      by rewrite lookup_insert_eq.
    + intros j Hj Hc. assert (j = S index); [|lia].
      eapply is_child_key_inj; [done|]. unfold is_child_key. auto.
    + intros j Hj Hc. assert (j = S index); [|lia].
      eapply is_child_key_inj; [done|]. unfold is_child_key. auto.
    + intros j Hj Hc. assert (j = S index); [|lia].
      eapply is_child_key_inj; [done|]. unfold is_child_key. auto.
  - replace (S (index + S i)) with (S (S index + i)) by lia. by apply IH.
Qed.

Lemma for_children_count rs index st :
  (for_children (child_obj <$> rs) index st).2 =
    match rs with
    | [] => st.2
    | _ :: _ => Some (index + length rs - 1)
    end.
Proof.
  revert index st. induction rs as [|r rs IH]; intros index st; [done|].
  cbn [fmap list_fmap for_children]. rewrite IH.
  destruct rs; simpl; f_equal; lia.
Qed.

Lemma concat_app l1 l2 : Str.concat (l1 ++ l2) = Str.concat l1 +:+ Str.concat l2.
Proof.
  induction l1 as [|x l1 IH]; [done|]. simpl. by rewrite IH, app_assoc.
Qed.

Lemma concat_snoc l x : Str.concat (l ++ [x]) = Str.concat l +:+ x.
Proof. rewrite concat_app. simpl. by rewrite app_nil_r. Qed.

Lemma levels_snoc kwargs a len :
  levels kwargs a (S len) =
    levels kwargs a len +:+ provider_segment kwargs (a + len) +:+
    child_segment kwargs (a + len).
Proof.
  revert a. induction len as [|len IH]; intros a.
  - cbn [levels]. by rewrite Nat.add_0_r, app_nil_l, !app_nil_r.
  - change (levels kwargs a (S (S len))) with
      (provider_segment kwargs a +:+ child_segment kwargs a +:+
       levels kwargs (S a) (S len)).
    rewrite IH. replace (a + S len) with (S a + len) by lia.
    cbn [levels]. by rewrite !app_assoc.
Qed.

(** The provider step of a level, on the list the source accumulates. *)
Lemma provider_step kwargs i parent_builder :
  Str.concat
    (if bool_decide (dict_get kwargs ("child_namespace_" +:+ pretty i) ≠ VNone)
     then parent_builder ++
          ["providers/" +:+
           py_str (dict_get kwargs ("child_namespace_" +:+ pretty i)) +:+ "/"]
     else parent_builder) =
  Str.concat parent_builder +:+ provider_segment kwargs i.
Proof.
  unfold provider_segment.
  destruct (dict_get kwargs _) eqn:E; simpl;
    by rewrite ?concat_snoc, ?app_nil_r.
Qed.

Lemma dict_get_insert_ne (d : gmap string value) k k' v :
  k ≠ k' → dict_get (<[k := v]> d) k' = dict_get d k'.
Proof. intros. unfold dict_get. by rewrite lookup_insert_ne. Qed.

Lemma levels_ext kwargs kwargs' a len :
  (∀ i, a ≤ i < a + len →
     dict_get kwargs' ("child_namespace_" +:+ pretty i) =
       dict_get kwargs ("child_namespace_" +:+ pretty i) ∧
     dict_get kwargs' ("child_type_" +:+ pretty i) =
       dict_get kwargs ("child_type_" +:+ pretty i) ∧
     dict_get kwargs' ("child_name_" +:+ pretty i) =
       dict_get kwargs ("child_name_" +:+ pretty i)) →
  levels kwargs' a len = levels kwargs a len.
Proof.
  revert a. induction len as [|len IH]; intros a H; [done|]. simpl.
  rewrite IH by (intros; apply H; lia).
  destruct (H a ltac:(lia)) as (E1 & E2 & E3).
  unfold provider_segment, child_segment. by rewrite E1, E2, E3.
Qed.

Lemma parents_loop_spec len : ∀ a kwargs parent_builder,
  (∀ i, a ≤ i < a + len →
     is_Some (kwargs !! ("child_type_" +:+ pretty i)) ∧
     is_Some (kwargs !! ("child_name_" +:+ pretty i))) →
  ∃ kwargs' parent_builder',
    parents_loop (seq a len) kwargs parent_builder = Ok (kwargs', parent_builder') ∧
    Str.concat parent_builder' = Str.concat parent_builder +:+ levels kwargs a len ∧
    (∀ k, (∀ i, a ≤ i < a + len → k ≠ "child_parent_" +:+ pretty i) →
       kwargs' !! k = kwargs !! k) ∧
    (∀ i, a ≤ i < a + len →
       kwargs' !! ("child_parent_" +:+ pretty i) =
         Some (VStr (Str.concat parent_builder +:+ levels kwargs a (i - a) +:+
                     provider_segment kwargs i))).
Proof.
  induction len as [|len IH]; intros a kwargs pb Hkeys.
  { exists kwargs, pb. simpl. rewrite app_nil_r.
    split_and!; [done..|]. intros; lia. }
  cbn [seq parents_loop].
  set (pb1 := if bool_decide _ then _ else pb).
  set (kwargs1 := <[ _ := VStr (Str.concat pb1)]> kwargs).
  assert (Str.concat pb1 = Str.concat pb +:+ provider_segment kwargs a) as Hpb1
    by apply provider_step.
  destruct (Hkeys a ltac:(lia)) as [[ty Hty] [nm Hnm]].
  unfold fmt, getitem. subst kwargs1.
  rewrite !lookup_insert_ne by key_neq. rewrite Hty, Hnm.
  cbn [mbind result_bind].
  set (kwargs1 := <[ _ := VStr (Str.concat pb1)]> kwargs).
  destruct (IH (S a) kwargs1 (pb1 ++ [py_str ty +:+ "/" +:+ py_str nm +:+ "/"]))
    as (kwargs' & pb' & Hloop & Hpb' & Hother & Hparent).
  { intros i Hi. subst kwargs1. rewrite !lookup_insert_ne by key_neq.
    apply Hkeys. lia. }
  assert (∀ b n, levels kwargs1 b n = levels kwargs b n) as Hlev.
  { intros b n. apply levels_ext. intros i _. subst kwargs1.
    by rewrite !dict_get_insert_ne by key_neq. }
  assert (∀ i, provider_segment kwargs1 i = provider_segment kwargs i) as Hprov.
  { intros i. unfold provider_segment. subst kwargs1.
    by rewrite dict_get_insert_ne by key_neq. }
  assert (py_str ty +:+ "/" +:+ py_str nm +:+ "/" = child_segment kwargs a) as Hseg.
  { unfold child_segment, dict_get. by rewrite Hty, Hnm. }
  exists kwargs', pb'. split_and!.
  - done.
  - rewrite Hpb', concat_snoc, Hpb1, Hlev, Hseg. simpl. by rewrite !app_assoc.
  - intros k Hk. rewrite Hother by (intros; apply Hk; lia).
    subst kwargs1. rewrite lookup_insert_ne; [done|]. apply not_eq_sym, Hk. lia.
  - intros i Hi. destruct (decide (i = a)) as [->|Hne].
    + rewrite Hother by (intros; key_neq). subst kwargs1.
      rewrite lookup_insert_eq, Hpb1, Nat.sub_diag. simpl. done.
    + rewrite Hparent by lia. rewrite concat_snoc, Hpb1, Hlev, Hprov, Hseg.
      replace (i - a) with (S (i - S a)) by lia. simpl. by rewrite !app_assoc.
Qed.

Lemma get_parents_spec kwargs n :
  populate_ready kwargs n →
  ∃ kwargs',
    _get_parents_from_parts kwargs = Ok kwargs' ∧
    (∀ k, ¬ parent_key k n → kwargs' !! k = kwargs !! k) ∧
    (∀ i, 1 ≤ i ≤ n →
       kwargs' !! ("child_parent_" +:+ pretty i) =
         Some (VStr (recorded_parent kwargs i))) ∧
    kwargs' !! "resource_parent" =
      Some (if truthy (dict_get kwargs "name")
            then VStr (match n with 0 => "" | S _ => recorded_parent kwargs n end)
            else VNone).
Proof.
  intros ([ns Hns] & [ty Hty] & [nm Hnm] & Hlcn & Hkeys).
  unfold _get_parents_from_parts, getitem. rewrite Hlcn.
  cbn [mbind result_bind]. destruct n as [|n].
  - cbn [mbind result_bind]. rewrite Hnm. cbn [mbind result_bind].
    eexists. split_and!; [done|..].
    + intros k Hk. rewrite lookup_insert_ne; [done|].
      intros <-. apply Hk. by left.
    + intros; lia.
    + rewrite lookup_insert_eq. unfold dict_get. by rewrite Hnm.
  - unfold fmt, getitem. rewrite Hty, Hnm. cbn [mbind result_bind].
    replace (S n - 1) with n by lia.
    destruct (parents_loop_spec n 1 kwargs [py_str ty +:+ "/" +:+ py_str nm +:+ "/"])
      as (kwargs1 & pb1 & -> & Hpb1 & Hother & Hparent).
    { intros i Hi. apply Hkeys. lia. }
    assert (Str.concat [py_str ty +:+ "/" +:+ py_str nm +:+ "/"] = root_segment kwargs)
      as Hroot.
    { unfold root_segment, dict_get. rewrite Hty, Hnm. simpl.
      by rewrite !app_assoc, app_nil_r. }
    rewrite Hroot in Hpb1, Hparent.
    cbn [mbind result_bind].
    set (pb2 := if bool_decide _ then _ else pb1).
    assert (Str.concat pb2 = recorded_parent kwargs (S n)) as Hpb2.
    { subst pb2. rewrite provider_step, Hpb1. unfold recorded_parent, accumulated.
      cbn [pred]. f_equal.
      unfold provider_segment, dict_get. by rewrite Hother by (intros; key_neq). }
    rewrite lookup_insert_ne by key_neq.
    rewrite Hother by (intros; key_neq). rewrite Hnm.
    cbn [mbind result_bind]. eexists. split_and!; [done|..].
    + intros k Hk. rewrite !lookup_insert_ne.
      * apply Hother. intros i Hi ->. apply Hk. right. exists i. split; [lia|done].
      * intros <-. apply Hk. right. exists (S n). split; [lia|done].
      * intros <-. apply Hk. by left.
    + intros i Hi. rewrite lookup_insert_ne by key_neq.
      destruct (decide (i = S n)) as [->|Hne].
      * by rewrite lookup_insert_eq, Hpb2.
      * rewrite lookup_insert_ne by key_neq. rewrite Hparent by lia.
        unfold recorded_parent, accumulated. rewrite app_assoc.
        by replace (i - 1) with (pred i) by lia.
    + rewrite lookup_insert_eq. unfold dict_get at 1. rewrite Hnm. cbn [default].
      by rewrite Hpb2.
Qed.

Lemma populate_spec kwargs n :
  populate_ready kwargs n →
  ∃ kwargs',
    _populate_alternate_kwargs kwargs = Ok kwargs' ∧
    (∀ k, ¬ parent_key k n → k ≠ "resource_namespace" → k ≠ "resource_type" →
          k ≠ "resource_name" → kwargs' !! k = kwargs !! k) ∧
    (∀ i, 1 ≤ i ≤ n →
       kwargs' !! ("child_parent_" +:+ pretty i) =
         Some (VStr (recorded_parent kwargs i))) ∧
    kwargs' !! "resource_parent" =
      Some (if truthy (dict_get kwargs "name")
            then VStr (match n with 0 => "" | S _ => recorded_parent kwargs n end)
            else VNone) ∧
    kwargs' !! "resource_namespace" = kwargs !! "namespace" ∧
    kwargs' !! "resource_type" =
      Some (py_or (dict_get kwargs ("child_type_" +:+ py_str (last_child_value n)))
                  (dict_get kwargs "type")) ∧
    kwargs' !! "resource_name" =
      Some (py_or (dict_get kwargs ("child_name_" +:+ py_str (last_child_value n)))
                  (dict_get kwargs "name")).
Proof.
  intros Hready.
  destruct (get_parents_spec kwargs n Hready) as (kw1 & Hget & Hother & Hcp & Hrp).
  destruct Hready as ([ns Hns] & [ty Hty] & [nm Hnm] & Hlcn & Hkeys).
  unfold _populate_alternate_kwargs, getitem. rewrite Hns, Hlcn, Hty, Hnm.
  cbn [mbind result_bind]. fold (last_child_value n).
  set (rt := dict_get kwargs ("child_type_" +:+ _)).
  set (rn := dict_get kwargs ("child_name_" +:+ _)).
  assert ((if truthy rt then Ok rt else Ok ty) = Ok (py_or rt (dict_get kwargs "type")))
    as ->.
  { unfold py_or, dict_get. rewrite Hty. by destruct (truthy rt). }
  cbn [mbind result_bind].
  assert ((if truthy rn then Ok rn else Ok nm) = Ok (py_or rn (dict_get kwargs "name")))
    as ->.
  { unfold py_or, dict_get. rewrite Hnm. by destruct (truthy rn). }
  cbn [mbind result_bind]. rewrite Hget. cbn [mbind result_bind].
  eexists. split_and!; [done|..].
  - intros k Hk H1 H2 H3. rewrite !lookup_insert_ne by done. by apply Hother.
  - intros i Hi. rewrite !lookup_insert_ne by key_neq. by apply Hcp.
  - by rewrite !lookup_insert_ne by key_neq.
  - rewrite !lookup_insert_ne by key_neq. by rewrite lookup_insert_eq.
  - rewrite lookup_insert_ne by key_neq. by rewrite lookup_insert_eq.
  - by rewrite lookup_insert_eq.
Qed.

Lemma parsed_collected v : parsed v = _populate_alternate_kwargs (collected v).
Proof. reflexivity. Qed.

Lemma not_child_key_literal k :
  k ∈ ["subscription"; "resource_group"; "namespace"; "type"; "name";
       "children"; "last_child_num"; "resource_parent"; "resource_namespace";
       "resource_type"; "resource_name"] →
  ∀ j, ¬ is_child_key k j.
Proof.
  intros Hk j [H | [H | H]]; subst k;
    repeat (apply elem_of_cons in Hk as [Hk|Hk]; [discriminate Hk|]);
    by apply elem_of_nil in Hk.
Qed.

Lemma collected_last_child_num v :
  collected v !! "last_child_num" = Some (last_child_value (length (found_children v))).
Proof.
  unfold collected. rewrite lookup_insert_eq, for_children_count.
  destruct (found_children v) as [|r rs]; [done|]. simpl.
  do 2 f_equal. lia.
Qed.

Lemma collected_other v k :
  (∀ j, ¬ is_child_key k j) → k ≠ "last_child_num" →
  collected v !! k = (list_to_map (root_items v) : gmap string value) !! k.
Proof.
  intros Hk Hne. unfold collected. rewrite lookup_insert_ne by done.
  rewrite for_children_lookup_other; [done|]. intros j _. apply Hk.
Qed.

Lemma collected_child v i r :
  found_children v !! i = Some r →
  collected v !! ("child_namespace_" +:+ pretty (S i)) = Some (opt_value (c_namespace r.1)) ∧
  collected v !! ("child_type_" +:+ pretty (S i)) = Some (VStr (c_type r.1)) ∧
  collected v !! ("child_name_" +:+ pretty (S i)) = Some (VStr (c_name r.1)).
Proof.
  intros Hi. unfold collected. rewrite !lookup_insert_ne by done.
  by apply (for_children_lookup _ 0 _ i r).
Qed.

Lemma root_items_child_key v k j :
  is_child_key k j → (list_to_map (root_items v) : gmap string value) !! k = None.
Proof.
  intros Hk. unfold root_items. cbn [list_to_map foldr uncurry fst snd].
  destruct Hk as [-> | [-> | ->]]; by rewrite !lookup_insert_ne by done.
Qed.

Lemma collected_child_absent v k j :
  is_child_key k j → ¬ (1 ≤ j ≤ length (found_children v)) →
  collected v !! k = None.
Proof.
  intros Hk Hj. unfold collected.
  rewrite lookup_insert_ne by (destruct Hk as [-> | [-> | ->]]; done).
  rewrite for_children_lookup_other.
  - by eapply root_items_child_key.
  - intros j' Hj' Hk'.
    assert (j' = j) by eauto using is_child_key_inj. lia.
Qed.

Lemma collected_ready v : populate_ready (collected v) (length (found_children v)).
Proof.
  unfold populate_ready. split_and!.
  - rewrite collected_other by (done || by apply not_child_key_literal; repeat constructor).
    unfold root_items. cbn. by rewrite !lookup_insert_ne, lookup_insert_eq by done.
  - rewrite collected_other by (done || by apply not_child_key_literal; repeat constructor).
    unfold root_items. cbn. by rewrite !lookup_insert_ne, lookup_insert_eq by done.
  - rewrite collected_other by (done || by apply not_child_key_literal; repeat constructor).
    unfold root_items. cbn. by rewrite !lookup_insert_ne, lookup_insert_eq by done.
  - apply collected_last_child_num.
  - intros i Hi. destruct (lookup_lt_is_Some_2 (found_children v) (pred i)) as [r Hr];
      [lia|].
    destruct (collected_child v (pred i) r Hr) as (_ & H2 & H3).
    replace (S (pred i)) with i in * by lia. rewrite H2, H3. eauto.
Qed.

(** *** Dropping the [None] entries *)

Lemma lookup_drop_none m k v :
  drop_none m !! k = Some v ↔ m !! k = Some v ∧ v ≠ VNone.
Proof. unfold drop_none. by rewrite map_lookup_filter_Some. Qed.

Lemma lookup_drop_none_Some m k v :
  m !! k = Some v → v ≠ VNone → drop_none m !! k = Some v.
Proof. intros. by apply lookup_drop_none. Qed.

Lemma lookup_drop_none_None m k :
  m !! k = None ∨ m !! k = Some VNone → drop_none m !! k = None.
Proof.
  intros H. destruct (drop_none m !! k) as [v|] eqn:E; [|done].
  apply lookup_drop_none in E as [E Hv]. destruct H as [H|H]; congruence.
Qed.

Lemma dict_get_drop_none m k : dict_get (drop_none m) k = dict_get m k.
Proof.
  unfold dict_get. destruct (m !! k) as [v|] eqn:E.
  - destruct (decide (v = VNone)) as [->|Hv].
    + by rewrite lookup_drop_none_None by auto.
    + by rewrite (lookup_drop_none_Some m k v).
  - by rewrite lookup_drop_none_None by auto.
Qed.

Lemma drop_none_idemp m : drop_none (drop_none m) = drop_none m.
Proof.
  apply map_eq. intros k. destruct (drop_none m !! k) as [v|] eqn:E.
  - apply lookup_drop_none. split; [done|]. by apply lookup_drop_none in E as [_ ?].
  - by apply lookup_drop_none_None; left.
Qed.

(** *** Facts on what the root pattern reads *)

Lemma run1_nonempty p s r s' : run1 p s = Some (r, s') → r ≠ "".
Proof. unfold run1. case_bool_decide; by intros [= <- <-]. Qed.

Lemma armid_view_subscription s v : armid_view s = Some v → v_subscription v ≠ "".
Proof.
  unfold armid_view. destruct (Re.lit_match _ _ s) as [s1|]; [|done].
  cbn [mbind option_bind]. destruct (run1 not_slash s1) as [[sub s2]|] eqn:E; [|done].
  cbn [mbind option_bind]. apply run1_nonempty in E.
  destruct (resource_group_view s2) as [[g s3]|];
    destruct (provider_view _) as [[p s4]|]; by intros [= <-].
Qed.

Lemma provider_view_name s p s' : provider_view s = Some (p, s') → p_name p ≠ "".
Proof.
  unfold provider_view. destruct (Re.lit_match _ _ s) as [s1|]; [|done].
  cbn [mbind option_bind]. destruct (run1 not_slash s1) as [[ns s2]|]; [|done].
  cbn [mbind option_bind]. destruct (Re.lit_match _ _ s2) as [s3|]; [|done].
  cbn [mbind option_bind]. destruct (Re.lit_match _ _ _) as [s4|]; [|done].
  cbn [mbind option_bind]. destruct (run1 not_slash s4) as [[nm s5]|] eqn:E; [|done].
  cbn [mbind option_bind]. apply run1_nonempty in E. by intros [= <- <-].
Qed.

Lemma armid_view_name s v p :
  armid_view s = Some v → v_provider v = Some p → p_name p ≠ "".
Proof.
  unfold armid_view. destruct (Re.lit_match _ _ s) as [s1|]; [|done].
  cbn [mbind option_bind]. destruct (run1 not_slash s1) as [[sub s2]|]; [|done].
  cbn [mbind option_bind].
  destruct (resource_group_view s2) as [[g s3]|];
    destruct (provider_view _) as [[p' s4]|] eqn:E; intros [= <-]; cbn;
    intros [= <-]; by eapply provider_view_name.
Qed.

Lemma found_children_no_provider v :
  v_provider v = None → found_children v = [].
Proof. unfold found_children, children_text. by intros ->. Qed.

(** *** [parse_resource_id] always returns *)

Lemma parsed_ok v : ∃ kwargs, parsed v = Ok kwargs.
Proof.
  rewrite parsed_collected.
  destruct (populate_spec _ _ (collected_ready v)) as (kw & H & _). eauto.
Qed.

Lemma parse_resource_id_returns rid : ∃ m, parse_resource_id rid = Ok m.
Proof.
  rewrite parse_resource_id_unfold. case_bool_decide; [by eexists|].
  destruct (armid_view rid) as [v|]; [|by eexists].
  destruct (parsed_ok v) as [kw ->]. by eexists.
Qed.

(** C6. [parse_resource_id] returns a mapping for every string: the empty
    mapping for the empty string, and the one-entry mapping
    [{"name": rid}] for a non-empty string the root pattern does not
    match. *)
Theorem parse_resource_id_total rid :
  ∃ m, parse_resource_id rid = Ok m ∧
       (rid = "" → m = ∅) ∧
       (rid ≠ "" → Re.re_match _ARMID_RE rid = None → m = {["name" := VStr rid]}).
Proof.
  destruct (parse_resource_id_returns rid) as [m Hm]. exists m. split; [done|].
  revert Hm. rewrite parse_resource_id_unfold, armid_match_view.
  case_bool_decide as Hrid; [intros [= <-]; by split|].
  destruct (armid_view rid) as [v|]; [by split|].
  intros [= <-]. by split.
Qed.

Lemma parse_resource_id_total_witness :
  parse_resource_id "" = Ok ∅ ∧
  parse_resource_id "not-an-id" = Ok {["name" := VStr "not-an-id"]}.
Proof.
  split.
  - destruct (parse_resource_id_total "") as (m & -> & H & _). by rewrite H.
  - destruct (parse_resource_id_total "not-an-id") as (m & -> & _ & H).
    rewrite H; [reflexivity|discriminate|reflexivity].
Defined.

Lemma recorded_parent_ext kwargs kwargs' i :
  (∀ k, dict_get kwargs' k = dict_get kwargs k) →
  recorded_parent kwargs' i = recorded_parent kwargs i.
Proof.
  intros H. unfold recorded_parent, accumulated, root_segment, provider_segment.
  rewrite !H. f_equal. f_equal. apply levels_ext. intros. by rewrite !H.
Qed.

(** A successful parse of a string the root pattern matches, laid out: the
    dictionary collected from the matches, what
    [_populate_alternate_kwargs] makes of it, and the result. *)
Lemma parse_matched rid m :
  parse_resource_id rid = Ok m → is_Some (m !! "subscription") →
  ∃ v kwargs,
    armid_view rid = Some v ∧
    _populate_alternate_kwargs (collected v) = Ok kwargs ∧
    m = drop_none kwargs.
Proof.
  rewrite parse_resource_id_unfold. case_bool_decide.
  { intros [= <-] [? H']. by rewrite lookup_empty in H'. }
  destruct (armid_view rid) as [v|].
  - rewrite parsed_collected.
    destruct (_populate_alternate_kwargs (collected v)) as [kw|] eqn:E; [|done].
    cbn [mbind result_bind]. intros [= <-] _. eauto.
  - intros [= <-] [? H']. by rewrite lookup_singleton_ne in H'.
Qed.

Lemma root_items_subscription v :
  (list_to_map (root_items v) : gmap string value) !! "subscription" =
    Some (VStr (v_subscription v)).
Proof. reflexivity. Qed.

(** A parse that records a child count comes from a root match. *)
Lemma parse_with_children rid m n :
  parse_resource_id rid = Ok m → m !! "last_child_num" = Some (VInt n) →
  ∃ v kwargs,
    armid_view rid = Some v ∧
    _populate_alternate_kwargs (collected v) = Ok kwargs ∧
    m = drop_none kwargs ∧ n = length (found_children v) ∧ 1 ≤ n.
Proof.
  rewrite parse_resource_id_unfold. case_bool_decide.
  { intros [= <-] H'. by rewrite lookup_empty in H'. }
  destruct (armid_view rid) as [v|]; [|intros [= <-] H'; by rewrite lookup_singleton_ne in H'].
  rewrite parsed_collected.
  destruct (populate_spec _ _ (collected_ready v)) as (kw & Hkw & Hother & _).
  rewrite Hkw. cbn [mbind result_bind]. intros [= <-] Hn.
  apply lookup_drop_none in Hn as [Hn _].
  rewrite Hother in Hn; [|intros [?|(i & _ & ?)]; done|done..].
  rewrite collected_last_child_num in Hn.
  exists v, kw. split_and!; [done..| |];
    destruct (length (found_children v)); simplify_eq/=; lia.
Qed.

Lemma parse_result_eq rid : parse_resource_id rid = Ok (parse_result rid).
Proof.
  unfold parse_result. by destruct (parse_resource_id_returns rid) as [m ->].
Qed.

(** C4. Record-then-extend: when the parse finds [n] children, the parent
    recorded for level [i] is the accumulator after the provider segment of
    level [i] and before its type/name segment, for every [i] from 1 to [n];
    the parent recorded for the last level is [resource_parent]. The
    two-level identifier of the specification is an instance. *)
Theorem child_parent_record_then_extend :
  (∀ rid m n,
     parse_resource_id rid = Ok m → m !! "last_child_num" = Some (VInt n) →
     (∀ i, 1 ≤ i ≤ n →
        m !! ("child_parent_" +:+ pretty i) = Some (VStr (recorded_parent m i))) ∧
     m !! "resource_parent" = Some (VStr (recorded_parent m n)) ∧
     m !! "resource_parent" = m !! ("child_parent_" +:+ pretty n)) ∧
  (let m := parse_result "/subscriptions/S/providers/NS/T/N/C1T/C1N/C2T/C2N" in
   m !! "last_child_num" = Some (VInt 2) ∧
   m !! "child_parent_1" = Some (VStr "T/N/") ∧
   m !! "child_parent_2" = Some (VStr "T/N/C1T/C1N/") ∧
   m !! "resource_parent" = Some (VStr "T/N/C1T/C1N/")).
Proof.
  split; [|vm_compute; done].
  intros rid m n Hparse Hn.
  destruct (parse_with_children _ _ _ Hparse Hn) as (v & kw & Hv & Hkw & -> & -> & Hn1).
  destruct (populate_spec _ _ (collected_ready v))
    as (kw' & Hkw' & Hother & Hcp & Hrp & _).
  rewrite Hkw in Hkw'. injection Hkw' as <-.
  assert (∀ i, recorded_parent (drop_none kw) i = recorded_parent (collected v) i)
    as Hrec.
  { intros i. unfold recorded_parent, accumulated, root_segment, provider_segment.
    rewrite !dict_get_drop_none. unfold dict_get.
    rewrite !Hother by (done || intros [?|(? & _ & ?)]; done).
    f_equal. f_equal. apply levels_ext. intros j _.
    rewrite !dict_get_drop_none. unfold dict_get.
    by rewrite !Hother by (done || intros [?|(? & _ & ?)]; done). }
  assert (∀ i, 1 ≤ i ≤ length (found_children v) →
    drop_none kw !! ("child_parent_" +:+ pretty i) =
      Some (VStr (recorded_parent (drop_none kw) i))) as Hall.
  { intros i Hi. apply lookup_drop_none_Some; [|done]. by rewrite Hrec, Hcp. }
  assert (truthy (dict_get (collected v) "name") = true) as Hname.
  { destruct (v_provider v) as [p|] eqn:Hp.
    - unfold dict_get.
      rewrite collected_other by (done || by apply not_child_key_literal; repeat constructor).
      unfold root_items. rewrite Hp. cbn.
      rewrite !lookup_insert_ne, lookup_insert_eq by done. cbn.
      pose proof (armid_view_name _ _ _ Hv Hp). by case_bool_decide.
    - rewrite found_children_no_provider in Hn1 by done. simpl in Hn1. lia. }
  assert (drop_none kw !! "resource_parent" =
    Some (VStr (recorded_parent (drop_none kw) (length (found_children v))))) as Hres.
  { apply lookup_drop_none_Some; [|done]. rewrite Hrp, Hname, Hrec.
    by destruct (length (found_children v)); [lia|]. }
  split_and!; [done..|]. rewrite Hres. symmetry. apply Hall. lia.
Qed.

Lemma child_parent_record_then_extend_witness :
  let rid := "/subscriptions/S/resourceGroups/G/providers/NS/T/N/providers/CNS/CT/CN" in
  let m := parse_result rid in
  m !! "last_child_num" = Some (VInt 1) ∧
  ((∀ i, 1 ≤ i ≤ 1 →
      m !! ("child_parent_" +:+ pretty i) = Some (VStr (recorded_parent m i))) ∧
   m !! "resource_parent" = Some (VStr (recorded_parent m 1)) ∧
   m !! "resource_parent" = m !! ("child_parent_" +:+ pretty 1)).
Proof.
  intros rid m.
  assert (m !! "last_child_num" = Some (VInt 1)) as Hn
    by (vm_compute; reflexivity).
  split; [exact Hn|].
  exact (proj1 child_parent_record_then_extend rid m 1 (parse_result_eq rid) Hn).
Defined.

Lemma lookup_drop_none_eq m k :
  drop_none m !! k = match m !! k with Some VNone => None | o => o end.
Proof.
  destruct (m !! k) as [v|] eqn:E.
  - destruct (decide (v = VNone)) as [->|Hv].
    + apply lookup_drop_none_None. auto.
    + rewrite (lookup_drop_none_Some m k v) by done. by destruct v.
  - apply lookup_drop_none_None. auto.
Qed.

Lemma collected_name v :
  collected v !! "name" = Some (opt_value (p_name <$> v_provider v)).
Proof.
  by rewrite collected_other by (done || by apply not_child_key_literal; repeat constructor).
Qed.

(** C2, as the code has it. For an input the root pattern matches and in
    which no child is found, [resource_parent] is the empty string when
    [name] is present, and is absent when [name] is absent. *)
Theorem resource_parent_without_children rid m :
  is_Some (Re.re_match _ARMID_RE rid) →
  parse_resource_id rid = Ok m →
  m !! "last_child_num" = None →
  (is_Some (m !! "name") → m !! "resource_parent" = Some (VStr "")) ∧
  (m !! "name" = None → m !! "resource_parent" = None).
Proof.
  rewrite armid_match_view, parse_resource_id_unfold. intros [mo Hmo].
  case_bool_decide as Hrid; [by subst rid|].
  destruct (armid_view rid) as [v|] eqn:Hv; [|done].
  rewrite parsed_collected.
  destruct (populate_spec _ _ (collected_ready v))
    as (kw & -> & Hother & _ & Hrp & _).
  cbn [mbind result_bind]. intros [= <-] Hn.
  rewrite lookup_drop_none_eq in Hn.
  rewrite Hother in Hn by (done || intros [?|(? & _ & ?)]; done).
  rewrite collected_last_child_num in Hn.
  destruct (length (found_children v)) as [|n]; [clear Hn|done].
  rewrite !lookup_drop_none_eq, Hrp.
  rewrite Hother by (done || intros [?|(? & _ & ?)]; done).
  unfold dict_get. rewrite collected_name.
  destruct (v_provider v) as [p|] eqn:Hp; cbn.
  - pose proof (armid_view_name _ _ _ Hv Hp). case_bool_decide; [done|]. cbn.
    split; [done|discriminate].
  - split; [by intros [? ?]|done].
Qed.

Lemma resource_parent_without_children_witness :
  parse_result "/subscriptions/S/providers/NS/T/N" !! "resource_parent" =
    Some (VStr "").
Proof.
  refine (proj1 (resource_parent_without_children
    "/subscriptions/S/providers/NS/T/N" _ _ (parse_result_eq _) _) _).
  - vm_compute. eexists. reflexivity.
  - vm_compute. reflexivity.
  - vm_compute. eexists. reflexivity.
Defined.

(** C2, as the specification states it, fails: a root resource without
    children has the empty string as its parent, not ["T/N/"]. *)
Lemma resource_parent_root_counterexample :
  let m := parse_result "/subscriptions/S/providers/NS/T/N" in
  parse_resource_id "/subscriptions/S/providers/NS/T/N" = Ok m ∧
  m !! "last_child_num" = None ∧
  m !! "type" = Some (VStr "T") ∧ m !! "name" = Some (VStr "N") ∧
  m !! "resource_parent" = Some (VStr "") ∧
  m !! "resource_parent" ≠ Some (VStr "T/N/").
Proof. split; [apply parse_result_eq|]. vm_compute. by repeat split. Qed.

(** C5 at a child whose type is empty: the child pattern accepts the
    segment [//CN], the identifier is valid, and [resource_type] is the
    type of the root, not the (empty) type of the last child. *)
Theorem resource_type_of_empty_child_type :
  let m := parse_result "/subscriptions/S/providers/NS/T/N//CN" in
  parse_resource_id "/subscriptions/S/providers/NS/T/N//CN" = Ok m ∧
  m !! "last_child_num" = Some (VInt 1) ∧
  m !! "child_type_1" = Some (VStr "") ∧
  m !! "child_name_1" = Some (VStr "CN") ∧
  m !! "type" = Some (VStr "T") ∧
  m !! "resource_type" = Some (VStr "T") ∧
  m !! "resource_name" = Some (VStr "CN") ∧
  @is_valid_resource_id unit "/subscriptions/S/providers/NS/T/N//CN" None =
    Returns (VBool true).
Proof. split; [apply parse_result_eq|]. vm_compute. by repeat split. Qed.

(** C9 at a name of 261 characters: 260 letters and a final line feed.
    [$] matches before a line feed that ends the string, so the name is
    accepted; without the line feed 261 letters are rejected. *)
Theorem resource_name_of_261_characters :
  String.length (Str.replicate 260 "a" +:+ String Str.LF "") = 261 ∧
  @is_valid_resource_name unit (Str.replicate 260 "a" +:+ String Str.LF "") None =
    Returns (VBool true) ∧
  @is_valid_resource_name unit (Str.replicate 261 "a") None = Returns (VBool false).
Proof. by vm_compute. Qed.

Lemma fmt_drop_none kwargs key :
  fmt (drop_none kwargs) key =
    if present kwargs key then Ok (field kwargs key) else Err (KeyError key).
Proof.
  unfold fmt, getitem, present, field, dict_get.
  rewrite lookup_drop_none_eq.
  destruct (kwargs !! key) as [[]|]; cbn [mbind result_bind default];
    first [ by rewrite bool_decide_eq_true_2 by done
          | by rewrite bool_decide_eq_false_2 by (intros H; by apply H) ].
Qed.

Lemma join_snoc l x y :
  Str.join "/" ((x :: l) ++ [y]) = Str.join "/" (x :: l) +:+ "/" +:+ y.
Proof.
  revert x. induction l as [|z l IH]; intros x; [done|].
  change (Str.join "/" ((x :: z :: l) ++ [y]))
    with (x +:+ "/" +:+ Str.join "/" ((z :: l) ++ [y])).
  change (Str.join "/" (x :: z :: l)) with (x +:+ "/" +:+ Str.join "/" (z :: l)).
  by rewrite IH, !app_assoc.
Qed.

(** The loop over the child levels: [n] complete levels, then a level that
    is not complete. *)
Lemma resource_id_children_run kwargs n : ∀ fuel count x l,
  (∀ i, count ≤ i < count + n → complete kwargs i = true) →
  complete kwargs (count + n) = false →
  n < fuel →
  ∃ l',
    resource_id_children (drop_none kwargs) fuel count (x :: l) = Ok l' ∧
    Str.join "/" l' =
      Str.join "/" (x :: l) +:+ id_children kwargs count n +:+
      id_child_provider kwargs (count + n).
Proof.
  induction n as [|n IH]; intros fuel count x l Hall Hstop Hfuel.
  - destruct fuel as [|fuel]; [lia|]. cbn [resource_id_children].
    rewrite !fmt_drop_none. rewrite Nat.add_0_r in Hstop.
    unfold complete in Hstop. unfold id_child_provider. rewrite Nat.add_0_r.
    cbn [id_children]. rewrite app_nil_l.
    destruct (present kwargs ("child_namespace_" +:+ pretty count)).
    + exists ((x :: l) ++ ["providers/" +:+ field kwargs ("child_namespace_" +:+ pretty count)]).
      split; [|by rewrite join_snoc].
      destruct (present kwargs ("child_type_" +:+ pretty count)),
        (present kwargs ("child_name_" +:+ pretty count)); done.
    + exists (x :: l). split; [|by rewrite app_nil_r].
      destruct (present kwargs ("child_type_" +:+ pretty count)),
        (present kwargs ("child_name_" +:+ pretty count)); done.
  - destruct fuel as [|fuel]; [lia|]. cbn [resource_id_children].
    rewrite !fmt_drop_none.
    pose proof (Hall count ltac:(lia)) as Hc. unfold complete in Hc.
    apply andb_prop in Hc as [-> ->].
    set (rb := match (if present kwargs _ then _ else _) with
               | Ok ns => _ | Err _ => _ end).
    assert (∃ y l1, rb = y :: l1 ∧
      Str.join "/" rb = Str.join "/" (x :: l) +:+ id_child_provider kwargs count)
      as (y & l1 & Hrb & Hjoin).
    { subst rb. unfold id_child_provider.
      destruct (present kwargs ("child_namespace_" +:+ pretty count)).
      - exists x, (l ++ ["providers/" +:+ field kwargs ("child_namespace_" +:+ pretty count)]).
        split; [done|]. by rewrite join_snoc.
      - exists x, l. by rewrite app_nil_r. }
    rewrite Hrb.
    destruct (IH fuel (S count) y
      (l1 ++ [field kwargs ("child_type_" +:+ pretty count) +:+ "/" +:+
              field kwargs ("child_name_" +:+ pretty count)]))
      as (l' & Hl' & Hjoin').
    { intros i Hi. apply Hall. lia. }
    { by replace (S count + n) with (count + S n) by lia. }
    { lia. }
    exists l'. split; [exact Hl'|].
    rewrite Hjoin'. change (y :: l1 ++ ?z) with ((y :: l1) ++ z).
    rewrite join_snoc, <-Hrb, Hjoin. cbn [id_children]. unfold id_child.
    replace (S count + n) with (count + S n) by lia.
    by rewrite !app_assoc.
Qed.

(** The keys [child_type_i] of consecutive levels are distinct entries. *)
Lemma child_type_keys_bound (kw : gmap string value) count n :
  (∀ i, count ≤ i < count + n → is_Some (kw !! ("child_type_" +:+ pretty i))) →
  n ≤ size kw.
Proof.
  intros Hkeys.
  set (l := (fun i : nat => "child_type_" +:+ pretty i) <$> seq count n).
  assert (NoDup l) as Hnd.
  { apply NoDup_fmap_2; [|apply NoDup_seq]. intros i j H. by simplify_eq. }
  assert (list_to_set (C := gset string) l ⊆ dom kw) as Hsub.
  { intros k Hk. apply elem_of_list_to_set, list_elem_of_fmap in Hk as (i & -> & Hi).
    apply elem_of_seq in Hi. apply elem_of_dom, Hkeys. lia. }
  apply subseteq_size in Hsub.
  rewrite size_list_to_set in Hsub by done.
  rewrite size_dom in Hsub. subst l. by rewrite length_fmap, length_seq in Hsub.
Qed.

Lemma present_lookup kwargs key :
  present kwargs key = true → is_Some (drop_none kwargs !! key).
Proof.
  unfold present, dict_get. intros H%bool_decide_eq_true_1.
  rewrite lookup_drop_none_eq. destruct (kwargs !! key) as [[]|]; by eauto.
Qed.

(** Some level is not complete, within the size of the dictionary. *)
Lemma first_incomplete kwargs count k :
  (∃ n, n < k ∧ (∀ i, count ≤ i < count + n → complete kwargs i = true) ∧
        complete kwargs (count + n) = false) ∨
  (∀ i, count ≤ i < count + k → complete kwargs i = true).
Proof.
  induction k as [|k [(n & Hn & Hall & Hstop)|Hall]].
  - right. intros; lia.
  - left. exists n. split_and!; [lia|done..].
  - destruct (complete kwargs (count + k)) eqn:Hk.
    + right. intros i Hi. destruct (decide (i = count + k)) as [->|]; [done|].
      apply Hall. lia.
    + left. exists k. split_and!; [lia|done..].
Qed.

Lemma complete_levels kwargs :
  ∃ n, n < S (size (drop_none kwargs)) ∧
       (∀ i, 1 ≤ i < 1 + n → complete kwargs i = true) ∧
       complete kwargs (1 + n) = false.
Proof.
  destruct (first_incomplete kwargs 1 (S (size (drop_none kwargs))))
    as [H|Hall]; [done|].
  assert (S (size (drop_none kwargs)) ≤ size (drop_none kwargs)); [|lia].
  apply (child_type_keys_bound _ 1). intros i Hi. apply present_lookup.
  specialize (Hall i Hi). unfold complete in Hall. by apply andb_prop in Hall as [? _].
Qed.

(** [resource_id], case by case. *)
Lemma resource_id_unfold kwargs :
  resource_id kwargs =
    if present kwargs "subscription" then
      if present kwargs "namespace" then
        if present kwargs "type" && present kwargs "name" then
          l ← resource_id_children (drop_none kwargs) (S (size (drop_none kwargs))) 1
                (["/subscriptions/" +:+ field kwargs "subscription"] ++
                 (if present kwargs "resource_group"
                  then ["resourceGroups/" +:+ field kwargs "resource_group"] else []) ++
                 ["providers/" +:+ field kwargs "namespace"] ++
                 [field kwargs "type" +:+ "/" +:+ field kwargs "name"]);
          Ok (Str.join "/" l)
        else Ok (id_head kwargs +:+ "/providers/" +:+ field kwargs "namespace")
      else Ok (id_head kwargs)
    else Err (KeyError "subscription").
Proof.
  unfold resource_id, id_head. rewrite !fmt_drop_none.
  destruct (present kwargs "subscription"); [|done].
  cbn [mbind result_bind].
  destruct (present kwargs "resource_group"), (present kwargs "namespace"),
    (present kwargs "type"), (present kwargs "name");
    cbn [mbind result_bind andb app Str.join]; rewrite ?app_nil_r, ?app_assoc; done.
Qed.

(** The text [resource_id] builds when the root resource is given, with [n]
    complete child levels. *)
Lemma resource_id_children_text kwargs n :
  (∀ i, 1 ≤ i ≤ n → complete kwargs i = true) →
  complete kwargs (S n) = false →
  (l ← resource_id_children (drop_none kwargs) (S (size (drop_none kwargs))) 1
         (["/subscriptions/" +:+ field kwargs "subscription"] ++
          (if present kwargs "resource_group"
           then ["resourceGroups/" +:+ field kwargs "resource_group"] else []) ++
          ["providers/" +:+ field kwargs "namespace"] ++
          [field kwargs "type" +:+ "/" +:+ field kwargs "name"]);
   Ok (Str.join "/" l)) =
  Ok (id_head kwargs +:+ "/providers/" +:+ field kwargs "namespace" +:+
      id_root kwargs +:+ id_children kwargs 1 n +:+
      id_child_provider kwargs (S n)).
Proof.
  intros Hall Hstop.
  assert (n < S (size (drop_none kwargs))) as Hfuel.
  { assert (n ≤ size (drop_none kwargs)); [|lia].
    apply (child_type_keys_bound _ 1). intros i Hi. apply present_lookup.
    specialize (Hall i ltac:(lia)). unfold complete in Hall.
    by apply andb_prop in Hall as [? _]. }
  cbn [app].
  edestruct (resource_id_children_run kwargs n (S (size (drop_none kwargs))) 1)
    as (l' & -> & Hjoin); [intros; apply Hall; lia|done|done|].
  cbn [mbind result_bind]. rewrite Hjoin. f_equal. unfold id_head, id_root.
  destruct (present kwargs "resource_group");
    cbn [app Str.join]; by rewrite ?app_nil_r, ?app_assoc.
Qed.

(** C3. [resource_id] raises exactly when [subscription] is missing, and
    then it is the [KeyError] of that key. With [subscription] given it
    returns the text built up to the first missing field: the head alone
    without [namespace]; the head and the provider without [type] or
    [name]; otherwise the root resource, the complete child levels and the
    provider segment of the first level that is not complete. *)
Theorem resource_id_fails_only_without_subscription kwargs :
  (present kwargs "subscription" = false →
     resource_id kwargs = Err (KeyError "subscription")) ∧
  (present kwargs "subscription" = true →
     (∃ s, resource_id kwargs = Ok s) ∧
     (present kwargs "namespace" = false →
        resource_id kwargs = Ok (id_head kwargs)) ∧
     (present kwargs "namespace" = true →
      present kwargs "type" && present kwargs "name" = false →
        resource_id kwargs =
          Ok (id_head kwargs +:+ "/providers/" +:+ field kwargs "namespace")) ∧
     (present kwargs "namespace" = true →
      present kwargs "type" && present kwargs "name" = true →
      ∀ n, (∀ i, 1 ≤ i ≤ n → complete kwargs i = true) →
           complete kwargs (S n) = false →
        resource_id kwargs =
          Ok (id_head kwargs +:+ "/providers/" +:+ field kwargs "namespace" +:+
              id_root kwargs +:+ id_children kwargs 1 n +:+
              id_child_provider kwargs (S n)))).
Proof.
  rewrite resource_id_unfold. split; [by intros ->|]. intros ->.
  split_and!.
  - destruct (present kwargs "namespace"); [|by eexists].
    destruct (present kwargs "type" && present kwargs "name"); [|by eexists].
    destruct (complete_levels kwargs) as (n & _ & Hall & Hstop).
    rewrite (resource_id_children_text kwargs n);
      [by eexists|intros; apply Hall; lia|done].
  - by intros ->.
  - by intros -> ->.
  - intros -> -> n Hall Hstop. by apply resource_id_children_text.
Qed.

(** The examples of the specification: the build fails without a
    subscription, and stops cleanly after the resource group. *)
Lemma resource_id_fails_only_without_subscription_witness :
  let kwargs : gmap string value :=
    <["subscription" := VStr "S"]> {["resource_group" := VStr "G"]} in
  resource_id {["resource_group" := VStr "G"]} = Err (KeyError "subscription") ∧
  (∃ s, resource_id kwargs = Ok s) ∧
  resource_id kwargs = Ok (id_head kwargs).
Proof.
  intros kwargs. split_and!.
  - exact (proj1 (resource_id_fails_only_without_subscription
                    {["resource_group" := VStr "G"]}) eq_refl).
  - exact (proj1 (proj2 (resource_id_fails_only_without_subscription kwargs) eq_refl)).
  - exact (proj1 (proj2 (proj2 (resource_id_fails_only_without_subscription kwargs)
                    eq_refl)) eq_refl).
Defined.

(** [resource_id] returns a text or raises the [KeyError] of
    [subscription]; the loop bound of the model is never reached. *)
Lemma resource_id_outcome kwargs :
  (∃ s, resource_id kwargs = Ok s) ∨
  resource_id kwargs = Err (KeyError "subscription").
Proof.
  rewrite resource_id_unfold.
  destruct (present kwargs "subscription"); [left|by right].
  destruct (present kwargs "namespace"); [|by eexists].
  destruct (present kwargs "type" && present kwargs "name"); [|by eexists].
  destruct (complete_levels kwargs) as (n & _ & Hall & Hstop).
  rewrite (resource_id_children_text kwargs n);
    [by eexists|intros; apply Hall; lia|done].
Qed.

Lemma rebuilt_outcome rid :
  (∃ s, rebuilt rid = Ok s) ∨ rebuilt rid = Err (KeyError "subscription").
Proof.
  unfold rebuilt. destruct (parse_resource_id_returns rid) as [m ->].
  cbn [mbind result_bind]. apply resource_id_outcome.
Qed.

Section is_valid_resource_id.
Context {T : Type}.

Lemma is_valid_resource_id_unfold rid (exception_type : option T) :
  is_valid_resource_id rid exception_type =
    let is_valid :=
      if bool_decide (rid = "") then VStr rid
      else match rebuilt rid with
           | Ok built => VBool (bool_decide (Str.lower built = Str.lower rid))
           | Err _ => VBool false
           end in
    match exception_type with
    | Some t => if negb (truthy is_valid) then Raises t else Returns is_valid
    | None => Returns is_valid
    end.
Proof.
  unfold is_valid_resource_id. cbn [truthy].
  case_bool_decide as Hrid; cbn [negb]; [done|].
  destruct (rebuilt_outcome rid) as [[s Hs]|He]; unfold rebuilt in *.
  - destruct (parse_resource_id rid) as [m|e]; [|done].
    cbn [mbind result_bind] in *. by rewrite Hs.
  - destruct (parse_resource_id rid) as [m|e]; cbn [mbind result_bind] in *.
    + by rewrite He.
    + by injection He as ->.
Qed.

(** C7. [is_valid_resource_id] returns [True] exactly for a non-empty
    string whose parse, recomposed, is the string again up to case. When
    the composition raises a [KeyError] the call returns [False]. With an
    exception type, a call that would not return [True] raises it, and a
    call that would return [True] still does. *)
Theorem is_valid_resource_id_spec rid :
  (is_valid_resource_id (T := T) rid None = Returns (VBool true) ↔
     rid ≠ "" ∧ ∃ built, rebuilt rid = Ok built ∧ Str.lower built = Str.lower rid) ∧
  (rid ≠ "" → (∃ key, rebuilt rid = Err (KeyError key)) →
     is_valid_resource_id (T := T) rid None = Returns (VBool false)) ∧
  (∃ v, is_valid_resource_id (T := T) rid None = Returns v) ∧
  (is_valid_resource_id (T := T) rid None = Returns (VBool true) →
     ∀ t : T, is_valid_resource_id rid (Some t) = Returns (VBool true)) ∧
  (is_valid_resource_id (T := T) rid None ≠ Returns (VBool true) →
     ∀ t : T, is_valid_resource_id rid (Some t) = Raises t).
Proof.
  rewrite !is_valid_resource_id_unfold. cbn zeta. split_and!.
  - case_bool_decide as Hrid.
    + split; [done|]. by intros [? _].
    + destruct (rebuilt rid) as [built|e].
      * case_bool_decide as Hl.
        -- split; [|done]. intros _. split; [done|]. by exists built.
        -- split; [done|]. intros [_ (b & [= <-] & Hb)]. done.
      * split; [done|]. by intros [_ (b & ? & _)].
  - intros Hrid [key Hkey]. rewrite bool_decide_eq_false_2 by done. by rewrite Hkey.
  - by eexists.
  - intros Hv t. rewrite is_valid_resource_id_unfold. cbn zeta.
    injection Hv as ->. done.
  - intros Hv t. rewrite is_valid_resource_id_unfold. cbn zeta.
    case_bool_decide as Hrid; [by subst rid|].
    destruct (rebuilt rid) as [built|e]; [|done].
    case_bool_decide as Hl; [|done]. done.
Qed.
End is_valid_resource_id.

Lemma is_valid_resource_id_spec_witness :
  is_valid_resource_id (T := unit) "not-an-id" None = Returns (VBool false).
Proof.
  refine (proj1 (proj2 (is_valid_resource_id_spec (T := unit) "not-an-id")) _ _).
  - discriminate.
  - exists "subscription". vm_compute. reflexivity.
Defined.

Lemma input_key_other k n :
  input_key k →
  ¬ parent_key k n ∧ k ≠ "resource_namespace" ∧ k ≠ "resource_type" ∧
  k ≠ "resource_name".
Proof.
  intros [Hk|[j Hk]].
  - repeat (apply elem_of_cons in Hk as [->|Hk]);
      try (split_and!; [intros [?|(? & _ & ?)]|..]; done).
    by apply elem_of_nil in Hk.
  - destruct Hk as [-> | [-> | ->]];
      (split_and!; [intros [?|(? & _ & ?)]|..]; done).
Qed.

(** On the keys [resource_id] reads, the result of [parse_resource_id]
    holds what the matches gave. *)
Lemma populated_input_key v kwargs k :
  _populate_alternate_kwargs (collected v) = Ok kwargs → input_key k →
  dict_get (drop_none kwargs) k = dict_get (collected v) k.
Proof.
  intros Hkw Hk.
  destruct (populate_spec _ _ (collected_ready v)) as (kw & Hkw' & Hother & _).
  rewrite Hkw in Hkw'. injection Hkw' as <-.
  rewrite dict_get_drop_none. unfold dict_get.
  destruct (input_key_other k (length (found_children v)) Hk) as (? & ? & ? & ?).
  by rewrite Hother.
Qed.

Lemma collected_root_get v :
  dict_get (collected v) "subscription" = VStr (v_subscription v) ∧
  dict_get (collected v) "resource_group" = opt_value (v_resource_group v) ∧
  dict_get (collected v) "namespace" = opt_value (p_namespace <$> v_provider v) ∧
  dict_get (collected v) "type" = opt_value (p_type <$> v_provider v) ∧
  dict_get (collected v) "name" = opt_value (p_name <$> v_provider v).
Proof.
  unfold dict_get.
  rewrite !collected_other by (done || by apply not_child_key_literal; repeat constructor).
  done.
Qed.

Lemma id_child_collected v i r :
  found_children v !! i = Some r →
  complete (collected v) (S i) = true ∧
  id_child (collected v) (S i) = render_child r.1.
Proof.
  intros Hr. destruct (collected_child v i r Hr) as (Hns & Hty & Hnm).
  unfold complete, id_child, id_child_provider, present, field, dict_get, render_child.
  rewrite Hns, Hty, Hnm. cbn [default py_str].
  rewrite !bool_decide_eq_true_2 by done. split; [done|].
  destruct (c_namespace r.1); cbn [opt_value from_option py_str].
  - by rewrite bool_decide_eq_true_2, !app_assoc by done.
  - by rewrite bool_decide_eq_false_2 by (intros H; by apply H).
Qed.

Lemma id_children_collected v n : ∀ a,
  a + n ≤ length (found_children v) →
  id_children (collected v) (S a) n =
    render_children ((take n (drop a (found_children v))).*1).
Proof.
  induction n as [|n IH]; intros a Ha; [done|].
  destruct (lookup_lt_is_Some_2 (found_children v) a) as [r Hr]; [lia|].
  cbn [id_children]. rewrite IH by lia.
  destruct (id_child_collected v a r Hr) as [_ ->].
  rewrite (drop_S _ r a) by done. done.
Qed.

Lemma collected_stop v :
  complete (collected v) (S (length (found_children v))) = false ∧
  id_child_provider (collected v) (S (length (found_children v))) = "".
Proof.
  unfold complete, id_child_provider, present, dict_get.
  rewrite !(collected_child_absent v _ (S (length (found_children v))))
    by (unfold is_child_key; (lia || auto)).
  cbn. by rewrite !bool_decide_eq_false_2 by (intros H; by apply H).
Qed.

(** [resource_id] reads its keys through [dict_get] only. *)
Lemma resource_id_ext kwargs kwargs' :
  (∀ k, input_key k → dict_get kwargs' k = dict_get kwargs k) →
  ∀ n, (∀ i, 1 ≤ i ≤ n → complete kwargs i = true) →
       complete kwargs (S n) = false →
  resource_id kwargs' =
    if present kwargs "subscription" then
      if present kwargs "namespace" then
        if present kwargs "type" && present kwargs "name" then
          Ok (id_head kwargs +:+ "/providers/" +:+ field kwargs "namespace" +:+
              id_root kwargs +:+ id_children kwargs 1 n +:+
              id_child_provider kwargs (S n))
        else Ok (id_head kwargs +:+ "/providers/" +:+ field kwargs "namespace")
      else Ok (id_head kwargs)
    else Err (KeyError "subscription").
Proof.
  intros Hext n Hall Hstop.
  assert (∀ k, input_key k → present kwargs' k = present kwargs k) as Hp.
  { intros k Hk. unfold present. by rewrite Hext. }
  assert (∀ k, input_key k → field kwargs' k = field kwargs k) as Hf.
  { intros k Hk. unfold field. by rewrite Hext. }
  assert (∀ j : nat, input_key ("child_namespace_" +:+ pretty j) ∧
               input_key ("child_type_" +:+ pretty j) ∧
               input_key ("child_name_" +:+ pretty j)) as Hchild.
  { intros j. unfold input_key, is_child_key. split_and!; right; exists j; auto. }
  assert (∀ j, complete kwargs' j = complete kwargs j) as Hc.
  { intros j. unfold complete. destruct (Hchild j) as (? & ? & ?). by rewrite !Hp. }
  assert (∀ j, id_child_provider kwargs' j = id_child_provider kwargs j) as Hcp.
  { intros j. unfold id_child_provider. destruct (Hchild j) as (? & ? & ?).
    by rewrite Hp, Hf. }
  assert (∀ m a, id_children kwargs' a m = id_children kwargs a m) as Hcs.
  { induction m as [|m IH]; intros a; [done|]. cbn [id_children]. rewrite IH.
    unfold id_child. destruct (Hchild a) as (? & ? & ?). by rewrite Hcp, !Hf. }
  assert (id_head kwargs' = id_head kwargs) as Hh.
  { unfold id_head. by rewrite Hp, !Hf by (left; repeat constructor). }
  rewrite resource_id_unfold, (resource_id_children_text kwargs' n);
    [|intros i Hi; rewrite Hc; by apply Hall|by rewrite Hc].
  unfold id_root.
  by rewrite Hh, !Hp, !Hf, Hcs, Hcp by (left; repeat constructor).
Qed.

(** Parsing and recomposing a string the root pattern matches gives the
    canonical text of what was read. *)
Lemma rebuilt_view rid v :
  rid ≠ "" → armid_view rid = Some v →
  rebuilt rid = Ok (canonical v (found_children v).*1).
Proof.
  intros Hrid Hv. unfold rebuilt. rewrite parse_resource_id_unfold.
  rewrite bool_decide_eq_false_2, Hv, parsed_collected by done.
  destruct (populate_spec _ _ (collected_ready v)) as (kw & Hkw & _).
  rewrite Hkw. cbn [mbind result_bind].
  rewrite (resource_id_ext (collected v) _
    (fun k Hk => populated_input_key v kw k Hkw Hk) (length (found_children v))).
  - destruct (collected_root_get v) as (Hsub & Hrg & Hns & Hty & Hnm).
    destruct (collected_stop v) as [_ Hstop].
    unfold present, id_head, id_root, field, present. rewrite Hsub, Hrg, Hns, Hty, Hnm, Hstop.
    rewrite (id_children_collected v _ 0) by lia. rewrite drop_0, take_ge by done.
    unfold canonical. cbn [py_str].
    rewrite bool_decide_eq_true_2 by done.
    destruct (v_resource_group v) as [g|], (v_provider v) as [p|];
      cbn [opt_value from_option fmap option_fmap option_map py_str andb];
      rewrite ?bool_decide_eq_true_2 by done;
      rewrite ?bool_decide_eq_false_2 by (intros H; by apply H);
      cbn [andb]; by rewrite ?app_nil_r, ?app_assoc.
  - intros i Hi.
    destruct (lookup_lt_is_Some_2 (found_children v) (pred i)) as [r Hr]; [lia|].
    destruct (id_child_collected v (pred i) r Hr) as [Hc _].
    by replace (S (pred i)) with i in Hc by lia.
  - apply collected_stop.
Qed.

Lemma split_nonempty sep s : Str.split sep s ≠ [].
Proof.
  destruct s as [|c s]; [done|]. simpl.
  destruct (Ascii.eqb c sep); [done|]. by destruct (Str.split sep s).
Qed.

Lemma join_path s l : Str.join "/" (s :: l) = s +:+ path l.
Proof.
  revert s. induction l as [|t l IH]; intros s.
  - simpl. by rewrite app_nil_r.
  - change (Str.join "/" (s :: t :: l)) with (s +:+ "/" +:+ Str.join "/" (t :: l)).
    by rewrite IH.
Qed.

Lemma split_join s : Str.join "/" (Str.split "/" s) = s.
Proof.
  induction s as [|c s IH]; [done|]. cbn [Str.split].
  destruct (Ascii.eqb_spec c "/") as [->|Hc].
  - pose proof (split_nonempty "/" s) as Hne.
    destruct (Str.split "/" s) as [|x l]; [done|].
    change (Str.join "/" ("" :: x :: l)) with ("" +:+ "/" +:+ Str.join "/" (x :: l)).
    by rewrite IH.
  - pose proof (split_nonempty "/" s) as Hne.
    destruct (Str.split "/" s) as [|x l]; [done|].
    rewrite join_path in *. by rewrite app_cons, IH.
Qed.

Lemma split_not_slash s :
  Forall (fun x => Str.forallb not_slash x = true) (Str.split "/" s).
Proof.
  induction s as [|c s IH]; [by repeat constructor|]. cbn [Str.split].
  destruct (Ascii.eqb_spec c "/") as [->|Hc].
  - by constructor.
  - destruct (Str.split "/" s) as [|x l]; inversion IH; subst.
    + repeat constructor. cbn. unfold not_slash.
      by destruct (Ascii.eqb_spec c "/").
    + constructor; [|done]. cbn. unfold not_slash at 1.
      by destruct (Ascii.eqb_spec c "/").
Qed.

Lemma path_head l : path l = "" ∨ ∃ t, path l = String "/" t.
Proof. destruct l; [by left|right]. by eexists. Qed.

Lemma take_while_path s l :
  Str.forallb not_slash s = true → take_while not_slash (s +:+ path l) = s.
Proof.
  intros Hs. destruct (path_head l) as [->|[t ->]].
  - rewrite app_nil_r. by apply take_while_all.
  - by apply take_while_app.
Qed.

Lemma drop_while_path s l :
  Str.forallb not_slash s = true → drop_while not_slash (s +:+ path l) = path l.
Proof.
  intros Hs. destruct (path_head l) as [->|[t ->]].
  - rewrite app_nil_r. by apply drop_while_all.
  - by apply drop_while_app.
Qed.

Lemma run1_path s l :
  Str.forallb not_slash s = true → nonempty s = true →
  run1 not_slash (s +:+ path l) = Some (s, path l).
Proof.
  intros Hs Hne. unfold run1. rewrite take_while_path, drop_while_path by done.
  unfold nonempty in Hne. by destruct (bool_decide (s = "")).
Qed.

Lemma lit_char_not_slash a s :
  not_slash a = true → Re.lit_char true a (String "/" s) = None.
Proof.
  intros Ha. rewrite lit_char_ascii by done.
  destruct (Ascii.eqb_spec (Str.lower_ascii a) (Str.lower_ascii "/")) as [E|E]; [|done].
  apply lower_ascii_slash in E. by subst a.
Qed.

Lemma is_ascii_cons c s :
  Str.is_ascii (String c s) = true →
  Str.is_ascii_byte c = true ∧ Str.is_ascii s = true.
Proof. unfold Str.is_ascii. cbn [Str.forallb]. by intros ?%andb_prop. Qed.

Lemma lit_match_cons_slash text s :
  Re.lit_match true (String "/" text) (String "/" s) = Re.lit_match true text s.
Proof. cbn [Re.lit_match]. by rewrite lit_char_slash. Qed.

(** A keyword and the slash after it, against an ASCII segment and the
    slash after it. *)
Lemma lit_match_word K : ∀ kw s,
  Str.forallb not_slash K = true → Str.forallb not_slash kw = true →
  Str.is_ascii kw = true →
  Re.lit_match true (K +:+ "/") (kw +:+ "/" +:+ s) =
    if same_word kw K then Some s else None.
Proof.
  unfold same_word.
  induction K as [|a K IH]; intros kw s HK Hkw Hascii.
  - destruct kw as [|c kw].
    { rewrite !app_nil_l, app_cons, app_nil_l. by rewrite lit_match_slash. }
    cbn in Hkw. apply andb_prop in Hkw as [Hc _].
    rewrite app_nil_l, app_cons, lit_match_slash_reject by done.
    by rewrite bool_decide_eq_false_2.
  - cbn in HK. apply andb_prop in HK as [Ha HK].
    destruct kw as [|c kw].
    + rewrite app_nil_l, !app_cons, app_nil_l. cbn [Re.lit_match].
      rewrite lit_char_not_slash by done. by rewrite bool_decide_eq_false_2.
    + cbn in Hkw. apply andb_prop in Hkw as [Hc Hkw].
      apply is_ascii_cons in Hascii as [Hc' Hascii].
      rewrite (app_cons a K), (app_cons c kw). cbn [Re.lit_match].
      rewrite lit_char_ascii by done.
      destruct (Ascii.eqb_spec (Str.lower_ascii a) (Str.lower_ascii c)) as [E|E].
      * rewrite IH by done. cbn [Str.lower]. rewrite E.
        case_bool_decide as H1; case_bool_decide as H2; congruence.
      * rewrite bool_decide_eq_false_2; [done|]. cbn. congruence.
Qed.

(** The same, with the slash before the keyword. *)
Lemma lit_match_keyword K kw l :
  Str.forallb not_slash K = true → Str.forallb not_slash kw = true →
  Str.is_ascii kw = true →
  Re.lit_match true ("/" +:+ K +:+ "/") (path (kw :: l)) =
    match l with
    | [] => None
    | s :: l' => if same_word kw K then Some (s +:+ path l') else None
    end.
Proof.
  intros HK Hkw Hascii. cbn [path]. rewrite !app_cons, !app_nil_l.
  rewrite lit_match_cons_slash.
  destruct l as [|s l'].
  - cbn [path]. rewrite app_nil_r. clear HK.
    revert kw Hkw Hascii. induction K as [|a K IH]; intros [|c kw] Hkw Hascii; try done.
    + cbn in Hkw. apply andb_prop in Hkw as [Hc _].
      by rewrite app_nil_l, lit_match_slash_reject.
    + cbn in Hkw. apply andb_prop in Hkw as [Hc Hkw].
      apply is_ascii_cons in Hascii as [Hc' Hascii].
      rewrite app_cons. cbn [Re.lit_match]. rewrite lit_char_ascii by done.
      destruct (Ascii.eqb _ _); [by apply IH|done].
  - cbn [path]. by rewrite lit_match_word.
Qed.

(** A segment that is a keyword up to case is ASCII. *)
Lemma lower_is_ascii s : Str.is_ascii (Str.lower s) = Str.is_ascii s.
Proof.
  unfold Str.is_ascii. induction s as [|c s IH]; [done|].
  cbn [Str.lower Str.forallb]. by rewrite lower_ascii_byte, IH.
Qed.

Lemma same_word_ascii kw K :
  same_word kw K = true → Str.is_ascii K = true → Str.is_ascii kw = true.
Proof.
  unfold same_word. intros H%bool_decide_eq_true_1 HK.
  by rewrite <-lower_is_ascii, H, lower_is_ascii.
Qed.

Lemma resource_group_view_path kw g l :
  Str.forallb not_slash kw = true → Str.forallb not_slash g = true →
  Str.is_ascii kw = true →
  resource_group_view (path (kw :: g :: l)) =
    if same_word kw "resourceGroups" && nonempty g then Some (g, path l) else None.
Proof.
  intros Hkw Hg Hascii. unfold resource_group_view.
  change "/resourceGroups/" with ("/" +:+ "resourceGroups" +:+ "/").
  rewrite lit_match_keyword by done.
  destruct (same_word kw "resourceGroups"); [|done]. cbn [mbind option_bind andb].
  unfold run1. rewrite take_while_path, drop_while_path by done.
  unfold nonempty. by destruct (bool_decide (g = "")).
Qed.

Lemma forallb_dot_path l :
  Forall (fun s => Str.forallb dot s = true) l → Str.forallb dot (path l) = true.
Proof.
  induction 1 as [|s l Hs _ IH]; [done|]. cbn [path].
  rewrite !forallb_app, Hs, IH. done.
Qed.

Lemma provider_view_path kw ns ty nm ch :
  Forall (fun s => Str.forallb not_slash s = true) (kw :: ns :: ty :: nm :: ch) →
  same_word kw "providers" = true → nonempty ns = true → nonempty nm = true →
  Str.forallb dot (path ch) = true →
  provider_view (path (kw :: ns :: ty :: nm :: ch)) =
    Some (Provider ns ty nm (path ch), "").
Proof.
  intros Hs Hkw Hns Hnm Hch.
  apply Forall_cons in Hs as [Hs0 Hs]. apply Forall_cons in Hs as [Hs1 Hs].
  apply Forall_cons in Hs as [Hs2 Hs]. apply Forall_cons in Hs as [Hs3 Hs].
  unfold provider_view.
  change "/providers/" with ("/" +:+ "providers" +:+ "/").
  rewrite lit_match_keyword, Hkw by (done || by eapply same_word_ascii).
  cbn [mbind option_bind].
  rewrite run1_path by done. cbn [mbind option_bind].
  cbn [path]. rewrite app_cons, app_nil_l, lit_match_slash. cbn [mbind option_bind].
  change (ty +:+ "/" +:+ nm +:+ path ch) with (ty +:+ path (nm :: ch)).
  rewrite take_while_path, drop_while_path by done.
  cbn [path]. rewrite app_cons, app_nil_l, lit_match_slash. cbn [mbind option_bind].
  rewrite run1_path by done. cbn [mbind option_bind].
  by rewrite take_while_all, drop_while_all.
Qed.

Lemma provider_view_empty : provider_view "" = None.
Proof. reflexivity. Qed.

Lemma resource_group_view_empty : resource_group_view "" = None.
Proof. reflexivity. Qed.

Lemma child_segments_dot l :
  child_segments_ok l = true → Forall (fun s => Str.forallb dot s = true) l.
Proof.
  revert l. fix IH 1. intros [|ty [|nm l]] H; [constructor|done|].
  cbn in H. apply andb_prop in H as [H Hl]. apply andb_prop in H as [H Hnm'].
  apply andb_prop in H as [Hnm Hty].
  constructor; [done|]. constructor; [done|]. by apply IH.
Qed.

Lemma same_word_providers kw :
  same_word kw "providers" = true → same_word kw "resourceGroups" = false.
Proof.
  unfold same_word. intros H%bool_decide_eq_true_1.
  apply bool_decide_eq_false_2. rewrite H. done.
Qed.

(** The root pattern reads a well-formed identifier whole, part by part. *)
Lemma armid_view_parts w :
  parts_ok w → armid_view (path (parts_segments w)) = Some (parts_view w).
Proof.
  destruct w as [k1 sub rg prov ch]. unfold parts_ok, parts_segments, parts_view.
  cbn [w_subscriptions w_subscription w_resource_group w_provider w_children].
  intros (Hs & Hk1 & Hsub & Hrg & Hprov).
  cbn [app] in Hs. apply Forall_cons in Hs as [Hs1 Hs]. apply Forall_cons in Hs as [Hs2 Hs].
  unfold armid_view. cbn [app].
  change "/subscriptions/" with ("/" +:+ "subscriptions" +:+ "/").
  rewrite lit_match_keyword, Hk1 by (done || by eapply same_word_ascii).
  cbn [mbind option_bind].
  rewrite run1_path by done. cbn [mbind option_bind].
  destruct rg as [[k2 g]|]; cbn [app fmap option_fmap option_map snd] in *.
  - destruct Hrg as [Hk2 Hg].
    pose proof Hs as Hs'.
    apply Forall_cons in Hs as [Hs3 Hs]. apply Forall_cons in Hs as [Hs4 Hs].
    rewrite resource_group_view_path, Hk2, Hg
      by (done || by eapply same_word_ascii).
    cbn [andb].
    destruct prov as [[[[k3 ns] ty] nm]|]; cbn [app] in *.
    + destruct Hprov as (Hk3 & Hns & Hnm & Hch).
      rewrite provider_view_path; try done.
      apply forallb_dot_path. by apply child_segments_dot.
    + cbn [path]. by rewrite provider_view_empty.
  - destruct prov as [[[[k3 ns] ty] nm]|]; cbn [app] in *.
    + destruct Hprov as (Hk3 & Hns & Hnm & Hch).
      pose proof Hs as Hs'.
      apply Forall_cons in Hs as [Hs3 Hs]. apply Forall_cons in Hs as [Hs4 Hs].
      rewrite resource_group_view_path by (done || by eapply same_word_ascii).
      rewrite same_word_providers by done. cbn [andb].
      rewrite provider_view_path; try done.
      apply forallb_dot_path. by apply child_segments_dot.
    + cbn [path]. by rewrite resource_group_view_empty, provider_view_empty.
Qed.

Lemma provider_segments_parts l :
  provider_segments_ok l = true →
  ∃ prov ch,
    l = match prov with
        | Some (kw, ns, ty, nm) => [kw; ns; ty; nm] ++ ch
        | None => []
        end ∧
    match prov with
    | Some (kw, ns, ty, nm) =>
        same_word kw "providers" = true ∧ nonempty ns = true ∧ nonempty nm = true ∧
        child_segments_ok ch = true
    | None => ch = []
    end.
Proof.
  destruct l as [|kw [|ns [|ty [|nm ch]]]]; try done.
  - intros _. by exists None, [].
  - cbn. intros H. apply andb_prop in H as [H Hch]. apply andb_prop in H as [H Hnm].
    apply andb_prop in H as [Hkw Hns].
    by exists (Some (kw, ns, ty, nm)), ch.
Qed.

(** A well-formed identifier is the text of its parts. *)
Lemma well_formed_parts x :
  well_formed x = true → ∃ w, parts_ok w ∧ x = path (parts_segments w).
Proof.
  unfold well_formed. intros Hwf.
  pose proof (split_join x) as Hx. pose proof (split_not_slash x) as Hs.
  destruct (Str.split "/" x) as [|[|] [|k1 [|sub rest]]]; try done.
  rewrite join_path, app_nil_l in Hx.
  apply Forall_cons in Hs as [_ Hs].
  apply andb_prop in Hwf as [Hwf Hrest]. apply andb_prop in Hwf as [Hk1 Hsub].
  assert (∀ rg,
    match rg with Some (kw, g) => same_word kw "resourceGroups" = true ∧ nonempty g = true
                | None => True end →
    ∀ l, provider_segments_ok l = true →
    rest = match rg with Some (kw, g) => [kw; g] | None => [] end ++ l →
    ∃ w, parts_ok w ∧ x = path (parts_segments w)) as Hbuild.
  { intros rg Hrg l Hl ->. destruct (provider_segments_parts l Hl) as (prov & ch & -> & Hp).
    exists (Parts k1 sub rg prov ch). split; [|by rewrite <-Hx].
    unfold parts_ok, parts_segments.
    cbn [w_subscriptions w_subscription w_resource_group w_provider w_children].
    split_and!; done. }
  destruct rest as [|k2 [|g rest']].
  - by apply (Hbuild None I []).
  - by apply (Hbuild None I [k2]).
  - destruct (same_word k2 "resourceGroups") eqn:Hk2.
    + apply andb_prop in Hrest as [Hg Hrest].
      by apply (Hbuild (Some (k2, g)) (conj Hk2 Hg) rest').
    + by apply (Hbuild None I (k2 :: g :: rest')).
Qed.

Lemma child_tail_view_path ty nm l :
  Str.forallb not_slash ty = true → Str.forallb not_slash nm = true →
  nonempty nm = true →
  child_tail_view (path (ty :: nm :: l)) = Some (ty, nm, path l).
Proof.
  intros Hty Hnm Hne. unfold child_tail_view.
  cbn [path]. rewrite app_cons, app_nil_l, lit_match_slash. cbn [mbind option_bind].
  change (ty +:+ "/" +:+ nm +:+ path l) with (ty +:+ path (nm :: l)).
  rewrite take_while_path, drop_while_path by done.
  cbn [path]. rewrite app_cons, app_nil_l, lit_match_slash. cbn [mbind option_bind].
  by rewrite run1_path.
Qed.

Lemma child_tail_view_empty : child_tail_view "" = None.
Proof. reflexivity. Qed.

(** The child pattern at the head of well-formed child segments. *)
Lemma child_view_path kw ns tl :
  Forall (fun s => Str.forallb not_slash s = true) (kw :: ns :: tl) →
  child_segments_ok (kw :: ns :: tl) = true →
  Str.is_ascii kw = true →
  child_view (path (kw :: ns :: tl)) =
    match tl with
    | ty :: nm :: l' =>
        if same_word kw "providers"
        then Some (Child (Some ns) ty nm, path l')
        else Some (Child None kw ns, path tl)
    | _ => Some (Child None kw ns, path tl)
    end.
Proof.
  intros Hs Hok Hascii. pose proof Hs as Hs'.
  apply Forall_cons in Hs as [Hkw Hs]. apply Forall_cons in Hs as [Hns Hs].
  cbn [child_segments_ok] in Hok.
  apply andb_prop in Hok as [Hok Htl]. apply andb_prop in Hok as [Hok _].
  apply andb_prop in Hok as [Hne _].
  unfold child_view.
  change "/providers/" with ("/" +:+ "providers" +:+ "/").
  rewrite lit_match_keyword by done.
  rewrite (child_tail_view_path kw ns tl) by done. cbn [mbind option_bind].
  destruct (same_word kw "providers"); cbn [mbind option_bind].
  - rewrite run1_path by done. cbn [mbind option_bind].
    destruct tl as [|ty [|nm l']]; [done|done|].
    apply Forall_cons in Hs as [Hty Hs]. apply Forall_cons in Hs as [Hnm Hs].
    cbn [child_segments_ok] in Htl.
    apply andb_prop in Htl as [Htl _]. apply andb_prop in Htl as [Htl _].
    apply andb_prop in Htl as [Hne' _].
    by rewrite child_tail_view_path.
  - by destruct tl as [|ty [|nm l']].
Qed.

Lemma scan_children_skip a b :
  scan_children (a +:+ b) (String.length a) = scan_children b 0.
Proof. induction a as [|c a IH]; [done|]. rewrite app_cons. cbn. apply IH. Qed.

Lemma scan_children_step consumed rest c :
  child_view (String "/" (consumed +:+ rest)) = Some (c, rest) →
  scan_children (String "/" (consumed +:+ rest)) 0 =
    (c, rest) :: scan_children rest 0.
Proof.
  intros H. cbn [scan_children]. rewrite H. cbn [snd]. f_equal.
  replace (pred (String.length (String "/" (consumed +:+ rest)) - String.length rest))
    with (String.length consumed).
  - apply scan_children_skip.
  - cbn [String.length]. rewrite length_app. lia.
Qed.

Lemma path_cons2 a b l :
  path (a :: b :: l) = String "/" ((a +:+ "/" +:+ b) +:+ path l).
Proof. cbn [path]. by rewrite app_cons, app_nil_l, !app_assoc. Qed.

Lemma path_cons4 a b c d l :
  path (a :: b :: c :: d :: l) =
    String "/" ((a +:+ "/" +:+ b +:+ "/" +:+ c +:+ "/" +:+ d) +:+ path l).
Proof. cbn [path]. by rewrite app_cons, app_nil_l, !app_assoc. Qed.

(** [finditer] on well-formed child segments. *)
Lemma scan_children_path n : ∀ l,
  length l ≤ n →
  Forall (fun s => Str.forallb not_slash s = true) l →
  child_segments_ok l = true →
  Forall (fun s => Str.is_ascii s = true) l →
  (scan_children (path l) 0).*1 = group_children l.
Proof.
  induction n as [|n IH]; intros l Hn Hs Hok Hascii.
  { destruct l; [reflexivity|simpl in Hn; lia]. }
  destruct l as [|kw [|ns tl]]; [reflexivity|done|].
  apply Forall_cons in Hascii as [Hkwa Hascii].
  apply Forall_cons in Hascii as [_ Hascii].
  pose proof (child_view_path kw ns tl Hs Hok Hkwa) as Hview.
  pose proof Hs as Hs'.
  apply Forall_cons in Hs' as [Hkw Hs']. apply Forall_cons in Hs' as [Hns Htls].
  assert (child_segments_ok tl = true) as Htl.
  { cbn [child_segments_ok] in Hok. by apply andb_prop in Hok as [_ ?]. }
  cbn [group_children].
  destruct tl as [|ty [|nm l']].
  - rewrite path_cons2 in *. by rewrite (scan_children_step _ _ _ Hview).
  - done.
  - destruct (same_word kw "providers").
    + rewrite path_cons4 in *.
      rewrite (scan_children_step _ _ _ Hview). cbn [fmap list_fmap fst]. f_equal.
      apply IH.
      * simpl in Hn. lia.
      * apply Forall_cons in Htls as [_ Htls]. by apply Forall_cons in Htls as [_ ?].
      * cbn [child_segments_ok] in Htl. by apply andb_prop in Htl as [_ ?].
      * apply Forall_cons in Hascii as [_ Hascii]. by apply Forall_cons in Hascii as [_ ?].
    + rewrite (path_cons2 kw ns) in *.
      rewrite (scan_children_step _ _ _ Hview). cbn [fmap list_fmap fst]. f_equal.
      apply IH; [simpl in Hn; simpl; lia|done..].
Qed.

Lemma same_word_lower a b : same_word a b = true → Str.lower a = Str.lower b.
Proof. unfold same_word. by intros ?%bool_decide_eq_true_1. Qed.

(** Regrouping the child segments changes the spelling of keywords only. *)
Lemma lower_render_children n : ∀ l,
  length l ≤ n → child_segments_ok l = true →
  Str.lower (render_children (group_children l)) = Str.lower (path l).
Proof.
  induction n as [|n IH]; intros l Hn Hok.
  { destruct l; [reflexivity|simpl in Hn; lia]. }
  destruct l as [|kw [|ns tl]]; [reflexivity|done|].
  assert (child_segments_ok tl = true) as Htl.
  { cbn [child_segments_ok] in Hok. by apply andb_prop in Hok as [_ ?]. }
  cbn [group_children]. destruct tl as [|ty [|nm l']].
  - cbn [render_children path]. unfold render_child. cbn [c_namespace c_type c_name].
    by rewrite !app_nil_l, !app_nil_r.
  - done.
  - destruct (same_word kw "providers") eqn:Hkw.
    + cbn [render_children path]. unfold render_child. cbn [c_namespace c_type c_name].
      rewrite !app_assoc, !lower_app. rewrite IH.
      * apply same_word_lower in Hkw. rewrite Hkw. reflexivity.
      * simpl in Hn. lia.
      * cbn [child_segments_ok] in Htl. by apply andb_prop in Htl as [_ ?].
    + cbn [render_children]. unfold render_child at 1. cbn [c_namespace c_type c_name].
      change (path (kw :: ns :: ty :: nm :: l'))
        with ("/" +:+ kw +:+ "/" +:+ ns +:+ path (ty :: nm :: l')).
      rewrite !app_assoc, !lower_app, app_nil_l. rewrite IH; [done| |done].
      simpl in Hn. simpl. lia.
Qed.

Lemma found_children_parts w :
  parts_ok w → Forall (fun s => Str.is_ascii s = true) (w_children w) →
  (found_children (parts_view w)).*1 = group_children (w_children w).
Proof.
  intros (Hs & _ & _ & _ & Hprov) Hascii.
  unfold found_children, children_text, parts_view.
  cbn [v_provider]. unfold parts_segments in Hs.
  destruct (w_provider w) as [[[[kw ns] ty] nm]|].
  - cbn [fmap option_fmap option_map p_children default].
    destruct Hprov as (_ & _ & _ & Hch).
    apply (scan_children_path (length (w_children w))); [done| |done|done].
    apply Forall_app in Hs as [_ Hs]. apply Forall_app in Hs as [_ Hs].
    by apply Forall_app in Hs as [_ Hs].
  - rewrite Hprov. reflexivity.
Qed.

Lemma is_ascii_app s t :
  Str.is_ascii (s +:+ t) = Str.is_ascii s && Str.is_ascii t.
Proof. apply forallb_app. Qed.

Lemma is_ascii_path l :
  Str.is_ascii (path l) = true → Forall (fun s => Str.is_ascii s = true) l.
Proof.
  induction l as [|s l IH]; [by constructor|]. cbn [path].
  rewrite !is_ascii_app. intros [_ [Hs Hl]%andb_prop]%andb_prop.
  constructor; [done|by apply IH].
Qed.

(** The child segments of an ASCII identifier. *)
Lemma ascii_children w :
  parts_ok w → Str.is_ascii (path (parts_segments w)) = true →
  Forall (fun s => Str.is_ascii s = true) (w_children w).
Proof.
  intros (_ & _ & _ & _ & Hprov) Hs%is_ascii_path. unfold parts_segments in Hs.
  destruct (w_provider w) as [[[[kw ns] ty] nm]|]; [|by rewrite Hprov].
  apply Forall_app in Hs as [_ Hs]. apply Forall_app in Hs as [_ Hs].
  by apply Forall_app in Hs as [_ Hs].
Qed.

(** The canonical text of well-formed parts is their text up to case. *)
Lemma lower_canonical_parts w :
  parts_ok w →
  Str.lower (canonical (parts_view w) (group_children (w_children w))) =
    Str.lower (path (parts_segments w)).
Proof.
  intros (_ & Hk1 & _ & Hrg & Hprov).
  destruct w as [k1 sub rg prov ch]. unfold canonical, parts_view, parts_segments.
  cbn [w_subscriptions w_subscription w_resource_group w_provider w_children
       v_subscription v_resource_group v_provider] in *.
  apply same_word_lower in Hk1.
  assert (∀ a b l, path (a :: b :: l) = "/" +:+ a +:+ "/" +:+ b +:+ path l) as Hp2
    by done.
  cbn [app]. rewrite Hp2.
  rewrite !lower_app, Hk1. change (Str.lower "/subscriptions/")
    with (Str.lower "/" +:+ Str.lower "subscriptions" +:+ Str.lower "/").
  rewrite !app_assoc. do 4 f_equal.
  destruct rg as [[k2 g]|]; cbn [fmap option_fmap option_map snd app].
  - destruct Hrg as [Hk2%same_word_lower _]. rewrite Hp2, !lower_app, Hk2.
    change (Str.lower "/resourceGroups/")
      with (Str.lower "/" +:+ Str.lower "resourceGroups" +:+ Str.lower "/").
    rewrite !app_assoc. do 4 f_equal.
    destruct prov as [[[[k3 ns] ty] nm]|]; [|done].
    destruct Hprov as (Hk3%same_word_lower & _ & _ & Hch). cbn [app].
    cbn [p_namespace p_type p_name]. rewrite !Hp2, !lower_app, Hk3.
    rewrite (lower_render_children (length ch)) by done.
    change (Str.lower "/providers/")
      with (Str.lower "/" +:+ Str.lower "providers" +:+ Str.lower "/").
    by rewrite !app_assoc.
  - rewrite app_nil_l.
    destruct prov as [[[[k3 ns] ty] nm]|]; [|done].
    destruct Hprov as (Hk3%same_word_lower & _ & _ & Hch). cbn [app].
    cbn [p_namespace p_type p_name]. rewrite !Hp2, !lower_app, Hk3.
    rewrite (lower_render_children (length ch)) by done.
    change (Str.lower "/providers/")
      with (Str.lower "/" +:+ Str.lower "providers" +:+ Str.lower "/").
    by rewrite !app_assoc.
Qed.

Lemma path_not_empty s l : path (s :: l) ≠ "".
Proof. done. Qed.




Lemma path_app l1 l2 : path (l1 ++ l2) = path l1 +:+ path l2.
Proof.
  induction l1 as [|s l1 IH]; [done|]. cbn [app path]. by rewrite IH, !app_assoc.
Qed.

Lemma path_flatten_children cs : path (flatten_children cs) = render_children cs.
Proof.
  induction cs as [|c cs IH]; [done|]. cbn [flatten_children render_children].
  rewrite path_app, IH. f_equal. unfold render_child.
  destruct (c_namespace c); cbn [path]; by rewrite ?app_nil_r, ?app_assoc.
Qed.

(** The regrouped segments are well-formed child segments again, and the
    child pattern finds the same children in them. *)
Lemma regroup_children n : ∀ l,
  length l ≤ n →
  Forall (fun s => Str.forallb not_slash s = true) l →
  child_segments_ok l = true →
  Forall (fun s => Str.forallb not_slash s = true)
    (flatten_children (group_children l)) ∧
  child_segments_ok (flatten_children (group_children l)) = true ∧
  group_children (flatten_children (group_children l)) = group_children l ∧
  (l ≠ [] → ∃ a b l'', flatten_children (group_children l) = a :: b :: l'').
Proof.
  induction n as [|n IH]; intros l Hn Hs Hok.
  { destruct l; [by split_and!|simpl in Hn; lia]. }
  destruct l as [|kw [|ns tl]]; [by split_and!|done|].
  pose proof Hs as Hs'.
  apply Forall_cons in Hs' as [Hkw Hs']. apply Forall_cons in Hs' as [Hns Htls].
  pose proof Hok as Hok'. cbn [child_segments_ok] in Hok'.
  apply andb_prop in Hok' as [Hok' Htl]. apply andb_prop in Hok' as [Hok' Hdns].
  apply andb_prop in Hok' as [Hne Hdkw].
  cbn [group_children]. destruct tl as [|ty [|nm l']].
  - cbn [flatten_children c_namespace c_type c_name app group_children].
    split_and!; [done..|]. intros _. by eexists _, _, _.
  - done.
  - pose proof Htls as Htls'.
    apply Forall_cons in Htls' as [Hty Htls']. apply Forall_cons in Htls' as [Hnm Hl's].
    pose proof Htl as Htl'. cbn [child_segments_ok] in Htl'.
    apply andb_prop in Htl' as [Htl' Hl']. apply andb_prop in Htl' as [Htl' Hdnm].
    apply andb_prop in Htl' as [Hne' Hdty].
    destruct (same_word kw "providers") eqn:Hw.
    + destruct (IH l') as (H1 & H2 & H3 & _); [simpl in Hn; lia|done..|].
      cbn [flatten_children c_namespace c_type c_name app].
      split_and!.
      * by repeat constructor.
      * cbn [child_segments_ok]. by rewrite Hne, Hdns, Hne', Hdty, Hdnm, H2.
      * cbn [group_children].
        change (same_word "providers" "providers") with true. cbn match.
        by rewrite H3.
      * intros _. by eexists _, _, _.
    + destruct (IH (ty :: nm :: l')) as (H1 & H2 & H3 & H4);
        [simpl in Hn; simpl; lia|done..|].
      destruct H4 as (a & b & l'' & Hfl); [done|].
      cbn [flatten_children c_namespace c_type c_name app].
      split_and!.
      * by repeat constructor.
      * cbn [child_segments_ok]. by rewrite Hne, Hdkw, Hdns, H2.
      * rewrite Hfl in *. cbn [group_children]. rewrite Hw.
        cbn [group_children] in H3. by rewrite H3.
      * intros _. by eexists _, _, _.
Qed.

Lemma canonical_parts_ok w : parts_ok w → parts_ok (canonical_parts w).
Proof.
  intros (Hs & Hk1 & Hsub & Hrg & Hprov).
  destruct w as [k1 sub rg prov ch].
  unfold parts_ok, canonical_parts, parts_segments in *.
  cbn [w_subscriptions w_subscription w_resource_group w_provider w_children] in *.
  cbn [app] in Hs. apply Forall_cons in Hs as [Hs1 Hs]. apply Forall_cons in Hs as [Hs2 Hs].
  apply Forall_app in Hs as [Hs3 Hs4].
  split_and!; try done.
  - cbn [app]. constructor; [done|]. constructor; [done|].
    apply Forall_app. split.
    + destruct rg as [[k2 g]|]; [|done].
      apply Forall_cons in Hs3 as [_ Hs3]. by constructor.
    + destruct prov as [[[[k3 ns] ty] nm]|].
      * destruct Hprov as (_ & _ & _ & Hch).
        apply Forall_cons in Hs4 as [_ Hs4]. apply Forall_cons in Hs4 as [? Hs4].
        apply Forall_cons in Hs4 as [? Hs4]. apply Forall_cons in Hs4 as [? Hs4].
        cbn [app]. constructor; [done|]. repeat (constructor; [done|]).
        by apply (regroup_children (length ch)).
      * subst ch. done.
  - destruct rg as [[k2 g]|]; [|done]. by destruct Hrg.
  - destruct prov as [[[[k3 ns] ty] nm]|].
    + destruct Hprov as (_ & ? & ? & Hch). split_and!; try done.
      do 4 (apply Forall_cons in Hs4 as [_ Hs4]).
      by apply (regroup_children (length ch)).
    + by subst ch.
Qed.

Lemma canonical_parts_text w :
  parts_ok w →
  canonical (parts_view w) (group_children (w_children w)) =
    path (parts_segments (canonical_parts w)).
Proof.
  intros (_ & _ & _ & _ & Hprov). destruct w as [k1 sub rg prov ch].
  unfold canonical, parts_view, canonical_parts, parts_segments.
  cbn [w_subscriptions w_subscription w_resource_group w_provider w_children
       v_subscription v_resource_group v_provider] in *.
  cbn [app path].
  destruct rg as [[k2 g]|], prov as [[[[k3 ns] ty] nm]|];
    cbn [fmap option_fmap option_map snd app path p_namespace p_type p_name];
    rewrite ?path_flatten_children, ?app_nil_r, ?app_assoc; done.
Qed.

Lemma canonical_parts_children w :
  parts_ok w →
  group_children (w_children (canonical_parts w)) = group_children (w_children w).
Proof.
  intros (Hs & _ & _ & _ & Hprov). unfold canonical_parts. cbn [w_children].
  unfold parts_segments in Hs.
  destruct (w_provider w) as [[[[k3 ns] ty] nm]|].
  - destruct Hprov as (_ & _ & _ & Hch).
    apply Forall_app in Hs as [_ Hs]. apply Forall_app in Hs as [_ Hs].
    apply Forall_app in Hs as [_ Hs].
    by apply (regroup_children (length (w_children w))).
  - by rewrite Hprov.
Qed.

Lemma range_cases (P : nat → Prop) n :
  (∀ j, P j ∨ ¬ P j) →
  (∃ j, 1 ≤ j ≤ n ∧ P j) ∨ (∀ j, 1 ≤ j ≤ n → ¬ P j).
Proof.
  intros Hdec. induction n as [|n [(j & Hj & HP)|IH]].
  - right. intros; lia.
  - left. exists j. split; [lia|done].
  - destruct (Hdec (S n)) as [HP|HP].
    + left. exists (S n). split; [lia|done].
    + right. intros j Hj. destruct (decide (j = S n)) as [->|]; [done|].
      apply IH. lia.
Qed.

Lemma is_child_key_cases k j : is_child_key k j ∨ ¬ is_child_key k j.
Proof.
  unfold is_child_key.
  destruct (decide (k = "child_namespace_" +:+ pretty j)); [by auto|].
  destruct (decide (k = "child_type_" +:+ pretty j)); [by auto|].
  destruct (decide (k = "child_name_" +:+ pretty j)); [by auto|].
  right. by intros [?|[?|?]].
Qed.

Lemma parent_key_cases k n : parent_key k n ∨ ¬ parent_key k n.
Proof.
  unfold parent_key. destruct (decide (k = "resource_parent")); [by auto|].
  destruct (range_cases (fun i => k = "child_parent_" +:+ pretty i) n)
    as [(i & Hi & ->)|Hno].
  - intros j. destruct (decide (k = "child_parent_" +:+ pretty j)); auto.
  - left. right. by exists i.
  - right. intros [?|(i & Hi & Hk)]; [done|]. by apply (Hno i).
Qed.




Lemma parse_parts w :
  parts_ok w →
  ∃ kwargs,
    _populate_alternate_kwargs (collected (parts_view w)) = Ok kwargs ∧
    parse_resource_id (path (parts_segments w)) = Ok (drop_none kwargs).
Proof.
  intros Hw. rewrite parse_resource_id_unfold, (armid_view_parts w Hw).
  rewrite bool_decide_eq_false_2 by (by destruct w).
  rewrite parsed_collected.
  destruct (populate_spec _ _ (collected_ready (parts_view w))) as (kw & Hkw & _).
  exists kw. by rewrite Hkw.
Qed.



Lemma canonical_parts_ascii w :
  parts_ok w → Str.is_ascii (path (parts_segments w)) = true →
  Str.is_ascii (path (parts_segments (canonical_parts w))) = true.
Proof.
  intros Hw Hascii.
  by rewrite <-canonical_parts_text, <-lower_is_ascii, lower_canonical_parts,
    lower_is_ascii.
Qed.




Lemma lit_match_consumed ic text : ∀ s s',
  Re.lit_match ic text s = Some s' → ∃ c, s = c +:+ s'.
Proof.
  induction text as [|a text IH]; intros s s' H.
  - injection H as ->. by exists "".
  - cbn [Re.lit_match] in H.
    destruct (Re.lit_char ic a s) as [s1|] eqn:E; [|done].
    apply lit_char_consumed in E as (v & -> & _).
    destruct (IH _ _ H) as (c & ->). exists (v +:+ c). by rewrite app_assoc.
Qed.

Lemma lit_match_split_ascii ic text : ∀ s s',
  Str.is_ascii text = true → Re.lit_match ic text s = Some s' →
  ∃ c, s = c +:+ s' ∧ ∀ s'', Re.lit_match ic text (c +:+ s'') = Some s''.
Proof.
  induction text as [|a text IH]; intros s s' Htext H.
  - injection H as ->. by exists "".
  - apply is_ascii_cons in Htext as [Ha Htext]. cbn [Re.lit_match] in H.
    destruct (Re.lit_char ic a s) as [s1|] eqn:E; [|done].
    apply lit_char_split in E as (v & -> & Hv); [|done].
    destruct (IH _ _ Htext H) as (c & -> & Hc). exists (v +:+ c).
    split; [by rewrite app_assoc|]. intros s''.
    cbn [Re.lit_match]. by rewrite app_assoc, Hv, Hc.
Qed.

(** What a literal has matched, it matches whatever follows. *)
Lemma lit_match_split ic text `{!AsciiText text} s s' :
  Re.lit_match ic text s = Some s' →
  ∃ c, s = c +:+ s' ∧ ∀ s'', Re.lit_match ic text (c +:+ s'') = Some s''.
Proof. by apply lit_match_split_ascii. Qed.

Lemma lit_match_slash_start text s s' :
  Re.lit_match true (String "/" text) s = Some s' → ∃ t, s = String "/" t.
Proof.
  cbn [Re.lit_match]. rewrite lit_char_slash.
  destruct s as [|c s]; [done|].
  destruct (Ascii.ascii_dec c "/") as [->|Hc]; [by eexists|].
  by destruct c as [[] [] [] [] [] [] [] []].
Qed.

Lemma run1_split p s r s' :
  run1 p s = Some (r, s') →
  s = r +:+ s' ∧ Str.forallb p r = true ∧ r ≠ "" ∧
  (s' = "" ∨ ∃ c t, s' = String c t ∧ p c = false).
Proof.
  unfold run1. case_bool_decide as Hr; [done|]. intros [= <- <-].
  split_and!; [by rewrite take_drop_while|apply forallb_take_while|done|].
  destruct (drop_while p s) as [|c t] eqn:E; [by left|].
  right. exists c, t. split; [done|]. by eapply drop_while_head.
Qed.

Lemma run1_app p r s :
  Str.forallb p r = true → r ≠ "" →
  (s = "" ∨ ∃ c t, s = String c t ∧ p c = false) →
  run1 p (r +:+ s) = Some (r, s).
Proof.
  intros Hr Hne [->|(c & t & -> & Hc)]; unfold run1.
  - rewrite app_nil_r, take_while_all, drop_while_all by done.
    by rewrite bool_decide_eq_false_2.
  - rewrite take_while_app, drop_while_app by done.
    by rewrite bool_decide_eq_false_2.
Qed.

Lemma run1_prefix_none p a b : run1 p (a +:+ b) = None → run1 p a = None.
Proof.
  unfold run1. destruct a as [|c a]; [done|]. rewrite app_cons. cbn.
  by destruct (p c).
Qed.

Lemma slash_start_not_slash s :
  slash_start s → s = "" ∨ ∃ c t, s = String c t ∧ not_slash c = false.
Proof. intros [->|[t ->]]; [by left|right]. by eexists _, _. Qed.

Lemma slash_start_app_l c s : slash_start (String "/" c +:+ s).
Proof. right. by eexists. Qed.

Lemma resource_group_view_split s g s' :
  resource_group_view s = Some (g, s') →
  ∃ c, s = String "/" c +:+ s' ∧
       ∀ s'', slash_start s'' →
         resource_group_view (String "/" c +:+ s'') = Some (g, s'').
Proof.
  unfold resource_group_view.
  destruct (Re.lit_match true "/resourceGroups/" s) as [s1|] eqn:Hlit; [|done].
  cbn [mbind option_bind]. intros (-> & Hg & Hne & _)%run1_split.
  destruct (lit_match_slash_start _ _ _ Hlit) as [t Ht].
  destruct (lit_match_split _ _ _ _ Hlit) as (c & Hc & Hfix).
  destruct c as [|x c]; [by specialize (Hfix "")|].
  rewrite Ht in Hc. rewrite app_cons in Hc. injection Hc as <- ->.
  exists (c +:+ g). split; [by rewrite !app_cons, !app_assoc|].
  intros s'' Hs''. rewrite !app_cons, app_assoc, <-app_cons, Hfix.
  cbn [mbind option_bind]. apply run1_app; [done..|].
  by apply slash_start_not_slash.
Qed.

Lemma resource_group_view_prefix_none a b :
  resource_group_view (a +:+ b) = None → resource_group_view a = None.
Proof.
  unfold resource_group_view.
  destruct (Re.lit_match true "/resourceGroups/" a) as [a'|] eqn:Ha; [|done].
  destruct (lit_match_split _ _ _ _ Ha) as (c & -> & Hfix).
  rewrite app_assoc, Hfix. cbn [mbind option_bind]. apply run1_prefix_none.
Qed.

Lemma provider_view_split s p s' :
  provider_view s = Some (p, s') →
  ∃ c, s = String "/" c +:+ s' ∧ provider_view (String "/" c) = Some (p, "").
Proof.
  unfold provider_view.
  destruct (Re.lit_match true "/providers/" s) as [s1|] eqn:Hlit; [|done].
  cbn [mbind option_bind].
  destruct (run1 not_slash s1) as [[ns s2]|] eqn:Hns; [|done].
  cbn [mbind option_bind]. rewrite lit_match_slash.
  destruct s2 as [|x s2]; [done|].
  destruct (Ascii.ascii_dec x "/") as [->|Hx];
    [|by destruct x as [[] [] [] [] [] [] [] []]].
  cbn [mbind option_bind]. rewrite lit_match_slash.
  destruct (drop_while not_slash s2) as [|x s3] eqn:Hty; [done|].
  destruct (Ascii.ascii_dec x "/") as [->|Hx];
    [|by destruct x as [[] [] [] [] [] [] [] []]].
  cbn [mbind option_bind].
  destruct (run1 not_slash s3) as [[nm s4]|] eqn:Hnm; [|done].
  cbn [mbind option_bind]. intros [= <- <-].
  apply run1_split in Hns as (-> & Hns1 & Hns2 & _).
  apply run1_split in Hnm as (-> & Hnm1 & Hnm2 & Hs4).
  destruct (lit_match_slash_start _ _ _ Hlit) as [t Ht].
  destruct (lit_match_split _ _ _ _ Hlit) as (c & Hc & Hfix).
  destruct c as [|x c]; [by specialize (Hfix "")|].
  rewrite Ht in Hc. rewrite app_cons in Hc. injection Hc as <- ->.
  pose proof (take_drop_while not_slash s2) as Hs2. rewrite Hty in Hs2.
  pose proof (take_drop_while dot s4) as Hs4'.
  set (ty := take_while not_slash s2) in *. set (ch := take_while dot s4) in *.
  exists (c +:+ ns +:+ "/" +:+ ty +:+ "/" +:+ nm +:+ ch). split.
  { rewrite Ht, <-Hs2. rewrite <-Hs4' at 1.
    by repeat (rewrite ?app_cons, ?app_nil_l, ?app_assoc). }
  rewrite <-app_cons, Hfix. cbn [mbind option_bind].
  rewrite run1_app; [|done..|right; by eexists _, _].
  cbn [mbind option_bind]. rewrite app_cons, app_nil_l, lit_match_slash.
  cbn [mbind option_bind].
  assert (Str.forallb not_slash ty = true) as Hty' by apply forallb_take_while.
  change ("/" +:+ nm +:+ ch) with (String "/" (nm +:+ ch)).
  rewrite take_while_app, drop_while_app by done.
  rewrite lit_match_slash. cbn [mbind option_bind].
  assert (ch = "" ∨ ∃ c t, ch = String c t ∧ not_slash c = false) as Hch.
  { subst ch. destruct Hs4 as [->|(x & t' & -> & Hx)]; [by left|].
    cbn. destruct (dot x); [right|by left]. by eexists _, _. }
  rewrite run1_app by done. cbn [mbind option_bind].
  assert (Str.forallb dot ch = true) as Hdot by apply forallb_take_while.
  by rewrite take_while_all, drop_while_all.
Qed.

Lemma provider_view_slash_start s p s' :
  provider_view s = Some (p, s') → slash_start s.
Proof.
  intros (c & -> & _)%provider_view_split. apply slash_start_app_l.
Qed.

(** The root pattern reads the text it matched the same way when nothing
    follows it. *)
Lemma armid_view_split s v :
  armid_view s = Some v →
  ∃ c, s = c +:+ v_rest v ∧
       armid_view c =
         Some (RootView (v_subscription v) (v_resource_group v) (v_provider v) "").
Proof.
  unfold armid_view.
  destruct (Re.lit_match true "/subscriptions/" s) as [s1|] eqn:Hlit; [|done].
  cbn [mbind option_bind].
  destruct (run1 not_slash s1) as [[sub s2]|] eqn:Hsub; [|done].
  cbn [mbind option_bind].
  destruct (lit_match_split _ _ _ _ Hlit) as (c0 & -> & Hfix).
  apply run1_split in Hsub as (-> & Hsub1 & Hsub2 & Hs2).
  assert (∀ t, slash_start t → run1 not_slash (sub +:+ t) = Some (sub, t)) as Hrun.
  { intros t Ht. apply run1_app; [done..|]. by apply slash_start_not_slash. }
  destruct (resource_group_view s2) as [[g s3]|] eqn:Hrg.
  - destruct (resource_group_view_split _ _ _ Hrg) as (c1 & -> & Hrg').
    destruct (provider_view s3) as [[p s4]|] eqn:Hp; intros [= <-];
      cbn [v_rest v_subscription v_resource_group v_provider].
    + destruct (provider_view_split _ _ _ Hp) as (c2 & -> & Hp').
      exists (c0 +:+ sub +:+ String "/" c1 +:+ String "/" c2).
      split; [by rewrite !app_assoc|].
      rewrite Hfix. cbn [mbind option_bind].
      rewrite Hrun by (right; eexists; reflexivity). cbn [mbind option_bind].
      rewrite Hrg' by (right; eexists; reflexivity). by rewrite Hp'.
    + exists (c0 +:+ sub +:+ String "/" c1). split; [by rewrite !app_assoc|].
      rewrite Hfix. cbn [mbind option_bind].
      rewrite <-(app_nil_r (String "/" c1)).
      rewrite Hrun by (right; eexists; reflexivity). cbn [mbind option_bind].
      rewrite Hrg' by (by left). by rewrite provider_view_empty.
  - destruct (provider_view s2) as [[p s4]|] eqn:Hp; intros [= <-];
      cbn [v_rest v_subscription v_resource_group v_provider].
    + destruct (provider_view_split _ _ _ Hp) as (c2 & -> & Hp').
      exists (c0 +:+ sub +:+ String "/" c2). split; [by rewrite !app_assoc|].
      rewrite Hfix. cbn [mbind option_bind].
      rewrite <-(app_nil_r (String "/" c2)).
      rewrite Hrun by (right; eexists; reflexivity). cbn [mbind option_bind].
      rewrite app_nil_r.
      rewrite (resource_group_view_prefix_none _ _ Hrg). by rewrite Hp'.
    + exists (c0 +:+ sub). split; [by rewrite !app_assoc|].
      rewrite Hfix. cbn [mbind option_bind].
      pose proof (Hrun "" (or_introl eq_refl)) as Hrun0.
      rewrite app_nil_r in Hrun0. rewrite Hrun0. cbn [mbind option_bind].
      by rewrite resource_group_view_empty, provider_view_empty.
Qed.

Lemma armid_view_nonempty s v : armid_view s = Some v → s ≠ "".
Proof. by intros H ->. Qed.

Lemma parsed_rest v :
  parsed (RootView (v_subscription v) (v_resource_group v) (v_provider v) "") =
    parsed v.
Proof. by destruct v. Qed.

Lemma populated_subscription v kwargs :
  _populate_alternate_kwargs (collected v) = Ok kwargs →
  drop_none kwargs !! "subscription" = Some (VStr (v_subscription v)).
Proof.
  intros Hkw.
  destruct (populate_spec _ _ (collected_ready v)) as (kw & Hq & Hother & _).
  rewrite Hkw in Hq. injection Hq as <-.
  rewrite lookup_drop_none_eq, Hother
    by (done || intros [?|(? & _ & ?)]; done).
  by rewrite collected_other
    by (done || by apply not_child_key_literal; repeat constructor).
Qed.

(** C10. When the root pattern matches a head of the input, the parse is
    the parse of that head: the text after it is dropped. The result holds
    the subscription, so it is not the fallback [{"name": rid}], and no
    error is raised. [/subscriptions/S/junk] parses to the subscription
    alone. *)
Theorem trailing_text_discarded :
  (∀ rid mo,
     Re.re_match _ARMID_RE rid = Some mo →
     let matched := Str.take (String.length rid - String.length (Re.rest mo)) rid in
     parse_resource_id rid = parse_resource_id matched ∧
     ∃ m, parse_resource_id rid = Ok m ∧
          m !! "subscription" = VStr <$> Re.groups mo !! "subscription" ∧
          is_Some (m !! "subscription") ∧
          m ≠ {["name" := VStr rid]}) ∧
  parse_resource_id "/subscriptions/S/junk" = Ok {["subscription" := VStr "S"]}.
Proof.
  split; [|vm_compute; reflexivity].
  intros rid mo. rewrite armid_match_view.
  destruct (armid_view rid) as [v|] eqn:Hv; [|done].
  cbn [fmap option_fmap option_map]. intros [= <-]. cbn [Re.rest Re.groups].
  destruct (armid_view_split _ _ Hv) as (c & Hc & Hv').
  cbn zeta. split.
  - rewrite Hc, take_consumed, <-Hc.
    rewrite !parse_resource_id_unfold, Hv, Hv', parsed_rest.
    by rewrite !bool_decide_eq_false_2 by (by eapply armid_view_nonempty).
  - rewrite parse_resource_id_unfold, Hv, parsed_collected.
    rewrite bool_decide_eq_false_2 by (by eapply armid_view_nonempty).
    destruct (populate_spec _ _ (collected_ready v)) as (kw & Hkw & _).
    rewrite Hkw. cbn [mbind result_bind]. exists (drop_none kw).
    pose proof (populated_subscription v kw Hkw) as Hsub.
    split_and!; [done| |by rewrite Hsub|].
    + rewrite Hsub. by destruct v as [sub [g|] [p|] r].
    + intros Heq. rewrite Heq in Hsub. by rewrite lookup_singleton_ne in Hsub.
Qed.

Lemma trailing_text_discarded_witness :
  let rid := "/subscriptions/S/resourceGroups/G/junk/more" in
  let mo := Re.MatchObj
    (<["resource_group" := "G"]> (<["subscription" := "S"]> ∅)) "/junk/more" in
  parse_resource_id rid =
    parse_resource_id (Str.take (String.length rid - String.length (Re.rest mo)) rid) ∧
  ∃ m, parse_resource_id rid = Ok m ∧
       m !! "subscription" = VStr <$> Re.groups mo !! "subscription" ∧
       is_Some (m !! "subscription") ∧
       m ≠ {["name" := VStr rid]}.
Proof.
  intros rid mo.
  assert (Re.re_match _ARMID_RE rid = Some mo) as Hmo by (vm_compute; reflexivity).
  exact (proj1 trailing_text_discarded rid mo Hmo).
Defined.

(** What [_ARMNAME_RE.match] accepts. *)
Lemma armname_match_arm_name rname :
  is_Some (Re.re_match _ARMNAME_RE rname) ↔ arm_name rname.
Proof.
  unfold Re.re_match, Re.match_at, arm_name.
  cbn [Re.body Re.ignorecase _ARMNAME_RE Re.cat foldr Re.rmatch].
  rewrite Nat.eqb_refl, (rep_match_bounded armname_char); last first.
  { intros c t Hc. rewrite bool_decide_eq_false_2; [done|].
    intros [?|[= -> _]]; done. }
  split.
  - intros (b & rest & -> & Hb & Hn & Hrest). exists b. split; [|done].
    destruct (decide (rest = "" ∨ rest = String Str.LF "")) as [[->| ->]|H].
    + left. by rewrite app_nil_r.
    + by right.
    + rewrite bool_decide_eq_false_2 in Hrest by done. by destruct Hrest.
  - intros (b & Hs & Hb & Hn).
    assert (∃ t, rname = b +:+ t ∧ (t = "" ∨ t = String Str.LF "")) as (t & -> & Ht).
    { destruct Hs as [->| ->]; [exists ""|by eauto]. by rewrite app_nil_r; eauto. }
    exists b, t. split_and!; [done|done|lia|lia|].
    by rewrite bool_decide_eq_true_2.
Qed.

(** X1. [is_valid_resource_name] accepts exactly the names of one to 260
    characters (code points, ASCII or not) outside [<>%&:?/], possibly
    followed by one line feed: for these it returns [True] whatever the
    exception type; for every other string it returns [False], or raises
    the exception type when one is given. *)
Theorem is_valid_resource_name_exact {T} (rname : string) :
  (arm_name rname →
     ∀ exception_type : option T,
       is_valid_resource_name rname exception_type = Returns (VBool true)) ∧
  (¬ arm_name rname →
     is_valid_resource_name (T := T) rname None = Returns (VBool false) ∧
     ∀ t : T, is_valid_resource_name rname (Some t) = Raises t).
Proof.
  unfold is_valid_resource_name. rewrite <-armname_match_arm_name.
  destruct (Re.re_match _ARMNAME_RE rname) as [m|].
  - split; [done|]. intros []. by eauto.
  - split; [by intros [? ?]|]. done.
Qed.

Lemma is_valid_resource_name_exact_witness :
  (∀ exception_type : option unit,
     is_valid_resource_name "my-vm_01" exception_type = Returns (VBool true)) ∧
  (is_valid_resource_name (T := unit) "a/b" None = Returns (VBool false) ∧
   ∀ t : unit, is_valid_resource_name "a/b" (Some t) = Raises t).
Proof.
  split.
  - refine (proj1 (is_valid_resource_name_exact "my-vm_01") _).
    exists "my-vm_01". split_and!; [by left|done|vm_compute; lia..].
  - refine (proj2 (is_valid_resource_name_exact "a/b") _).
    intros (b & Hs & Hb & _).
    destruct Hs as [<-|Hs]; [done|].
    destruct b as [|? [|? [|? b]]]; try done. by destruct b.
Defined.

(** ** The mapping [parse_resource_id] returns *)

Lemma parse_result_cases rid :
  (rid = "" ∧ parse_result rid = ∅) ∨
  (rid ≠ "" ∧ armid_view rid = None ∧ parse_result rid = {["name" := VStr rid]}) ∨
  (∃ v kwargs, armid_view rid = Some v ∧
     _populate_alternate_kwargs (collected v) = Ok kwargs ∧
     parse_result rid = drop_none kwargs).
Proof.
  unfold parse_result. rewrite parse_resource_id_unfold.
  case_bool_decide; [by left|]. destruct (armid_view rid) as [v|] eqn:E.
  - right; right. rewrite parsed_collected.
    destruct (populate_spec _ _ (collected_ready v)) as (kw & Hq & _).
    rewrite Hq. exists v, kw. done.
  - right; left. done.
Qed.

Lemma opt_value_str o : str_or_none (opt_value o).
Proof. destruct o; [right|left]; by eauto. Qed.

Lemma root_items_values v k x :
  (list_to_map (root_items v) : gmap string value) !! k = Some x →
  k ∈ ["subscription"; "resource_group"; "namespace"; "type"; "name"; "children"] ∧
  str_or_none x.
Proof.
  unfold root_items. cbn [list_to_map foldr uncurry fst snd].
  rewrite !lookup_insert. repeat case_decide; subst; intros [= <-];
    (split; [by repeat constructor|]); try apply opt_value_str.
  right. by eauto.
Qed.

Lemma collected_values v k x :
  collected v !! k = Some x → k ≠ "last_child_num" → str_or_none x.
Proof.
  intros Hk Hl.
  destruct (range_cases (is_child_key k) (length (found_children v))
              (is_child_key_cases k)) as [(j & Hj & Hkj)|Hno].
  - destruct (lookup_lt_is_Some_2 (found_children v) (pred j)) as [r Hr]; [lia|].
    destruct (collected_child v (pred j) r Hr) as (H1 & H2 & H3).
    replace (S (pred j)) with j in * by lia.
    destruct Hkj as [-> | [-> | ->]].
    + rewrite H1 in Hk. injection Hk as <-. apply opt_value_str.
    + rewrite H2 in Hk. injection Hk as <-. right. by eauto.
    + rewrite H3 in Hk. injection Hk as <-. right. by eauto.
  - unfold collected in Hk. rewrite lookup_insert_ne in Hk by done.
    rewrite for_children_lookup_other in Hk by
      (intros j Hj; apply Hno; cbn in Hj; lia).
    by apply root_items_values in Hk as [_ ?].
Qed.

Lemma collected_get_str v k :
  k ≠ "last_child_num" → str_or_none (dict_get (collected v) k).
Proof.
  intros Hl. unfold dict_get. destruct (collected v !! k) as [x|] eqn:E; [|by left].
  by apply (collected_values v k).
Qed.

Lemma py_or_str a b : str_or_none a → str_or_none b → str_or_none (py_or a b).
Proof. unfold py_or. by destruct (truthy a). Qed.

Lemma child_parent_not_child_key (i j : nat) :
  ¬ is_child_key ("child_parent_" +:+ pretty i) j.
Proof. intros [H|[H|H]]; by simplify_eq/=. Qed.

Lemma child_parent_inj (i j : nat) :
  "child_parent_" +:+ pretty i = "child_parent_" +:+ pretty j → i = j.
Proof. intros H. by simplify_eq/=. Qed.

Lemma populated_typed v kwargs k x :
  _populate_alternate_kwargs (collected v) = Ok kwargs →
  kwargs !! k = Some x → k ≠ "last_child_num" → str_or_none x.
Proof.
  intros Hq Hk Hl.
  destruct (populate_spec _ _ (collected_ready v))
    as (kw & Hq' & Hother & Hcp & Hrp & Hrns & Hrty & Hrnm).
  rewrite Hq in Hq'. injection Hq' as <-.
  set (n := length (found_children v)) in *.
  destruct (parent_key_cases k n) as [[->|(i & Hi & ->)]|Hnp].
  - rewrite Hrp in Hk. injection Hk as <-.
    destruct (truthy _); [right|left]; by eauto.
  - rewrite Hcp in Hk by done. injection Hk as <-. right. by eauto.
  - destruct (decide (k = "resource_namespace")) as [->|H1].
    { rewrite Hrns in Hk. by apply collected_values in Hk. }
    destruct (decide (k = "resource_type")) as [->|H2].
    { rewrite Hrty in Hk. injection Hk as <-.
      apply py_or_str; apply collected_get_str; [by destruct n|done]. }
    destruct (decide (k = "resource_name")) as [->|H3].
    { rewrite Hrnm in Hk. injection Hk as <-.
      apply py_or_str; apply collected_get_str; [by destruct n|done]. }
    rewrite Hother in Hk by done. by apply collected_values in Hk.
Qed.

Lemma populated_last_child_num v kwargs :
  _populate_alternate_kwargs (collected v) = Ok kwargs →
  kwargs !! "last_child_num" = Some (last_child_value (length (found_children v))).
Proof.
  intros Hq.
  destruct (populate_spec _ _ (collected_ready v)) as (kw & Hq' & Hother & _).
  rewrite Hq in Hq'. injection Hq' as <-.
  rewrite Hother, collected_last_child_num; try done.
  intros [?|(i & _ & ?)]; done.
Qed.

Lemma parse_result_typed rid k x :
  parse_result rid !! k = Some x →
  (k = "last_child_num" → ∃ n, x = VInt n ∧ 1 ≤ n) ∧
  (k ≠ "last_child_num" → ∃ s, x = VStr s).
Proof.
  intros Hk.
  destruct (parse_result_cases rid)
    as [[_ Hm]|[(_ & _ & Hm)|(v & kw & _ & Hq & Hm)]]; rewrite Hm in Hk.
  - done.
  - apply lookup_singleton_Some in Hk as [<- <-]. split; [done|by eauto].
  - apply lookup_drop_none in Hk as [Hk Hx]. split.
    + intros ->. rewrite (populated_last_child_num v) in Hk by done.
      injection Hk as <-. destruct (length (found_children v)) as [|n]; [done|].
      exists (S n). split; [done|lia].
    + intros Hl. by destruct (populated_typed v kw k x Hq Hk Hl) as [?|?].
Qed.

(** X2. The values of the mapping [parse_resource_id] returns are strings,
    but for [last_child_num], which is a positive integer, and it is the
    only integer: no entry is [None]. *)
Theorem parse_resource_id_values rid k x :
  parse_result rid !! k = Some x →
  match x with
  | VStr _ => k ≠ "last_child_num"
  | VInt n => k = "last_child_num" ∧ 1 ≤ n
  | _ => False
  end.
Proof.
  intros Hk. destruct (parse_result_typed rid k x Hk) as [H1 H2].
  destruct (decide (k = "last_child_num")) as [Hl|Hl].
  - destruct (H1 Hl) as (n & -> & Hn). done.
  - by destruct (H2 Hl) as (s & ->).
Qed.

Lemma parse_resource_id_values_witness :
  ("last_child_num" : string) = "last_child_num" ∧ 1 ≤ 2.
Proof.
  apply (parse_resource_id_values
           "/subscriptions/S/providers/NS/T/N/T1/N1/T2/N2" "last_child_num" (VInt 2)).
  vm_compute. reflexivity.
Defined.

Lemma populated_child_count v kwargs :
  _populate_alternate_kwargs (collected v) = Ok kwargs →
  child_count (drop_none kwargs) = length (found_children v).
Proof.
  intros Hq. unfold child_count.
  rewrite lookup_drop_none_eq, (populated_last_child_num v) by done.
  by destruct (length (found_children v)).
Qed.

Lemma child_tail_view_fields s ty nm s' :
  child_tail_view s = Some (ty, nm, s') →
  Str.forallb not_slash ty = true ∧ nm ≠ "" ∧ Str.forallb not_slash nm = true.
Proof.
  unfold child_tail_view.
  destruct (Re.lit_match true "/" s) as [s1|]; [|done]. cbn [mbind option_bind].
  destruct (Re.lit_match true "/" (drop_while not_slash s1)) as [s2|]; [|done].
  cbn [mbind option_bind].
  destruct (run1 not_slash s2) as [[nm' s3]|] eqn:E; [|done].
  cbn [mbind option_bind]. intros [= <- <- <-].
  apply run1_split in E as (_ & ? & ? & _).
  split_and!; try done. apply forallb_take_while.
Qed.

Lemma child_view_fields s c s' : child_view s = Some (c, s') → child_fields_ok c.
Proof.
  assert (∀ ns, match ns with
                | Some x => x ≠ "" ∧ Str.forallb not_slash x = true
                | None => True
                end →
          (ty_nm ← child_tail_view s; Some (Child ns ty_nm.1.1 ty_nm.1.2, ty_nm.2))
            = Some (c, s') → child_fields_ok c) as Htail.
  { intros ns Hns. destruct (child_tail_view s) as [[[ty nm] s3]|] eqn:E; [|done].
    cbn [mbind option_bind fst snd]. intros [= <- <-].
    apply child_tail_view_fields in E. by split. }
  unfold child_view.
  destruct (Re.lit_match true "/providers/" s) as [s1|] eqn:E1;
    cbn [mbind option_bind].
  - destruct (run1 not_slash s1) as [[ns s2]|] eqn:E2; cbn [mbind option_bind].
    + destruct (child_tail_view s2) as [[[ty nm] s3]|] eqn:E3;
        cbn [mbind option_bind].
      * intros [= <- <-]. apply child_tail_view_fields in E3.
        apply run1_split in E2 as (_ & ? & ? & _). by split.
      * intros H. apply (Htail None I).
        by destruct (child_tail_view s) as [[[ty nm] s3]|].
    + intros H. apply (Htail None I).
      by destruct (child_tail_view s) as [[[ty nm] s3]|].
  - intros H. apply (Htail None I).
    by destruct (child_tail_view s) as [[[ty nm] s3]|].
Qed.

Lemma scan_children_fields s : ∀ skip,
  Forall (fun r => child_fields_ok r.1) (scan_children s skip).
Proof.
  induction s as [|c s IH]; intros [|n]; cbn [scan_children]; try done.
  - destruct (child_view (String c s)) as [[ch s']|] eqn:E; [|by apply IH].
    constructor; [|by apply IH]. by apply child_view_fields in E.
Qed.

Lemma found_children_fields v i r :
  found_children v !! i = Some r → child_fields_ok r.1.
Proof.
  intros H. pose proof (scan_children_fields (children_text v) 0) as HF.
  rewrite Forall_lookup in HF. by apply (HF i).
Qed.

Lemma child_key_other k j n :
  is_child_key k j →
  ¬ parent_key k n ∧ k ≠ "resource_namespace" ∧ k ≠ "resource_type" ∧
  k ≠ "resource_name".
Proof. intros H. apply input_key_other. right. by exists j. Qed.

(** The entries of child level [S i] in the mapping returned. *)
Lemma populated_child v kwargs i r :
  _populate_alternate_kwargs (collected v) = Ok kwargs →
  found_children v !! i = Some r →
  drop_none kwargs !! ("child_namespace_" +:+ pretty (S i)) = VStr <$> c_namespace r.1 ∧
  drop_none kwargs !! ("child_type_" +:+ pretty (S i)) = Some (VStr (c_type r.1)) ∧
  drop_none kwargs !! ("child_name_" +:+ pretty (S i)) = Some (VStr (c_name r.1)) ∧
  drop_none kwargs !! ("child_parent_" +:+ pretty (S i)) =
    Some (VStr (recorded_parent (collected v) (S i))).
Proof.
  intros Hq Hr.
  destruct (populate_spec _ _ (collected_ready v))
    as (kw & Hq' & Hother & Hcp & _).
  rewrite Hq in Hq'. injection Hq' as <-.
  destruct (collected_child v i r Hr) as (H1 & H2 & H3).
  assert (S i ≤ length (found_children v)) by (by apply lookup_lt_Some in Hr).
  rewrite !lookup_drop_none_eq.
  rewrite !Hother by
    (apply (child_key_other _ (S i)); unfold is_child_key; by auto).
  rewrite H1, H2, H3, Hcp by lia. split_and!; try done.
  by destruct (c_namespace r.1).
Qed.

(** A key that is none of the child keys of the levels found keeps its
    value of the root match. *)
Lemma populated_absent v kwargs k :
  _populate_alternate_kwargs (collected v) = Ok kwargs →
  ¬ parent_key k (length (found_children v)) →
  (∀ j, 1 ≤ j ≤ length (found_children v) → ¬ is_child_key k j) →
  k ∉ ["subscription"; "resource_group"; "namespace"; "type"; "name"; "children";
       "last_child_num"; "resource_namespace"; "resource_type"; "resource_name"] →
  kwargs !! k = None.
Proof.
  intros Hq Hp Hc Hk.
  destruct (populate_spec _ _ (collected_ready v)) as (kw & Hq' & Hother & _).
  rewrite Hq in Hq'. injection Hq' as <-.
  rewrite Hother; [|done|..]; try (intros ->; apply Hk; by repeat constructor).
  unfold collected. rewrite lookup_insert_ne
    by (intros <-; apply Hk; by repeat constructor).
  rewrite for_children_lookup_other by (intros j Hj; apply Hc; cbn in Hj; lia).
  cbn [fst]. destruct (_ !! k) as [x|] eqn:E; [|done].
  apply root_items_values in E as [E _]. destruct Hk.
  rewrite !elem_of_cons in E. rewrite !elem_of_cons. tauto.
Qed.

Ltac not_literal :=
  let H := fresh in
  rewrite !elem_of_cons, elem_of_nil; intros H;
  repeat (destruct H as [H|H]; [by simplify_eq/=|]); done.

Lemma child_count_unmatched rid :
  child_count ({["name" := VStr rid]} : gmap string value) = 0.
Proof. done. Qed.

(** No entry for a level that was not found. *)
Lemma populated_child_absent v kwargs i :
  _populate_alternate_kwargs (collected v) = Ok kwargs →
  ¬ 1 ≤ i ≤ length (found_children v) →
  drop_none kwargs !! ("child_namespace_" +:+ pretty i) = None ∧
  drop_none kwargs !! ("child_type_" +:+ pretty i) = None ∧
  drop_none kwargs !! ("child_name_" +:+ pretty i) = None ∧
  drop_none kwargs !! ("child_parent_" +:+ pretty i) = None.
Proof.
  intros Hq Hi.
  assert (∀ k, is_child_key k i → drop_none kwargs !! k = None) as Hchild.
  { intros k Hk. apply lookup_drop_none_None. left.
    apply (populated_absent v); [done|by apply (child_key_other k i)|..].
    - intros j Hj Hkj. by rewrite (is_child_key_inj k i j) in Hi.
    - intros Hin. destruct Hk as [-> | [-> | ->]]; revert Hin; not_literal. }
  split_and!; try (apply Hchild; unfold is_child_key; by auto).
  apply lookup_drop_none_None. left. apply (populated_absent v); [done|..].
  - intros [?|(j & Hj & Heq)]; [done|].
    apply child_parent_inj in Heq as ->. done.
  - intros j _. apply child_parent_not_child_key.
  - not_literal.
Qed.

(** X3. The child levels of a parse are numbered without a gap from 1 to
    [last_child_num]: each of them has its type, its name, which is not
    empty, and its parent path, and no entry exists for a level outside this
    range (none at all when [last_child_num] is absent). *)
Theorem parse_resource_id_child_levels rid i :
  let m := parse_result rid in
  (1 ≤ i ≤ child_count m →
     (∃ ty, m !! ("child_type_" +:+ pretty i) = Some (VStr ty)) ∧
     (∃ nm, m !! ("child_name_" +:+ pretty i) = Some (VStr nm) ∧ nm ≠ "") ∧
     (∃ p, m !! ("child_parent_" +:+ pretty i) = Some (VStr p))) ∧
  (¬ 1 ≤ i ≤ child_count m →
     m !! ("child_namespace_" +:+ pretty i) = None ∧
     m !! ("child_type_" +:+ pretty i) = None ∧
     m !! ("child_name_" +:+ pretty i) = None ∧
     m !! ("child_parent_" +:+ pretty i) = None).
Proof.
  cbn zeta.
  destruct (parse_result_cases rid)
    as [[_ Hm]|[(_ & _ & Hm)|(v & kw & _ & Hq & Hm)]]; rewrite Hm.
  - split; [unfold child_count; rewrite lookup_empty; lia|done].
  - split; [rewrite child_count_unmatched; lia|].
    intros _. by rewrite !lookup_singleton_ne by done.
  - rewrite (populated_child_count v) by done. split.
    + intros Hi.
      destruct (lookup_lt_is_Some_2 (found_children v) (pred i)) as [r Hr]; [lia|].
      destruct (populated_child v kw (pred i) r Hq Hr) as (_ & H2 & H3 & H4).
      destruct (found_children_fields v _ r Hr) as (_ & _ & Hnm & _).
      replace (S (pred i)) with i in * by lia.
      split_and!; [by eexists|by eexists|by eexists].
    + by apply populated_child_absent.
Qed.

Lemma parse_resource_id_child_levels_witness :
  let m := parse_result "/subscriptions/S/providers/NS/T/N/T1/N1/T2/N2" in
  (∃ ty, m !! ("child_type_" +:+ pretty 2) = Some (VStr ty)) ∧
  (∃ nm, m !! ("child_name_" +:+ pretty 2) = Some (VStr nm) ∧ nm ≠ "") ∧
  (∃ p, m !! ("child_parent_" +:+ pretty 2) = Some (VStr p)).
Proof.
  refine (proj1 (parse_resource_id_child_levels
                   "/subscriptions/S/providers/NS/T/N/T1/N1/T2/N2" 2) _).
  vm_compute. split; repeat constructor.
Defined.

(** X4. The mapping [parse_resource_id] returns has no other keys than the
    eleven fixed ones and the four keys of each child level from 1 to
    [last_child_num]. *)
Theorem parse_resource_id_keys rid k :
  let m := parse_result rid in
  is_Some (m !! k) →
  k ∈ ["subscription"; "resource_group"; "namespace"; "type"; "name"; "children";
       "last_child_num"; "resource_parent"; "resource_namespace"; "resource_type";
       "resource_name"] ∨
  ∃ i, 1 ≤ i ≤ child_count m ∧
       k ∈ ["child_namespace_" +:+ pretty i; "child_type_" +:+ pretty i;
            "child_name_" +:+ pretty i; "child_parent_" +:+ pretty i].
Proof.
  cbn zeta.
  destruct (parse_result_cases rid)
    as [[_ Hm]|[(_ & _ & Hm)|(v & kw & _ & Hq & Hm)]]; rewrite Hm.
  - by intros [? ?].
  - intros [x [<- _]%lookup_singleton_Some]. left. by repeat constructor.
  - rewrite (populated_child_count v) by done. intros [x Hx].
    set (n := length (found_children v)).
    destruct (parent_key_cases k n) as [[->|(i & Hi & ->)]|Hnp].
    { left. by repeat constructor. }
    { right. exists i. split; [done|]. by repeat constructor. }
    destruct (range_cases (is_child_key k) n (is_child_key_cases k))
      as [(j & Hj & Hkj)|Hno].
    { right. exists j. split; [done|].
      destruct Hkj as [-> | [-> | ->]]; by repeat constructor. }
    destruct (decide (k ∈ ["subscription"; "resource_group"; "namespace"; "type";
                "name"; "children"; "last_child_num"; "resource_namespace";
                "resource_type"; "resource_name"])) as [Hin|Hout].
    { left. rewrite !elem_of_cons in Hin. rewrite !elem_of_cons. tauto. }
    apply lookup_drop_none in Hx as [Hx _].
    by rewrite (populated_absent v kw k) in Hx.
Qed.

Lemma parse_resource_id_keys_witness :
  let m := parse_result "/subscriptions/S/providers/NS/T/N/T1/N1" in
  ("child_parent_" +:+ pretty 1) ∈
    ["subscription"; "resource_group"; "namespace"; "type"; "name"; "children";
     "last_child_num"; "resource_parent"; "resource_namespace"; "resource_type";
     "resource_name"] ∨
  ∃ i, 1 ≤ i ≤ child_count m ∧
       ("child_parent_" +:+ pretty 1) ∈
         ["child_namespace_" +:+ pretty i; "child_type_" +:+ pretty i;
          "child_name_" +:+ pretty i; "child_parent_" +:+ pretty i].
Proof.
  apply (parse_resource_id_keys "/subscriptions/S/providers/NS/T/N/T1/N1"
           ("child_parent_" +:+ pretty 1)).
  vm_compute. by eexists.
Defined.

Lemma run1_segment s r s' : run1 not_slash s = Some (r, s') → segment_name r.
Proof. by intros (_ & ? & ? & _)%run1_split. Qed.

Lemma provider_view_fields s p s' :
  provider_view s = Some (p, s') →
  segment_name (p_namespace p) ∧ Str.forallb not_slash (p_type p) = true ∧
  segment_name (p_name p) ∧ Str.forallb dot (p_children p) = true.
Proof.
  unfold provider_view. destruct (Re.lit_match _ _ s) as [s1|]; [|done].
  cbn [mbind option_bind].
  destruct (run1 not_slash s1) as [[ns s2]|] eqn:Hns; [|done].
  cbn [mbind option_bind]. destruct (Re.lit_match _ _ s2) as [s3|]; [|done].
  cbn [mbind option_bind]. destruct (Re.lit_match _ _ _) as [s4|]; [|done].
  cbn [mbind option_bind].
  destruct (run1 not_slash s4) as [[nm s5]|] eqn:Hnm; [|done].
  cbn [mbind option_bind]. intros [= <- <-]. cbn.
  apply run1_segment in Hns, Hnm. split_and!; try done; apply forallb_take_while.
Qed.

Lemma armid_view_fields s v : armid_view s = Some v → root_fields_ok v.
Proof.
  unfold armid_view. destruct (Re.lit_match _ _ s) as [s1|]; [|done].
  cbn [mbind option_bind].
  destruct (run1 not_slash s1) as [[sub s2]|] eqn:Hsub; [|done].
  cbn [mbind option_bind]. apply run1_segment in Hsub.
  assert (∀ g s3, resource_group_view s2 = Some (g, s3) → segment_name g) as Hg.
  { unfold resource_group_view. intros g s3.
    destruct (Re.lit_match _ _ s2) as [s2'|]; [|done]. cbn [mbind option_bind].
    apply run1_segment. }
  destruct (resource_group_view s2) as [[g s3]|] eqn:Eg;
    destruct (provider_view _) as [[p s4]|] eqn:Ep; intros [= <-];
    unfold root_fields_ok; cbn [v_subscription v_resource_group v_provider];
    (split; [done|]); (split; [done || by apply (Hg _ _ eq_refl)|]);
    done || by apply provider_view_fields in Ep.
Qed.

(** The root entries of the mapping returned. *)
Lemma populated_root v kwargs :
  _populate_alternate_kwargs (collected v) = Ok kwargs →
  drop_none kwargs !! "subscription" = Some (VStr (v_subscription v)) ∧
  drop_none kwargs !! "resource_group" = VStr <$> v_resource_group v ∧
  drop_none kwargs !! "namespace" = VStr <$> (p_namespace <$> v_provider v) ∧
  drop_none kwargs !! "type" = VStr <$> (p_type <$> v_provider v) ∧
  drop_none kwargs !! "name" = VStr <$> (p_name <$> v_provider v) ∧
  drop_none kwargs !! "children" = VStr <$> (p_children <$> v_provider v).
Proof.
  intros Hkw.
  destruct (populate_spec _ _ (collected_ready v)) as (kw & Hq & Hother & _).
  rewrite Hkw in Hq. injection Hq as <-.
  rewrite !lookup_drop_none_eq, !Hother
    by (done || intros [?|(? & _ & ?)]; done).
  rewrite !collected_other
    by (done || by apply not_child_key_literal; repeat constructor).
  destruct v as [sub [g|] [p|] rest]; done.
Qed.

(** The entries for the target resource. *)
Lemma populated_target v kwargs :
  _populate_alternate_kwargs (collected v) = Ok kwargs →
  drop_none kwargs !! "resource_namespace" = VStr <$> (p_namespace <$> v_provider v) ∧
  drop_none kwargs !! "resource_type" =
    match last (found_children v) with
    | Some r =>
        if bool_decide (c_type r.1 = "") then VStr <$> (p_type <$> v_provider v)
        else Some (VStr (c_type r.1))
    | None => VStr <$> (p_type <$> v_provider v)
    end ∧
  drop_none kwargs !! "resource_name" =
    match last (found_children v) with
    | Some r => Some (VStr (c_name r.1))
    | None => VStr <$> (p_name <$> v_provider v)
    end.
Proof.
  intros Hkw.
  destruct (populate_spec _ _ (collected_ready v))
    as (kw & Hq & _ & _ & _ & Hrns & Hrty & Hrnm).
  rewrite Hkw in Hq. injection Hq as <-.
  destruct (collected_root_get v) as (_ & _ & Hns & Hty & Hnm).
  rewrite !lookup_drop_none_eq, Hrns, Hrty, Hrnm, Hty, Hnm.
  rewrite collected_other
    by (done || by apply not_child_key_literal; repeat constructor).
  split; [clear; by destruct v as [sub g [p|] rest]|].
  rewrite last_lookup.
  destruct (length (found_children v)) as [|n] eqn:Hlen.
  - assert (found_children v = []) as Hnil by (by apply nil_length_inv).
    unfold dict_get, collected. rewrite Hnil. cbn [pred lookup].
    cbn [fmap list_fmap for_children fst snd last_child_value py_str].
    rewrite !lookup_insert_ne by done.
    unfold root_items. cbn [list_to_map foldr uncurry fst snd].
    rewrite !lookup_insert_ne by done. rewrite !lookup_empty.
    cbn [default id]. unfold py_or. cbn [truthy list_lookup].
    split; by destruct (v_provider v).
  - cbn [pred last_child_value py_str].
    destruct (lookup_lt_is_Some_2 (found_children v) n) as [r Hr]; [lia|].
    rewrite Hr. destruct (collected_child v n r Hr) as (_ & H2 & H3).
    destruct (found_children_fields v n r Hr) as (_ & _ & Hne & _).
    unfold dict_get. rewrite H2, H3. cbn [default id]. unfold py_or. cbn [truthy].
    rewrite (bool_decide_eq_false_2 (c_name r.1 = "")) by done. cbn [negb].
    split; [|done]. case_bool_decide; cbn [negb]; [|done].
    by destruct (v_provider v).
Qed.

(** X5. The entries for the target resource, when the root pattern matches:
    [resource_namespace] is the root namespace; [resource_name] is the name
    of the last child level, the root name without children;
    [resource_type] is the type of the last child level unless that is
    empty or there are no children, and the root type then. *)
Theorem parse_resource_id_target rid :
  let m := parse_result rid in
  is_Some (m !! "subscription") →
  m !! "resource_namespace" = m !! "namespace" ∧
  m !! "resource_name" =
    match m !! ("child_name_" +:+ pretty (child_count m)) with
    | Some nm => Some nm
    | None => m !! "name"
    end ∧
  m !! "resource_type" =
    match m !! ("child_type_" +:+ pretty (child_count m)) with
    | Some (VStr "") | None => m !! "type"
    | Some ty => Some ty
    end.
Proof.
  cbn zeta.
  destruct (parse_result_cases rid)
    as [[_ Hm]|[(_ & _ & Hm)|(v & kw & _ & Hq & Hm)]]; rewrite Hm.
  - by intros [? ?].
  - by intros [? ?].
  - intros _. rewrite (populated_child_count v) by done.
    destruct (populated_root v kw Hq) as (_ & _ & Hns & Hty & Hnm & _).
    destruct (populated_target v kw Hq) as (Hrns & Hrty & Hrnm).
    rewrite Hrns, Hrty, Hrnm, Hns, Hty, Hnm, last_lookup.
    split; [done|].
    destruct (length (found_children v)) as [|n] eqn:Hlen.
    + destruct (populated_child_absent v kw 0 Hq) as (_ & -> & -> & _); [lia|].
      by rewrite (nil_length_inv _ Hlen).
    + destruct (lookup_lt_is_Some_2 (found_children v) n) as [r Hr]; [lia|].
      destruct (populated_child v kw n r Hq Hr) as (_ & -> & -> & _).
      cbn [pred]. rewrite Hr. split; [done|].
      by destruct (c_type r.1).
Qed.

Lemma parse_resource_id_target_witness :
  let m := parse_result "/subscriptions/S/providers/NS/T/N/T1/N1" in
  m !! "resource_namespace" = m !! "namespace" ∧
  m !! "resource_name" =
    match m !! ("child_name_" +:+ pretty (child_count m)) with
    | Some nm => Some nm
    | None => m !! "name"
    end ∧
  m !! "resource_type" =
    match m !! ("child_type_" +:+ pretty (child_count m)) with
    | Some (VStr "") | None => m !! "type"
    | Some ty => Some ty
    end.
Proof.
  apply (parse_resource_id_target "/subscriptions/S/providers/NS/T/N/T1/N1").
  vm_compute. by eexists.
Defined.

(** X6. When the root pattern matches, the names the mapping holds
    ([subscription], [resource_group], [namespace], [name], the child
    namespaces and names, [resource_namespace], [resource_name]) are not
    empty and hold no slash; the types ([type], the child types,
    [resource_type]) hold no slash and may be empty. *)
Theorem parse_resource_id_segments rid k s :
  let m := parse_result rid in
  is_Some (m !! "subscription") → m !! k = Some (VStr s) →
  (k ∈ ["subscription"; "resource_group"; "namespace"; "name";
        "resource_namespace"; "resource_name"] ∨
   (∃ i : nat, k = "child_namespace_" +:+ pretty i ∨ k = "child_name_" +:+ pretty i) →
   s ≠ "" ∧ Str.forallb not_slash s = true) ∧
  (k ∈ ["type"; "resource_type"] ∨ (∃ i : nat, k = "child_type_" +:+ pretty i) →
   Str.forallb not_slash s = true).
Proof.
  cbn zeta.
  destruct (parse_result_cases rid)
    as [[_ Hm]|[(_ & _ & Hm)|(v & kw & Hv & Hq & Hm)]]; rewrite Hm.
  - by intros [? ?].
  - by intros [? ?].
  - intros _ Hk.
    destruct (populated_root v kw Hq) as (Hsub & Hg & Hns & Hty & Hnm & _).
    destruct (populated_target v kw Hq) as (Hrns & Hrty & Hrnm).
    destruct (armid_view_fields _ _ Hv) as (Fsub & Fg & Fp).
    assert (∀ i r, found_children v !! i = Some r → child_fields_ok r.1) as Fc
      by apply found_children_fields.
    assert (∀ i, (1 ≤ i ≤ length (found_children v) ∧
                  ∃ r, found_children v !! pred i = Some r ∧
                    drop_none kw !! ("child_namespace_" +:+ pretty i) =
                      VStr <$> c_namespace r.1 ∧
                    drop_none kw !! ("child_type_" +:+ pretty i) =
                      Some (VStr (c_type r.1)) ∧
                    drop_none kw !! ("child_name_" +:+ pretty i) =
                      Some (VStr (c_name r.1))) ∨
                (drop_none kw !! ("child_namespace_" +:+ pretty i) = None ∧
                 drop_none kw !! ("child_type_" +:+ pretty i) = None ∧
                 drop_none kw !! ("child_name_" +:+ pretty i) = None)) as Hlevel.
    { intros i. destruct (decide (1 ≤ i ≤ length (found_children v))) as [Hi|Hi].
      - left. split; [done|].
        destruct (lookup_lt_is_Some_2 (found_children v) (pred i)) as [r Hr]; [lia|].
        destruct (populated_child v kw (pred i) r Hq Hr) as (H1 & H2 & H3 & _).
        replace (S (pred i)) with i in * by lia. by exists r.
      - right. by destruct (populated_child_absent v kw i Hq Hi) as (? & ? & ? & _). }
    assert (match last (found_children v) with
            | Some r => child_fields_ok r.1
            | None => True
            end) as Flast.
    { rewrite last_lookup.
      destruct (found_children v !! _) as [r|] eqn:E; [by apply Fc in E|done]. }
    split.
    + intros [Hin|(i & Hi)].
      * rewrite !elem_of_cons, elem_of_nil in Hin.
        destruct Hin as [-> | [-> | [-> | [-> | [-> | [-> | []]]]]]].
        -- rewrite Hsub in Hk. by injection Hk as <-.
        -- rewrite Hg in Hk. destruct (v_resource_group v); [|done].
           by injection Hk as <-.
        -- rewrite Hns in Hk. destruct (v_provider v); [|done].
           injection Hk as <-. by destruct Fp.
        -- rewrite Hnm in Hk. destruct (v_provider v); [|done].
           injection Hk as <-. by destruct Fp as (_ & _ & ? & _).
        -- rewrite Hrns in Hk. destruct (v_provider v); [|done].
           injection Hk as <-. by destruct Fp.
        -- rewrite Hrnm in Hk. destruct (last (found_children v)) as [r|].
           ++ injection Hk as <-. by destruct Flast as (_ & _ & ? & ?).
           ++ destruct (v_provider v); [|done].
              injection Hk as <-. by destruct Fp as (_ & _ & ? & _).
      * destruct (Hlevel i) as [(_ & r & Hr & H1 & _ & H3)|(H1 & _ & H3)].
        -- apply Fc in Hr as (Fns & _ & Fnm1 & Fnm2).
           destruct Hi as [-> | ->].
           ++ rewrite H1 in Hk. destruct (c_namespace r.1); [|done].
              by injection Hk as <-.
           ++ rewrite H3 in Hk. by injection Hk as <-.
        -- destruct Hi as [-> | ->]; congruence.
    + intros [Hin|(i & ->)].
      * rewrite !elem_of_cons, elem_of_nil in Hin.
        destruct Hin as [-> | [-> | []]].
        -- rewrite Hty in Hk. destruct (v_provider v); [|done].
           injection Hk as <-. by destruct Fp as (_ & ? & _).
        -- rewrite Hrty in Hk.
           assert (VStr <$> (p_type <$> v_provider v) = Some (VStr s) →
                   Str.forallb not_slash s = true) as Hroot.
           { destruct (v_provider v); [|done]. intros [= <-].
             by destruct Fp as (_ & ? & _). }
           destruct (last (found_children v)) as [r|]; [|by apply Hroot].
           case_bool_decide; [by apply Hroot|].
           injection Hk as <-. by destruct Flast as (_ & ? & _).
      * destruct (Hlevel i) as [(_ & r & Hr & _ & H2 & _)|(_ & H2 & _)];
          [|congruence].
        apply Fc in Hr as (_ & Fty & _). rewrite H2 in Hk. by injection Hk as <-.
Qed.

Lemma parse_resource_id_segments_witness :
  (("child_name_" +:+ pretty 1) ∈
     ["subscription"; "resource_group"; "namespace"; "name";
      "resource_namespace"; "resource_name"] ∨
   (∃ i : nat, "child_name_" +:+ pretty 1 = "child_namespace_" +:+ pretty i ∨
               "child_name_" +:+ pretty 1 = "child_name_" +:+ pretty i) →
   "N1" ≠ "" ∧ Str.forallb not_slash "N1" = true) ∧
  (("child_name_" +:+ pretty 1) ∈ ["type"; "resource_type"] ∨
   (∃ i : nat, "child_name_" +:+ pretty 1 = "child_type_" +:+ pretty i) →
   Str.forallb not_slash "N1" = true).
Proof.
  apply (parse_resource_id_segments "/subscriptions/S/providers/NS/T/N/T1/N1"
           ("child_name_" +:+ pretty 1) "N1").
  - vm_compute. by eexists.
  - vm_compute. reflexivity.
Defined.

(** *** When the root pattern matches *)

(** In ASCII text a literal matches its spellings up to case. *)
Lemma lit_match_ascii_lower text : ∀ s s',
  Str.is_ascii s = true → Re.lit_match true text s = Some s' →
  ∃ kw, s = kw +:+ s' ∧ Str.lower kw = Str.lower text.
Proof.
  induction text as [|a text IH]; intros s s' Hs; cbn [Re.lit_match].
  - intros [= ->]. by exists "".
  - destruct s as [|c s]; [done|].
    apply is_ascii_cons in Hs as [Hc Hs]. rewrite lit_char_ascii by done.
    destruct (Ascii.eqb_spec (Str.lower_ascii a) (Str.lower_ascii c)) as [Hac|Hac];
      [|done].
    intros (kw & -> & Hkw)%IH; [|done]. exists (String c kw). split; [done|].
    cbn [Str.lower]. by rewrite Hac, Hkw.
Qed.

Lemma lit_match_of_lower text : ∀ kw s',
  Str.lower kw = Str.lower text → Str.is_ascii kw = true →
  Re.lit_match true text (kw +:+ s') = Some s'.
Proof.
  induction text as [|a text IH]; intros [|c kw] s' Hkw Hascii; try done.
  apply is_ascii_cons in Hascii as [Hc Hascii].
  cbn [Str.lower] in Hkw. injection Hkw as Hc' Hkw.
  rewrite app_cons. cbn [Re.lit_match]. rewrite lit_char_ascii by done.
  rewrite Hc', Ascii.eqb_refl. by apply IH.
Qed.

Lemma not_slash_spec c : not_slash c = true ↔ c ≠ "/"%char.
Proof. unfold not_slash. by destruct (Ascii.eqb_spec c "/"). Qed.

Lemma run1_is_Some s :
  is_Some (run1 not_slash s) ↔ ∃ c rest, s = String c rest ∧ c ≠ "/"%char.
Proof.
  unfold run1. destruct s as [|c s]; cbn [take_while].
  - rewrite bool_decide_eq_true_2 by done.
    split; [by intros [? ?]|]. intros (? & ? & ? & _). discriminate.
  - destruct (not_slash c) eqn:Hc.
    + rewrite bool_decide_eq_false_2 by done.
      split; [|by eauto]. intros _. exists c, s. by rewrite <-not_slash_spec.
    + rewrite bool_decide_eq_true_2 by done.
      split; [by intros [? ?]|]. intros (? & ? & [= <- _] & Hc').
      apply not_slash_spec in Hc'. congruence.
Qed.

Lemma subscription_prefix_view rid :
  subscription_prefix rid → is_Some (armid_view rid).
Proof.
  intros (kw & c & rest & -> & Hkw & Hc). unfold armid_view.
  rewrite (lit_match_of_lower "/subscriptions/") by
    (done || by rewrite <-lower_is_ascii, Hkw).
  cbn [mbind option_bind].
  destruct (proj2 (run1_is_Some (String c rest))) as [[sub s2] ->];
    [by exists c, rest|].
  cbn [mbind option_bind]. by destruct (resource_group_view s2) as [[? ?]|].
Qed.

Lemma armid_view_ascii_prefix rid :
  Str.is_ascii rid = true → is_Some (armid_view rid) → subscription_prefix rid.
Proof.
  intros Hascii. unfold armid_view, subscription_prefix.
  destruct (Re.lit_match true "/subscriptions/" rid) as [s1|] eqn:E1;
    [|by intros [? ?]].
  cbn [mbind option_bind].
  destruct (run1 not_slash s1) as [[sub s2]|] eqn:E2; [|by intros [? ?]].
  intros _. apply lit_match_ascii_lower in E1 as (kw & -> & Hkw); [|done].
  destruct (proj1 (run1_is_Some s1)) as (c & rest & -> & Hc); [by rewrite E2|].
  by exists kw, c, rest.
Qed.

(** X7. Among the ASCII strings, [parse_resource_id] falls back to
    [{"name": rid}] exactly for the non-empty ones that do not start with
    the keyword [/subscriptions/], in any case, followed by a character
    other than a slash; for every string that does, the mapping holds
    [subscription]. *)
Theorem parse_resource_id_fallback rid :
  (rid ≠ "" → Str.is_ascii rid = true → ¬ subscription_prefix rid →
     parse_resource_id rid = Ok {["name" := VStr rid]}) ∧
  (subscription_prefix rid →
     ∃ m subscription,
       parse_resource_id rid = Ok m ∧ m !! "subscription" = Some (VStr subscription) ∧
       m ≠ {["name" := VStr rid]}).
Proof.
  split.
  - intros Hrid Hascii Hno. rewrite parse_resource_id_unfold.
    rewrite bool_decide_eq_false_2 by done.
    destruct (armid_view rid) eqn:E; [|done]. destruct Hno.
    apply armid_view_ascii_prefix; [done|]. by rewrite E.
  - intros [v Hv]%subscription_prefix_view. rewrite parse_result_eq.
    destruct (parse_result_cases rid)
      as [[-> _]|[(_ & Hno & _)|(v' & kw & Hv' & Hq & Hm)]]; [done|congruence|].
    rewrite Hm. exists (drop_none kw), (v_subscription v').
    destruct (populated_root v' kw Hq) as (Hsub & _).
    split_and!; [done..|]. intros Heq. by rewrite Heq in Hsub.
Qed.

Lemma parse_resource_id_fallback_witness :
  parse_resource_id "/subscription/S" = Ok {["name" := VStr "/subscription/S"]} ∧
  ∃ m subscription,
    parse_resource_id "/SUBSCRIPTIONS/S/x" = Ok m ∧
    m !! "subscription" = Some (VStr subscription) ∧
    m ≠ {["name" := VStr "/SUBSCRIPTIONS/S/x"]}.
Proof.
  split.
  - refine (proj1 (parse_resource_id_fallback "/subscription/S") _ _ _);
      [done|done|].
    intros Hp. apply subscription_prefix_view in Hp. by destruct Hp.
  - refine (proj2 (parse_resource_id_fallback "/SUBSCRIPTIONS/S/x") _).
    by exists "/SUBSCRIPTIONS/", "S"%char, "/x".
Defined.

(** ** [resource_id] and the validator *)

(** X8. [resource_id] reads the keys [subscription], [resource_group],
    [namespace], [type], [name] and the child keys only, and takes [None]
    for a missing key: two sets of keyword arguments that agree on these
    keys give the same result. *)
Theorem resource_id_reads_input_keys kwargs kwargs' :
  (∀ k, input_key k → dict_get kwargs' k = dict_get kwargs k) →
  resource_id kwargs' = resource_id kwargs.
Proof.
  intros Hagree. destruct (complete_levels kwargs) as (n & _ & Hn & Hstop).
  rewrite (resource_id_ext kwargs kwargs' Hagree n);
    [|intros i Hi; apply Hn; lia|done].
  rewrite (resource_id_ext kwargs kwargs (fun _ _ => eq_refl) n);
    [done|intros i Hi; apply Hn; lia|done].
Qed.

Lemma input_key_not_children k : input_key k → k ≠ "children".
Proof.
  intros [Hk|[j Hj]] ->.
  - revert Hk. not_literal.
  - by apply (not_child_key_literal "children") in Hj; [|repeat constructor].
Qed.

Lemma resource_id_reads_input_keys_witness :
  resource_id (<["children" := VStr "/junk"]> {["subscription" := VStr "S"]}) =
  resource_id {["subscription" := VStr "S"]}.
Proof.
  apply resource_id_reads_input_keys.
  intros k Hk. apply dict_get_insert_ne. intros <-. by apply input_key_not_children in Hk.
Defined.

Section validator.
Context {T : Type}.

(** X9. Without the keyword [/subscriptions/] and a subscription at its
    head, a non-empty ASCII string is never valid: composing its parse
    raises the [KeyError] of [subscription], which the validator turns into
    [False], or into the exception type when one is given. With them,
    composing the parse returns an identifier. *)
Theorem is_valid_resource_id_needs_subscription rid :
  (rid ≠ "" → Str.is_ascii rid = true → ¬ subscription_prefix rid →
     rebuilt rid = Err (KeyError "subscription") ∧
     is_valid_resource_id (T := T) rid None = Returns (VBool false) ∧
     ∀ t : T, is_valid_resource_id rid (Some t) = Raises t) ∧
  (subscription_prefix rid → ∃ built, rebuilt rid = Ok built).
Proof.
  split.
  - intros Hrid Hascii Hno.
    assert (rebuilt rid = Err (KeyError "subscription")) as Hr.
    { unfold rebuilt. rewrite parse_resource_id_unfold.
      rewrite bool_decide_eq_false_2 by done.
      destruct (armid_view rid) eqn:E.
      { destruct Hno. apply armid_view_ascii_prefix; [done|]. by rewrite E. }
      cbn [mbind result_bind]. by vm_compute. }
    split; [done|]. rewrite !is_valid_resource_id_unfold. cbn zeta.
    rewrite bool_decide_eq_false_2, Hr by done. split; [done|].
    intros t. rewrite is_valid_resource_id_unfold. cbn zeta.
    by rewrite bool_decide_eq_false_2, Hr by done.
  - intros [v Hv]%subscription_prefix_view. eexists. apply rebuilt_view; [|done].
    by apply armid_view_nonempty in Hv.
Qed.

End validator.

Lemma is_valid_resource_id_needs_subscription_witness :
  rebuilt "subscriptions/S" = Err (KeyError "subscription") ∧
  is_valid_resource_id (T := unit) "subscriptions/S" None = Returns (VBool false) ∧
  ∀ t : unit, is_valid_resource_id "subscriptions/S" (Some t) = Raises t.
Proof.
  refine (proj1 (is_valid_resource_id_needs_subscription (T := unit) "subscriptions/S")
            _ _ _); [done|done|].
  intros Hp. apply subscription_prefix_view in Hp. by destruct Hp.
Defined.

Lemma well_formed_valid {T} x (exception_type : option T) :
  well_formed x = true → Str.is_ascii x = true →
  is_valid_resource_id x exception_type = Returns (VBool true).
Proof.
  intros Hx Hascii. destruct (well_formed_parts x Hx) as (w & Hw & ->).
  pose proof (armid_view_parts w Hw) as Hv.
  pose proof (armid_view_nonempty _ _ Hv) as Hne.
  rewrite is_valid_resource_id_unfold. cbn zeta.
  rewrite bool_decide_eq_false_2 by done.
  rewrite (rebuilt_view _ _ Hne Hv).
  rewrite found_children_parts by (done || by apply ascii_children).
  rewrite bool_decide_eq_true_2 by (by apply lower_canonical_parts).
  by destruct exception_type.
Qed.

(** *** Well-formed texts *)

Lemma split_app_path l :
  Str.split "/" (path l) = "" :: l →
  ∀ s, Str.forallb not_slash s = true → Str.split "/" (s +:+ path l) = s :: l.
Proof.
  intros Hl. induction s as [|c s IH]; [done|].
  cbn [Str.forallb]. intros [Hc Hs]%andb_prop. rewrite app_cons. cbn [Str.split].
  apply not_slash_spec in Hc. destruct (Ascii.eqb_spec c "/"); [done|].
  by rewrite IH.
Qed.

Lemma split_path l :
  Forall (fun s => Str.forallb not_slash s = true) l →
  Str.split "/" (path l) = "" :: l.
Proof.
  induction 1 as [|s l Hs Hl IH]; [done|].
  change (path (s :: l)) with (String "/" (s +:+ path l)). cbn [Str.split].
  rewrite Ascii.eqb_refl. by rewrite split_app_path.
Qed.

Lemma same_word_distinct kw a b :
  same_word kw a = true → Str.lower a ≠ Str.lower b → same_word kw b = false.
Proof.
  unfold same_word. intros Ha%bool_decide_eq_true Hab.
  apply bool_decide_eq_false. congruence.
Qed.

(** The text of well-formed parts is well-formed. *)
Lemma parts_well_formed w :
  parts_ok w → well_formed (path (parts_segments w)) = true.
Proof.
  intros (Hseg & Hkw & Hsub & Hrg & Hp). unfold well_formed.
  rewrite split_path by done. unfold parts_segments in *.
  cbn [app]. rewrite Hkw, Hsub. cbn [andb].
  assert (provider_segments_ok
            match w_provider w with
            | Some (kw, ns, ty, nm) => [kw; ns; ty; nm] ++ w_children w
            | None => []
            end = true) as Hprov.
  { destruct (w_provider w) as [[[[kw ns] ty] nm]|]; [|done].
    destruct Hp as (H1 & H2 & H3 & H4). cbn [app provider_segments_ok].
    by rewrite H1, H2, H3, H4. }
  destruct (w_resource_group w) as [[kw' g]|].
  - destruct Hrg as [Hk Hg]. cbn [app]. by rewrite Hk, Hg.
  - cbn [app]. destruct (w_provider w) as [[[[kw ns] ty] nm]|]; [|done].
    destruct Hp as (Hkw' & _). cbn [app] in *.
    by rewrite (same_word_distinct kw "providers" "resourceGroups").
Qed.

Lemma lower_ascii_idemp c : Str.lower_ascii (Str.lower_ascii c) = Str.lower_ascii c.
Proof. by destruct c as [[] [] [] [] [] [] [] []]. Qed.

Lemma lower_idemp s : Str.lower (Str.lower s) = Str.lower s.
Proof. induction s as [|c s IH]; [done|]. cbn. by rewrite lower_ascii_idemp, IH. Qed.

Lemma lower_ascii_not_slash c : not_slash (Str.lower_ascii c) = not_slash c.
Proof. by destruct c as [[] [] [] [] [] [] [] []]. Qed.

Lemma lower_ascii_dot c : dot (Str.lower_ascii c) = dot c.
Proof. by destruct c as [[] [] [] [] [] [] [] []]. Qed.

Lemma forallb_dot_lower s : Str.forallb dot (Str.lower s) = Str.forallb dot s.
Proof. induction s as [|c s IH]; [done|]. cbn. by rewrite lower_ascii_dot, IH. Qed.

Lemma nonempty_lower s : nonempty (Str.lower s) = nonempty s.
Proof. by destruct s. Qed.

Lemma same_word_lower_l a b : same_word (Str.lower a) b = same_word a b.
Proof. unfold same_word. by rewrite lower_idemp. Qed.

Lemma split_lower s :
  Str.split "/" (Str.lower s) = Str.lower <$> Str.split "/" s.
Proof.
  induction s as [|c s IH]; [done|]. cbn [Str.lower Str.split].
  pose proof (lower_ascii_not_slash c) as Hc. unfold not_slash in Hc.
  destruct (Ascii.eqb_spec c "/") as [->|Hne].
  - cbn. by rewrite IH.
  - destruct (Ascii.eqb (Str.lower_ascii c) "/"); [done|].
    rewrite IH. by destruct (Str.split "/" s).
Qed.

Lemma child_segments_ok_lower l :
  child_segments_ok (Str.lower <$> l) = child_segments_ok l.
Proof.
  assert (∀ n l, length l ≤ n →
    child_segments_ok (Str.lower <$> l) = child_segments_ok l) as H.
  { clear l. induction n as [|n IH]; intros [|ty [|nm l]] Hl; try done;
      cbn [length] in Hl; try lia.
    cbn [fmap list_fmap child_segments_ok].
    rewrite nonempty_lower, !forallb_dot_lower.
    f_equal. apply IH. lia. }
  by apply (H (length l)).
Qed.

Lemma provider_segments_ok_lower l :
  provider_segments_ok (Str.lower <$> l) = provider_segments_ok l.
Proof.
  destruct l as [|kw [|ns [|ty [|nm ch]]]]; try done.
  cbn [fmap list_fmap provider_segments_ok].
  by rewrite same_word_lower_l, !nonempty_lower, child_segments_ok_lower.
Qed.

(** Being well-formed does not depend on the case of the letters. *)
Lemma well_formed_lower x : well_formed (Str.lower x) = well_formed x.
Proof.
  unfold well_formed. rewrite split_lower.
  destruct (Str.split "/" x) as [|[|] [|kw [|sub rest]]]; try done.
  cbn [fmap list_fmap Str.lower].
  rewrite same_word_lower_l, nonempty_lower. f_equal.
  destruct rest as [|kw' [|g rest']]; try done.
  cbn [fmap list_fmap]. rewrite same_word_lower_l, nonempty_lower.
  pose proof (provider_segments_ok_lower (kw' :: g :: rest')) as H.
  cbn [fmap list_fmap] in H. rewrite H.
  pose proof (provider_segments_ok_lower rest') as H'.
  cbn [fmap] in H'. by rewrite H'.
Qed.

Lemma canonical_view_parts v cs :
  canonical v cs = path (parts_segments (view_parts v cs)).
Proof.
  destruct v as [sub rg prov rest].
  unfold canonical, view_parts, parts_segments.
  cbn [w_subscriptions w_subscription w_resource_group w_provider w_children
       v_subscription v_resource_group v_provider].
  cbn [app path].
  destruct rg as [g|], prov as [p|];
    cbn [app path]; rewrite ?path_flatten_children, ?app_nil_r, ?app_assoc; done.
Qed.

Section closure.
Variable q : ascii → bool.

Lemma lit_match_all text s s' :
  Re.lit_match true text s = Some s' → Str.forallb q s = true →
  Str.forallb q s' = true.
Proof.
  intros (c & ->)%lit_match_consumed. rewrite forallb_app.
  by intros [_ ?]%andb_prop.
Qed.

Lemma run1_all p s r s' :
  run1 p s = Some (r, s') → Str.forallb q s = true →
  Str.forallb q r = true ∧ Str.forallb q s' = true.
Proof.
  intros (-> & _)%run1_split. rewrite forallb_app. by intros [? ?]%andb_prop.
Qed.

Lemma take_drop_while_all p s :
  Str.forallb q s = true →
  Str.forallb q (take_while p s) = true ∧ Str.forallb q (drop_while p s) = true.
Proof.
  rewrite <-(take_drop_while p s) at 1. rewrite forallb_app.
  by intros [? ?]%andb_prop.
Qed.

Lemma child_tail_view_all s ty nm s' :
  child_tail_view s = Some (ty, nm, s') → Str.forallb q s = true →
  Str.forallb q ty = true ∧ Str.forallb q nm = true.
Proof.
  unfold child_tail_view. intros H Hs.
  destruct (Re.lit_match true "/" s) as [s1|] eqn:E1; [|done].
  cbn [mbind option_bind] in H. apply lit_match_all in E1; [|done].
  destruct (take_drop_while_all not_slash s1 E1) as [Hty Hd].
  destruct (Re.lit_match true "/" (drop_while not_slash s1)) as [s2|] eqn:E2; [|done].
  cbn [mbind option_bind] in H. apply lit_match_all in E2; [|done].
  destruct (run1 not_slash s2) as [[nm' s3]|] eqn:E3; [|done].
  cbn [mbind option_bind] in H. injection H as <- <- <-.
  by destruct (run1_all _ _ _ _ E3 E2).
Qed.

Lemma child_view_all s c s' :
  child_view s = Some (c, s') → Str.forallb q s = true → child_all q c.
Proof.
  intros H Hs.
  assert (∀ ns, (ty_nm ← child_tail_view s;
                 Some (Child ns ty_nm.1.1 ty_nm.1.2, ty_nm.2)) = Some (c, s') →
          match ns with Some x => Str.forallb q x = true | None => True end →
          child_all q c) as Htail.
  { intros ns Hc Hns. destruct (child_tail_view s) as [[[ty nm] s3]|] eqn:E; [|done].
    cbn [mbind option_bind fst snd] in Hc. injection Hc as <- <-.
    apply child_tail_view_all in E; [|done]. by split. }
  unfold child_view in H.
  destruct (Re.lit_match true "/providers/" s) as [s1|] eqn:E1;
    cbn [mbind option_bind] in H.
  - apply lit_match_all in E1; [|done].
    destruct (run1 not_slash s1) as [[ns s2]|] eqn:E2; cbn [mbind option_bind] in H.
    + destruct (run1_all _ _ _ _ E2 E1) as [Hns Hs2].
      destruct (child_tail_view s2) as [[[ty nm] s3]|] eqn:E3;
        cbn [mbind option_bind] in H.
      * injection H as <- <-. apply child_tail_view_all in E3; [|done]. by split.
      * apply (Htail None); [|done].
        by destruct (child_tail_view s) as [[[ty nm] s3]|].
    + apply (Htail None); [|done].
      by destruct (child_tail_view s) as [[[ty nm] s3]|].
  - apply (Htail None); [|done].
    by destruct (child_tail_view s) as [[[ty nm] s3]|].
Qed.

Lemma scan_children_all s : ∀ skip,
  Str.forallb q s = true →
  Forall (fun r => child_all q r.1) (scan_children s skip).
Proof.
  induction s as [|c s IH]; intros [|n] Hs; cbn [scan_children]; try done.
  - pose proof Hs as Hs'. cbn [Str.forallb] in Hs'. apply andb_prop in Hs' as [_ Hs'].
    destruct (child_view (String c s)) as [[ch s']|] eqn:E; [|by apply IH].
    constructor; [|by apply IH]. by apply child_view_all in E.
  - apply IH. cbn [Str.forallb] in Hs. by apply andb_prop in Hs as [_ ?].
Qed.

Lemma provider_view_all s p s' :
  provider_view s = Some (p, s') → Str.forallb q s = true →
  Str.forallb q (p_namespace p) = true ∧ Str.forallb q (p_type p) = true ∧
  Str.forallb q (p_name p) = true ∧ Str.forallb q (p_children p) = true.
Proof.
  unfold provider_view. intros H Hs.
  destruct (Re.lit_match true "/providers/" s) as [s1|] eqn:E1; [|done].
  cbn [mbind option_bind] in H. apply lit_match_all in E1; [|done].
  destruct (run1 not_slash s1) as [[ns s2]|] eqn:E2; [|done].
  cbn [mbind option_bind] in H. destruct (run1_all _ _ _ _ E2 E1) as [Hns Hs2].
  destruct (Re.lit_match true "/" s2) as [s3|] eqn:E3; [|done].
  cbn [mbind option_bind] in H. apply lit_match_all in E3; [|done].
  destruct (take_drop_while_all not_slash s3 E3) as [Hty Hd].
  destruct (Re.lit_match true "/" (drop_while not_slash s3)) as [s4|] eqn:E4; [|done].
  cbn [mbind option_bind] in H. apply lit_match_all in E4; [|done].
  destruct (run1 not_slash s4) as [[nm s5]|] eqn:E5; [|done].
  cbn [mbind option_bind] in H. destruct (run1_all _ _ _ _ E5 E4) as [Hnm Hs5].
  injection H as <- <-. cbn [p_namespace p_type p_name p_children].
  by destruct (take_drop_while_all dot s5 Hs5).
Qed.

(** What the root pattern captures is made of the characters it reads. *)
Lemma armid_view_all s v :
  armid_view s = Some v → Str.forallb q s = true →
  Str.forallb q (v_subscription v) = true ∧
  match v_resource_group v with Some g => Str.forallb q g = true | None => True end ∧
  match v_provider v with
  | Some p =>
      Str.forallb q (p_namespace p) = true ∧ Str.forallb q (p_type p) = true ∧
      Str.forallb q (p_name p) = true ∧ Str.forallb q (p_children p) = true
  | None => True
  end.
Proof.
  unfold armid_view. intros H Hs.
  destruct (Re.lit_match true "/subscriptions/" s) as [s1|] eqn:E1; [|done].
  cbn [mbind option_bind] in H. apply lit_match_all in E1; [|done].
  destruct (run1 not_slash s1) as [[sub s2]|] eqn:E2; [|done].
  cbn [mbind option_bind] in H. destruct (run1_all _ _ _ _ E2 E1) as [Hsub Hs2].
  assert (∀ g s3, resource_group_view s2 = Some (g, s3) →
            Str.forallb q g = true ∧ Str.forallb q s3 = true) as Hg.
  { unfold resource_group_view. intros g s3 Hrg.
    destruct (Re.lit_match true "/resourceGroups/" s2) as [s2'|] eqn:E; [|done].
    cbn [mbind option_bind] in Hrg. apply lit_match_all in E; [|done].
    by apply (run1_all _ _ _ _ Hrg). }
  destruct (resource_group_view s2) as [[g s3]|] eqn:Eg.
  - destruct (Hg _ _ eq_refl) as [Hg1 Hg2].
    destruct (provider_view s3) as [[p s4]|] eqn:Ep; injection H as <-;
      cbn [v_subscription v_resource_group v_provider]; split_and!; try done;
      by apply (provider_view_all _ _ _ Ep).
  - destruct (provider_view s2) as [[p s4]|] eqn:Ep; injection H as <-;
      cbn [v_subscription v_resource_group v_provider]; split_and!; try done;
      by apply (provider_view_all _ _ _ Ep).
Qed.
End closure.

Lemma children_text_dot v : root_fields_ok v → Str.forallb dot (children_text v) = true.
Proof.
  intros (_ & _ & Hp). unfold children_text.
  destruct (v_provider v) as [p|]; [|done]. by destruct Hp as (_ & _ & _ & ?).
Qed.

Lemma flatten_children_ok cs :
  Forall child_fields_ok cs → Forall child_dot cs →
  Forall (fun s => Str.forallb not_slash s = true) (flatten_children cs) ∧
  child_segments_ok (flatten_children cs) = true.
Proof.
  induction cs as [|c cs IH]; [done|].
  intros [(Fns & Fty & Fne & Fnm) Hcs]%Forall_cons [(Dns & Dty & Dnm) Hcs']%Forall_cons.
  destruct (IH Hcs Hcs') as [IH1 IH2]. cbn [flatten_children].
  destruct (c_namespace c) as [ns|]; cbn [app child_segments_ok]; unfold nonempty.
  - destruct Fns as [Fns1 Fns2]. split; [by repeat constructor|].
    rewrite Dns, Dty, Dnm, IH2.
    rewrite !bool_decide_eq_false_2 by done. done.
  - split; [by repeat constructor|]. rewrite Dty, Dnm, IH2.
    rewrite !bool_decide_eq_false_2 by done. done.
Qed.

Lemma view_parts_ok v cs :
  root_fields_ok v → Forall child_fields_ok cs → Forall child_dot cs →
  parts_ok (view_parts v cs).
Proof.
  intros ([Hsub1 Hsub2] & Hg & Hp) Hcs Hcs'.
  destruct (flatten_children_ok cs Hcs Hcs') as [Hf1 Hf2].
  destruct v as [sub rg prov rest]. unfold parts_ok, view_parts, parts_segments.
  cbn [w_subscriptions w_subscription w_resource_group w_provider w_children
       v_subscription v_resource_group v_provider] in *.
  unfold nonempty.
  destruct rg as [g|], prov as [p|]; cbn [app];
    repeat match goal with
           | H : segment_name _ |- _ => destruct H
           | H : _ ∧ _ |- _ => destruct H
           end;
    split_and!; try done;
    try (by rewrite bool_decide_eq_false_2 by done);
    by repeat constructor.
Qed.

(** What [resource_id] gives back for a text the root pattern matches is
    the text of well-formed parts. *)
Lemma rebuilt_parts rid built :
  rebuilt rid = Ok built →
  ∃ v, armid_view rid = Some v ∧
       built = path (parts_segments (view_parts v (found_children v).*1)) ∧
       parts_ok (view_parts v (found_children v).*1).
Proof.
  intros Hb. destruct (decide (rid = "")) as [->|Hne]; [done|].
  destruct (armid_view rid) as [v|] eqn:Hv.
  - rewrite (rebuilt_view _ _ Hne Hv) in Hb. injection Hb as <-.
    exists v. split; [done|]. split; [apply canonical_view_parts|].
    pose proof (armid_view_fields _ _ Hv) as Hf.
    apply view_parts_ok; [done|..]; apply Forall_fmap.
    + apply scan_children_fields.
    + apply (scan_children_all dot). by apply children_text_dot.
  - revert Hb. unfold rebuilt. rewrite parse_resource_id_unfold.
    rewrite bool_decide_eq_false_2, Hv by done. by vm_compute.
Qed.

Lemma rebuilt_well_formed rid built : rebuilt rid = Ok built → well_formed built = true.
Proof.
  intros (v & _ & -> & Hok)%rebuilt_parts. by apply parts_well_formed.
Qed.

Lemma path_is_ascii l :
  Forall (fun s => Str.is_ascii s = true) l → Str.is_ascii (path l) = true.
Proof.
  induction 1 as [|s l Hs Hl IH]; [done|]. cbn [path].
  by rewrite !is_ascii_app, Hs, IH.
Qed.

Lemma flatten_children_ascii cs :
  Forall (child_all Str.is_ascii_byte) cs →
  Forall (fun s => Str.is_ascii s = true) (flatten_children cs).
Proof.
  induction 1 as [|c cs (Hns & Hty & Hnm) Hcs IH]; [by constructor|].
  cbn [flatten_children].
  destruct (c_namespace c) as [ns|]; cbn [app]; by repeat constructor.
Qed.

(** An ASCII identifier is recomposed as an ASCII identifier. *)
Lemma rebuilt_ascii rid built :
  rebuilt rid = Ok built → Str.is_ascii rid = true → Str.is_ascii built = true.
Proof.
  intros (v & Hv & -> & _)%rebuilt_parts Hrid.
  destruct (armid_view_all Str.is_ascii_byte _ _ Hv Hrid) as (Hsub & Hg & Hp).
  apply path_is_ascii.
  assert (Forall (fun s => Str.is_ascii s = true)
            (flatten_children (found_children v).*1)) as Hch.
  { apply flatten_children_ascii, Forall_fmap.
    apply (scan_children_all Str.is_ascii_byte). unfold children_text.
    destruct (v_provider v) as [p|]; [|done]. by destruct Hp as (_ & _ & _ & ?). }
  destruct v as [sub rg prov rest]. unfold view_parts, parts_segments.
  cbn [w_subscriptions w_subscription w_resource_group w_provider w_children
       v_subscription v_resource_group v_provider] in *.
  destruct rg as [g|], prov as [p|]; cbn [app];
    repeat match goal with H : _ ∧ _ |- _ => destruct H end;
    by repeat constructor.
Qed.

Lemma canonical_parts_idemp w :
  parts_ok w → canonical_parts (canonical_parts w) = canonical_parts w.
Proof.
  intros Hw. pose proof (canonical_parts_children w Hw) as Hch.
  unfold canonical_parts at 1. rewrite Hch.
  destruct w as [k1 sub [[k2 g]|] [[[[k3 ns] ty] nm]|] ch]; done.
Qed.

Lemma rebuilt_parts_text w :
  parts_ok w → Forall (fun s => Str.is_ascii s = true) (w_children w) →
  rebuilt (path (parts_segments w)) = Ok (path (parts_segments (canonical_parts w))).
Proof.
  intros Hw Hascii. pose proof (armid_view_parts w Hw) as Hv.
  rewrite (rebuilt_view _ _ (armid_view_nonempty _ _ Hv) Hv).
  by rewrite found_children_parts, canonical_parts_text.
Qed.

Section valid_identifiers.
Context {T : Type}.

(** X10. [is_valid_resource_id] and the well-formed identifiers: for a
    well-formed ASCII identifier it returns [True], with and without an
    exception type; for any string that is not well-formed it returns
    [False] (the string itself when it is empty), or raises the exception
    type when one is given. *)
Theorem is_valid_resource_id_iff_well_formed rid :
  (well_formed rid = true → Str.is_ascii rid = true →
     ∀ exception_type : option T,
       is_valid_resource_id rid exception_type = Returns (VBool true)) ∧
  (well_formed rid = false →
     is_valid_resource_id (T := T) rid None =
       Returns (if bool_decide (rid = "") then VStr "" else VBool false) ∧
     ∀ t : T, is_valid_resource_id rid (Some t) = Raises t).
Proof.
  split; [intros Hwf Hascii e; by apply well_formed_valid|].
  intros Hwf.
  assert ((if bool_decide (rid = "") then VStr rid
           else match rebuilt rid with
                | Ok built => VBool (bool_decide (Str.lower built = Str.lower rid))
                | Err _ => VBool false
                end) =
          if bool_decide (rid = "") then VStr "" else VBool false) as Hv.
  { case_bool_decide as Hrid; [by subst|].
    destruct (rebuilt rid) as [built|e] eqn:Hb; [|done].
    case_bool_decide as Hl; [|done].
    apply rebuilt_well_formed in Hb.
    by rewrite <-well_formed_lower, Hl, well_formed_lower, Hwf in Hb. }
  rewrite is_valid_resource_id_unfold. cbn zeta. rewrite Hv. split; [done|].
  intros t. rewrite is_valid_resource_id_unfold. cbn zeta. rewrite Hv.
  by case_bool_decide.
Qed.

(** X11. Whatever [resource_id] builds from the parse of an ASCII string is
    a valid identifier. *)
Theorem rebuilt_is_valid rid built (exception_type : option T) :
  Str.is_ascii rid = true → rebuilt rid = Ok built →
  is_valid_resource_id built exception_type = Returns (VBool true).
Proof.
  intros Hascii Hb. apply well_formed_valid.
  - by apply (rebuilt_well_formed rid).
  - by apply (rebuilt_ascii rid).
Qed.
End valid_identifiers.

Lemma is_valid_resource_id_iff_well_formed_witness :
  (∀ exception_type : option unit,
     is_valid_resource_id "/subscriptions/S/resourceGroups/G" exception_type =
       Returns (VBool true)) ∧
  (is_valid_resource_id (T := unit) "/subscriptions/S/resourceGroups" None =
     Returns (if bool_decide ("/subscriptions/S/resourceGroups" = "")
              then VStr "" else VBool false) ∧
   ∀ t : unit,
     is_valid_resource_id "/subscriptions/S/resourceGroups" (Some t) = Raises t).
Proof.
  split.
  - refine (proj1 (is_valid_resource_id_iff_well_formed
                     "/subscriptions/S/resourceGroups/G") _ _);
      vm_compute; reflexivity.
  - refine (proj2 (is_valid_resource_id_iff_well_formed (T := unit)
                     "/subscriptions/S/resourceGroups") _).
    vm_compute. reflexivity.
Defined.

Lemma rebuilt_is_valid_witness :
  is_valid_resource_id (T := unit) "/subscriptions/S" None = Returns (VBool true).
Proof.
  apply (rebuilt_is_valid (T := unit) "/SUBSCRIPTIONS/S//junk" "/subscriptions/S" None);
    vm_compute; reflexivity.
Defined.

(** X12. Recomposing the parse of a well-formed ASCII identifier gives a
    fixed point: the identifier it returns is equal to the given one up to
    case, and is returned unchanged when it is parsed and recomposed
    again. *)
Theorem rebuilt_fixed_point x :
  well_formed x = true → Str.is_ascii x = true →
  ∃ y, rebuilt x = Ok y ∧ Str.lower y = Str.lower x ∧ rebuilt y = Ok y.
Proof.
  intros Hx Hascii. destruct (well_formed_parts x Hx) as (w & Hw & ->).
  pose proof (ascii_children w Hw Hascii) as Hch.
  exists (path (parts_segments (canonical_parts w))). split_and!.
  - by apply rebuilt_parts_text.
  - by rewrite <-canonical_parts_text, lower_canonical_parts.
  - rewrite rebuilt_parts_text.
    + by rewrite canonical_parts_idemp.
    + by apply canonical_parts_ok.
    + apply ascii_children; [by apply canonical_parts_ok|].
      by apply canonical_parts_ascii.
Qed.

Lemma rebuilt_fixed_point_witness :
  ∃ y, rebuilt "/Subscriptions/S/PROVIDERS/NS/T/N/T1/N1/Providers/NS2/T2/N2" = Ok y ∧
       Str.lower y =
         Str.lower "/Subscriptions/S/PROVIDERS/NS/T/N/T1/N1/Providers/NS2/T2/N2" ∧
       rebuilt y = Ok y.
Proof.
  apply (rebuilt_fixed_point
           "/Subscriptions/S/PROVIDERS/NS/T/N/T1/N1/Providers/NS2/T2/N2");
    vm_compute; reflexivity.
Defined.

Lemma root_parts_ok sub g ns ty nm :
  segment_name sub →
  match g with Some x => segment_name x | None => True end →
  segment_name ns → Str.forallb not_slash ty = true → segment_name nm →
  parts_ok (root_parts sub g ns ty nm).
Proof.
  intros [? ?] Hg [? ?] ? [? ?]. unfold parts_ok, root_parts, parts_segments, nonempty.
  cbn [w_subscriptions w_subscription w_resource_group w_provider w_children].
  destruct g as [x|]; [destruct Hg|]; cbn [app];
    split_and!; try done;
    try (by rewrite bool_decide_eq_false_2 by done);
    by repeat constructor.
Qed.

Lemma root_kwargs_get sub g ns ty nm :
  dict_get (root_kwargs sub g ns ty nm) "subscription" = VStr sub ∧
  dict_get (root_kwargs sub g ns ty nm) "resource_group" = opt_value g ∧
  dict_get (root_kwargs sub g ns ty nm) "namespace" = VStr ns ∧
  dict_get (root_kwargs sub g ns ty nm) "type" = VStr ty ∧
  dict_get (root_kwargs sub g ns ty nm) "name" = VStr nm ∧
  dict_get (root_kwargs sub g ns ty nm) ("child_namespace_" +:+ pretty 1) = VNone ∧
  dict_get (root_kwargs sub g ns ty nm) ("child_type_" +:+ pretty 1) = VNone.
Proof. by split_and!. Qed.

Lemma resource_id_root_kwargs sub g ns ty nm :
  resource_id (root_kwargs sub g ns ty nm) =
    Ok (path (parts_segments (root_parts sub g ns ty nm))).
Proof.
  destruct (root_kwargs_get sub g ns ty nm) as (H1 & H2 & H3 & H4 & H5 & H6 & H7).
  rewrite (resource_id_ext (root_kwargs sub g ns ty nm) _ (fun _ _ => eq_refl) 0);
    [|intros i Hi; lia|].
  - unfold id_head, id_root, id_child_provider, present, field.
    rewrite H1, H2, H3, H4, H5, H6. cbn [id_children py_str].
    unfold root_parts, parts_segments.
    cbn [w_subscriptions w_subscription w_resource_group w_provider w_children].
    destruct g as [x|]; unfold opt_value, from_option; cbn [py_str app path].
    + rewrite (bool_decide_eq_false_2 (VNone ≠ VNone)) by (by intros ?).
      rewrite !bool_decide_eq_true_2 by done. cbn [andb].
      by rewrite ?app_assoc, ?app_nil_r.
    + rewrite !(bool_decide_eq_false_2 (VNone ≠ VNone)) by (by intros ?).
      rewrite !bool_decide_eq_true_2 by done. cbn [andb].
      by rewrite ?app_assoc, ?app_nil_r.
  - unfold complete, present. rewrite H7.
    by rewrite bool_decide_eq_false_2 by (by intros ?).
Qed.

(** X13. Composing the identifier of a root resource and parsing it gives
    the parts back: for a subscription, a resource group if any, a
    namespace and a name that are not empty, and a type, all without a
    slash, the parse of [resource_id]'s result holds exactly these five
    values, no child level, and the name as [resource_name]. *)
Theorem resource_id_then_parse sub g ns ty nm :
  segment_name sub →
  match g with Some x => segment_name x | None => True end →
  segment_name ns → Str.forallb not_slash ty = true → segment_name nm →
  ∃ rid,
    resource_id (root_kwargs sub g ns ty nm) = Ok rid ∧
    parse_result rid !! "subscription" = Some (VStr sub) ∧
    parse_result rid !! "resource_group" = VStr <$> g ∧
    parse_result rid !! "namespace" = Some (VStr ns) ∧
    parse_result rid !! "type" = Some (VStr ty) ∧
    parse_result rid !! "name" = Some (VStr nm) ∧
    parse_result rid !! "last_child_num" = None ∧
    parse_result rid !! "resource_name" = Some (VStr nm).
Proof.
  intros Hsub Hg Hns Hty Hnm.
  pose proof (root_parts_ok sub g ns ty nm Hsub Hg Hns Hty Hnm) as Hw.
  exists (path (parts_segments (root_parts sub g ns ty nm))).
  split; [apply resource_id_root_kwargs|].
  destruct (parse_parts _ Hw) as (kw & Hq & Hparse).
  unfold parse_result. rewrite Hparse.
  destruct (populated_root _ kw Hq) as (H1 & H2 & H3 & H4 & H5 & _).
  destruct (populated_target _ kw Hq) as (_ & _ & H6).
  pose proof (populated_last_child_num _ kw Hq) as H7.
  rewrite H1, H2, H3, H4, H5, H6, lookup_drop_none_eq, H7.
  split_and!; try done. by destruct g.
Qed.

Lemma resource_id_then_parse_witness :
  ∃ rid,
    resource_id (root_kwargs "S" (Some "G") "Microsoft.Compute" "virtualMachines" "vm")
      = Ok rid ∧
    parse_result rid !! "subscription" = Some (VStr "S") ∧
    parse_result rid !! "resource_group" = VStr <$> Some "G" ∧
    parse_result rid !! "namespace" = Some (VStr "Microsoft.Compute") ∧
    parse_result rid !! "type" = Some (VStr "virtualMachines") ∧
    parse_result rid !! "name" = Some (VStr "vm") ∧
    parse_result rid !! "last_child_num" = None ∧
    parse_result rid !! "resource_name" = Some (VStr "vm").
Proof.
  apply (resource_id_then_parse "S" (Some "G") "Microsoft.Compute" "virtualMachines" "vm");
    by split.
Defined.
